(** * emz_convertor: the conversion pipeline of [converter.py]

    A shallow embedding of class [EmzConverter] and of the library calls it
    makes ([pathlib], [shutil], Pillow's [Image], pandas' [to_csv]) over an
    explicit file store, followed by the properties of the construction of
    a job, of its two stages and of a full run.

    The store holds regular files and directories only: no symbolic links,
    no permissions, no quota.  It is keyed by the tuple pathlib calls
    [parts]; a relative path is a key of its own, rooted at the working
    directory [[]], and [..] is a name like any other.  Paths follow
    pathlib's POSIX flavour: the separator is [/] and the backslash is an
    ordinary character.  A directory is listed in the order of the keys of
    the store; the properties are about the members of a listing, not their
    order, except for the order of the rows of the report.  Console output
    ([print]) is not modelled. *)

From Stdlib Require Import String Ascii ZArith Lia.
From Stdlib Require Import Strings.Byte.
From Stdlib Require DecimalString.
From stdpp Require Import gmap strings list fin_maps.

Open Scope string_scope.
Open Scope list_scope.

(** ** Python string operations used by pathlib *)

Module Str.

(** [s[:n]] *)
Fixpoint take (n : nat) (s : string) : string :=
  match n, s with
  | S n', String a s' => String a (take n' s')
  | _, _ => ""
  end.

(** [s[n:]] *)
Fixpoint drop (n : nat) (s : string) : string :=
  match n, s with
  | S n', String _ s' => drop n' s'
  | _, _ => s
  end.

(** [s.rfind(c)]: index of the last occurrence of [c], or [-1]. *)
Fixpoint rfind (c : ascii) (s : string) : Z :=
  match s with
  | "" => (-1)%Z
  | String a s' =>
      let i := rfind c s' in
      if (0 <=? i)%Z then (i + 1)%Z
      else if Ascii.eqb a c then 0%Z else (-1)%Z
  end.

(** [c in s] *)
Fixpoint contains (c : ascii) (s : string) : bool :=
  match s with
  | "" => false
  | String a s' => Ascii.eqb a c || contains c s'
  end.

(** [s.startswith(p)] *)
Fixpoint startswith (p s : string) : bool :=
  match p, s with
  | "", _ => true
  | String a p', String b s' => Ascii.eqb a b && startswith p' s'
  | String _ _, "" => false
  end.

(** [s.endswith(p)] *)
Definition endswith (p s : string) : bool :=
  (String.length p <=? String.length s)%nat
  && String.eqb (drop (String.length s - String.length p) s) p.

(** [s.split(sep)] for a one-character separator. *)
Fixpoint split (sep : ascii) (s : string) : list string :=
  match s with
  | "" => [""]
  | String a s' =>
      if Ascii.eqb a sep then "" :: split sep s'
      else match split sep s' with
           | x :: xs => String a x :: xs
           | [] => [String a ""]
           end
  end.

(** [sep.join(l)] *)
Fixpoint join (sep : string) (l : list string) : string :=
  match l with
  | [] => ""
  | [x] => x
  | x :: l' => x +:+ sep +:+ join sep l'
  end.

(** [str(n)] for a natural number. *)
Definition of_nat (n : nat) : string :=
  DecimalString.NilEmpty.string_of_uint (Nat.to_uint n).

End Str.

(** ** pathlib, POSIX flavour *)

(** A path is the tuple pathlib calls [parts]: the anchor (["/"] or ["//"])
    first when the path is absolute, then the names. *)
Abbreviation path := (list string).

Definition sep : ascii := "/"%char.

(** [posixpath.splitroot]: (root, rest); the drive is always empty. *)
Definition splitroot (p : string) : string * string :=
  if negb (Str.startswith "/" p) then ("", p)
  else if negb (Str.startswith "/" (Str.drop 1 p)) || Str.startswith "/" (Str.drop 2 p)
       then ("/", Str.drop 1 p)
       else ("//", Str.drop 2 p).

(** The names of a relative string: [[x for x in rel.split(sep) if x and x != '.']]. *)
Definition parse_rel (rel : string) : list string :=
  filter (λ x, x ≠ "" ∧ x ≠ ".") (Str.split sep rel).

(** [Path(s)]: [PurePath._parse_path]. *)
Definition Path (s : string) : path :=
  let '(root, rel) := splitroot s in
  if decide (root = "") then parse_rel rel else root :: parse_rel rel.

(** Whether the parts start with an anchor. *)
Definition has_anchor (p : path) : bool :=
  match p with
  | a :: _ => Str.startswith "/" a
  | [] => false
  end.

(** [self._tail]: the parts without the anchor. *)
Definition tail_ (p : path) : list string :=
  if has_anchor p then drop 1 p else p.

(** [self.name]: the last name, or the empty string. *)
Definition name (p : path) : string := List.last (tail_ p) "".

(** [self.parent]: the path itself when it has no name. *)
Definition parent (p : path) : path :=
  match tail_ p with
  | [] => p
  | _ => removelast p
  end.

(** [self.suffix] *)
Definition suffix (p : path) : string :=
  let name := name p in
  let i := Str.rfind "." name in
  if ((0 <? i)%Z && (i <? Z.of_nat (String.length name) - 1)%Z)
  then Str.drop (Z.to_nat i) name else "".

(** [self.stem] *)
Definition stem (p : path) : string :=
  let name := name p in
  let i := Str.rfind "." name in
  if ((0 <? i)%Z && (i <? Z.of_nat (String.length name) - 1)%Z)
  then Str.take (Z.to_nat i) name else name.

(** [self / key]: [Path(posixpath.join(str(self), key))]; an absolute [key]
    replaces [self]. *)
Definition joinpath (p : path) (key : string) : path :=
  if Str.startswith "/" key then Path key else p ++ parse_rel key.

(** [str(self)] *)
Definition str (p : path) : string :=
  match p with
  | [] => "."
  | a :: t => if has_anchor p then a +:+ Str.join "/" t else Str.join "/" p
  end.

(** ** Exceptions and results *)

Inductive exn : Type :=
| IOError (msg : string)
| FileNotFoundError
| FileExistsError
| NotADirectoryError
| IsADirectoryError
| SameFileError
| RecursionError
| ValueError (msg : string)
| UnidentifiedImageError
| Exception (msg : string).

Inductive result (A : Type) : Type :=
| Ok (a : A)
| Raise (e : exn).
Arguments Ok {A} a.
Arguments Raise {A} e.

(** [self.with_suffix(suffix)] *)
Definition with_suffix (p : path) (suffix_ : string) : result path :=
  if Str.contains sep suffix_ then Raise (ValueError "Invalid suffix")
  else if (negb (String.eqb suffix_ "") && negb (Str.startswith "." suffix_))
          || String.eqb suffix_ "."
  then Raise (ValueError "Invalid suffix")
  else
    let name_ := name p in
    if String.eqb name_ "" then Raise (ValueError "empty name")
    else
      let old_suffix := suffix p in
      let name' :=
        if String.eqb old_suffix "" then name_ +:+ suffix_
        else Str.take (String.length name_ - String.length old_suffix) name_ +:+ suffix_ in
      Ok (removelast p ++ [name']).

(** ** The file store *)

Inductive node : Type :=
| File (data : list byte)
| Dir.

Abbreviation store := (gmap path node).

(** Computations over the store that may raise; the store survives a raise. *)
Definition M (A : Type) : Type := store → store * result A.

Definition ret {A} (a : A) : M A := λ st, (st, Ok a).
Definition raise {A} (e : exn) : M A := λ st, (st, Raise e).
Definition bind {A B} (m : M A) (k : A → M B) : M B :=
  λ st, match m st with
        | (st', Ok a) => k a st'
        | (st', Raise e) => (st', Raise e)
        end.

Notation "'let*' x ':=' m 'in' k" := (bind m (λ x, k))
  (at level 10, x name, m at level 100, k at level 200).
Notation "m ';;' k" := (bind m (λ _, k))
  (at level 100, k at level 200, right associativity).

(** Lifting a pure result. *)
Definition lift {A} (r : result A) : M A := λ st, (st, r).

(** [for x in l: body(x)]; a raise leaves the loop. *)
Fixpoint for_each {A} (l : list A) (body : A → M unit) : M unit :=
  match l with
  | [] => ret tt
  | x :: l' => body x ;; for_each l' body
  end.

(** [Path.exists()] *)
Definition exists_ (p : path) : M bool :=
  λ st, (st, Ok (bool_decide (is_Some (st !! p)))).

(** [Path.is_dir()] *)
Definition is_dir (st : store) (p : path) : bool :=
  match st !! p with
  | Some Dir => true
  | _ => false
  end.

(** [os.mkdir(p)] *)
Definition os_mkdir (p : path) : M unit :=
  λ st, match st !! p with
        | Some _ => (st, Raise FileExistsError)
        | None =>
            match st !! parent p with
            | Some Dir => (<[p := Dir]> st, Ok tt)
            | Some (File _) => (st, Raise NotADirectoryError)
            | None => (st, Raise FileNotFoundError)
            end
        end.

(** [Path.mkdir(parents, exist_ok)], the recursion of pathlib with the
    interpreter's recursion depth as [depth]. *)
Fixpoint mkdir_depth (depth : nat) (p : path) (parents exist_ok : bool) : M unit :=
  match depth with
  | O => raise RecursionError
  | S depth' =>
      λ st, match os_mkdir p st with
            | (st', Ok _) => (st', Ok tt)
            | (st', Raise FileNotFoundError) =>
                if negb parents || bool_decide (parent p = p)
                then (st', Raise FileNotFoundError)
                else (mkdir_depth depth' (parent p) true true ;;
                      mkdir_depth depth' p false exist_ok) st'
            | (st', Raise e) =>
                if negb exist_ok || negb (is_dir st' p)
                then (st', Raise e)
                else (st', Ok tt)
            end
  end.

(** The depth of the recursion is at most the number of parts. *)
Definition mkdir (p : path) (parents exist_ok : bool) : M unit :=
  mkdir_depth (S (length p)) p parents exist_ok.

(** [open(p, 'rb').read()] *)
Definition read_bytes (p : path) : M (list byte) :=
  λ st, match st !! p with
        | Some (File data) => (st, Ok data)
        | Some Dir => (st, Raise IsADirectoryError)
        | None => (st, Raise FileNotFoundError)
        end.

(** [open(p, 'wb').write(data)] *)
Definition write_bytes (p : path) (data : list byte) : M unit :=
  λ st, match st !! p with
        | Some Dir => (st, Raise IsADirectoryError)
        | _ =>
            match st !! parent p with
            | Some Dir => (<[p := File data]> st, Ok tt)
            | Some (File _) => (st, Raise NotADirectoryError)
            | None => (st, Raise FileNotFoundError)
            end
        end.

(** [shutil.copyfile(src, dst)] *)
Definition copyfile (src dst : path) : M unit :=
  λ st, if bool_decide (src = dst) && bool_decide (is_Some (st !! src))
        then (st, Raise SameFileError)
        else (let* data := read_bytes src in write_bytes dst data) st.

(** [shutil.rmtree(p)] *)
Definition rmtree (p : path) : M unit :=
  λ st, match st !! p with
        | Some Dir => (filter (λ kv, ¬ p `prefix_of` kv.1) st, Ok tt)
        | Some (File _) => (st, Raise NotADirectoryError)
        | None => (st, Raise FileNotFoundError)
        end.

(** A directory entry name as [os.scandir] reports it. *)
Definition valid_name (n : string) : bool :=
  negb (String.eqb n "") && negb (String.eqb n ".") && negb (String.eqb n "..")
  && negb (Str.contains sep n).

(** The rest of [p] after [d], when [p] starts with [d]. *)
Fixpoint strip_prefix (d p : path) : option path :=
  match d, p with
  | [], _ => Some p
  | x :: d', y :: p' => if decide (x = y) then strip_prefix d' p' else None
  | _ :: _, [] => None
  end.

(** The name under which [p] is an entry of [d], if it is one. *)
Definition child_name (d p : path) : option string :=
  match strip_prefix d p with
  | Some [n] => if valid_name n then Some n else None
  | _ => None
  end.

(** [os.scandir(d)]: the names of the entries of [d], in the store's order. *)
Definition scandir (st : store) (d : path) : list string :=
  omap (λ kv, child_name d kv.1) (map_to_list st).

(** [fnmatch] against the pattern [f"*.{suffix}"], for a [suffix] without
    wildcard characters (the program passes "emz" and "wmf"). *)
Definition fnmatch_star_dot (suffix_ n : string) : bool :=
  Str.endswith ("." +:+ suffix_) n.

(** [d.glob(f"*.{suffix}")]: the matching children of a directory, listed
    when the iteration starts. *)
Definition glob (st : store) (d : path) (suffix_ : string) : list path :=
  if is_dir st d
  then (λ n, d ++ [n]) <$> filter (λ n, fnmatch_star_dot suffix_ n = true) (scandir st d)
  else [].

(** ** Pillow: the image decoding collaborator *)

(** What the program needs of Pillow: a decoder of file contents and an
    encoder that picks the format from the target file name; [None] stands
    for any exception they raise. *)
Class Pillow : Type := {
  Image : Type;
  Image_decode : list byte → option Image;
  Image_encode : string → Image → option (list byte);
}.

Section WithPillow.
Context `{Pillow}.

(** [Image.open(fp)] *)
Definition Image_open (fp : path) : M Image :=
  let* data := read_bytes fp in
  match Image_decode data with
  | Some image_ => ret image_
  | None => raise UnidentifiedImageError
  end.

(** [image.save(fp)]; a failed save leaves no file behind. *)
Definition Image_save (image_ : Image) (fp : path) : M unit :=
  match Image_encode (name fp) image_ with
  | Some data => write_bytes fp data
  | None => raise (ValueError "unknown file extension")
  end.

End WithPillow.

(** ** pandas: the failure report *)

Module pd.

Record DataFrame : Type := {
  data : list path;
  columns : list string;
}.

Definition newline : string := String "010"%char "".
Definition quotechar : ascii := "034"%char.

Fixpoint double_quotes (s : string) : string :=
  match s with
  | "" => ""
  | String a s' =>
      if Ascii.eqb a quotechar then String a (String a (double_quotes s'))
      else String a (double_quotes s')
  end.

(** A field of the csv writer under minimal quoting. *)
Definition field (s : string) : string :=
  if Str.contains ","%char s || Str.contains quotechar s
     || Str.contains "010"%char s || Str.contains "013"%char s
  then String quotechar (double_quotes s) +:+ String quotechar ""
  else s.

Fixpoint rows (i : nat) (l : list path) : string :=
  match l with
  | [] => ""
  | p :: l' => Str.of_nat i +:+ "," +:+ field (str p) +:+ newline +:+ rows (S i) l'
  end.

(** The text of [df.to_csv()]: a header row with an unnamed index column,
    then one row per value: its index and the value. *)
Definition csv_text (df : DataFrame) : string :=
  Str.join "," ("" :: map field (columns df)) +:+ newline +:+ rows 0 (data df).

(** [df.to_csv(path_or_buf)] *)
Definition to_csv (df : DataFrame) (path_or_buf : string) : M unit :=
  write_bytes (Path path_or_buf) (list_byte_of_string (csv_text df)).

End pd.

(** ** class EmzConverter *)

Record EmzConverter : Type := {
  folder_input_path : path;
  folder_output_path : path;
  wmf_folder : path;
  output_type : string;
}.

(** [EmzConverter.check_paths] (lines 31-52); the default output directory
    is the input string followed by a backslash and [output_png_images]. *)
Definition check_paths (folder_input_path : string) (folder_output_path : option string)
  : M (path * path) :=
  let* found := exists_ (Path folder_input_path) in
  (if negb found
   then raise (IOError ("The path " +:+ folder_input_path +:+ " does not exist"))
   else ret tt) ;;
  let folder_output_path :=
    match folder_output_path with
    | None => folder_input_path +:+ "\output_png_images"
    | Some o => o
    end in
  let* found := exists_ (Path folder_output_path) in
  (if negb found then mkdir (Path folder_output_path) true false else ret tt) ;;
  ret (Path folder_input_path, Path folder_output_path).

(** [EmzConverter.__init__] (lines 10-28) *)
Definition __init__ (folder_input_path : string) (folder_output_path : option string)
    (output_type : string) : M EmzConverter :=
  let* paths := check_paths folder_input_path folder_output_path in
  let wmf_folder := joinpath (fst paths) "wmf_files" in
  mkdir wmf_folder true true ;;
  ret {| folder_input_path := fst paths;
         folder_output_path := snd paths;
         wmf_folder := wmf_folder;
         output_type := output_type |}.

(** [EmzConverter.find_files] (lines 55-68) *)
Definition find_files (path_ : path) (suffix_ : string) : M (list path) :=
  let* found := exists_ path_ in
  if negb found then raise (IOError "Provided path does not exist.")
  else λ st, (st, Ok (glob st path_ suffix_)).

(** [EmzConverter.convert_emz_files_to_wmf] (lines 70-77) *)
Definition convert_emz_files_to_wmf (self : EmzConverter) : M unit :=
  let* emz_files := find_files (folder_input_path self) "emz" in
  for_each emz_files (λ file_,
    let* renamed := lift (with_suffix file_ ".wmf") in
    let file_wmf := joinpath (wmf_folder self) (name renamed) in
    copyfile file_ file_wmf).

Section Stage2.
Context `{Pillow}.

(** The body of the [try] of [convert_wmf_to_specified_output_type]
    (lines 84-86). *)
Definition try_convert (self : EmzConverter) (file_ : path) : M unit :=
  let* image_ := Image_open file_ in
  let* renamed := lift (with_suffix file_ ("." +:+ output_type self)) in
  let file_output_type := joinpath (folder_output_path self) (name renamed) in
  Image_save image_ file_output_type.

(** The [for] loop of [convert_wmf_to_specified_output_type] (lines 82-90):
    an exception of the body is caught, the file is appended to [errors_]
    and the loop goes on. *)
Fixpoint convert_loop (self : EmzConverter) (files : list path) (errors_ : list path)
  : M (list path) :=
  match files with
  | [] => ret errors_
  | file_ :: files' =>
      λ st, match try_convert self file_ st with
            | (st', Ok _) => convert_loop self files' errors_ st'
            | (st', Raise e) => convert_loop self files' (errors_ ++ [file_]) st'
            end
  end.

(** [csv_file] of line 93. *)
Definition csv_file : string := str (joinpath (Path ".") "unsuccessful_conversions.csv").

(** The message of the exception of lines 95-96. *)
Definition batch_message : string :=
  "Some files were not updated. " +:+ pd.newline +:+
  "Check this csv [" +:+ csv_file +:+ "] for a detailed list of files that did not update".

(** [EmzConverter.convert_wmf_to_specified_output_type] (lines 79-98) *)
Definition convert_wmf_to_specified_output_type (self : EmzConverter) : M unit :=
  let* files := find_files (wmf_folder self) "wmf" in
  let* errors_ := convert_loop self files [] in
  rmtree (wmf_folder self) ;;
  if (0 <? length errors_)%nat
  then
    pd.to_csv {| pd.data := errors_; pd.columns := ["file_names"] |} csv_file ;;
    raise (Exception batch_message)
  else ret tt.

(** [EmzConverter.convert] (lines 100-103) *)
Definition convert (self : EmzConverter) : M unit :=
  convert_emz_files_to_wmf self ;;
  convert_wmf_to_specified_output_type self.

(** [EmzConverter(folder_input_path, folder_output_path, output_type).convert()],
    as line 107 calls it. *)
Definition run (folder_input_path : string) (folder_output_path : option string)
    (output_type : string) : M unit :=
  let* self := __init__ folder_input_path folder_output_path output_type in
  convert self.

End Stage2.

(** ** Notions used in the statements *)

(** The suffixes [with_suffix] accepts. *)
Definition valid_suffix (suffix_ : string) : bool :=
  negb (Str.contains sep suffix_) && Str.startswith "." suffix_
  && negb (String.eqb suffix_ ".").

(** [open(p, 'wb')] succeeds on [p]. *)
Definition writable (st : store) (p : path) : bool :=
  negb (is_dir st p) && is_dir st (parent p).

Section Outcome.
Context `{Pillow}.

(** What the body of the [try] does to a staged file in a given store: the
    output path and bytes it writes, or [None] when it raises. *)
Definition outcome (self : EmzConverter) (st : store) (file_ : path)
  : option (path * list byte) :=
  match st !! file_ with
  | Some (File b) =>
      match Image_decode b, with_suffix file_ ("." +:+ output_type self) with
      | Some image_, Ok renamed =>
          let out := joinpath (folder_output_path self) (name renamed) in
          match Image_encode (name out) image_ with
          | Some data => if writable st out then Some (out, data) else None
          | None => None
          end
      | _, _ => None
      end
  | _ => None
  end.

End Outcome.

(** The report path, as [open] resolves [csv_file]. *)
Definition report_path : path := Path csv_file.

(** The bytes of the report for a failure sequence. *)
Definition report_bytes (errors_ : list path) : list byte :=
  list_byte_of_string (pd.csv_text {| pd.data := errors_; pd.columns := ["file_names"] |}).

(** An object as [__init__] builds it: the staging directory is the
    [wmf_files] child of the input directory. *)
Definition constructed (self : EmzConverter) : Prop :=
  wmf_folder self = joinpath (folder_input_path self) "wmf_files".

(** ** Data of the worked examples *)

(** A decoder for the examples: contents that start with byte 1 decode, and
    an image is written to a [.png] target as byte 0x89 then its contents. *)
Definition example_pillow : Pillow := {|
  Image := list byte;
  Image_decode := λ b, match b with x01 :: _ => Some b | _ => None end;
  Image_encode := λ n image_, if Str.endswith ".png" n then Some (x89 :: image_) else None;
|}.

Definition example_self : EmzConverter := {|
  folder_input_path := ["in"];
  folder_output_path := ["out"];
  wmf_folder := ["in"; "wmf_files"];
  output_type := "png";
|}.

(** A working directory with an input directory holding a valid [a.emz]
    and an invalid [corrupt.emz], and an empty output directory. *)
Definition example_store : store :=
  list_to_map [ ([], Dir); (["in"], Dir); (["out"], Dir);
                (["in"; "a.emz"], File [x01; x02]);
                (["in"; "corrupt.emz"], File [x00]) ].

(** The same after construction and stage 1. *)
Definition example_staged : store :=
  list_to_map [ ([], Dir); (["in"], Dir); (["out"], Dir);
                (["in"; "a.emz"], File [x01; x02]);
                (["in"; "corrupt.emz"], File [x00]);
                (["in"; "wmf_files"], Dir);
                (["in"; "wmf_files"; "a.wmf"], File [x01; x02]);
                (["in"; "wmf_files"; "corrupt.wmf"], File [x00]) ].

(** Where stage 1 puts the copy of an input file: its base name with the
    [.wmf] extension, in the staging directory. *)
Definition staged_path (self : EmzConverter) (file_ : path) : path :=
  wmf_folder self ++ [stem file_ +:+ ".wmf"].

(** A POSIX tree with the input directory [/data/in]. *)
Definition example_posix_store : store :=
  list_to_map [ (["/"], Dir); (["/"; "data"], Dir); (["/"; "data"; "in"], Dir) ].

(** An input directory whose two entries [.emz] and [.emz.emz] have the
    same base name [.emz], after construction. *)
Definition example_same_stem : store :=
  list_to_map [ ([], Dir); (["in"], Dir); (["out"], Dir); (["in"; "wmf_files"], Dir);
                (["in"; ".emz"], File [x01]);
                (["in"; ".emz.emz"], File [x02]) ].

(** The example input directory after construction: the staging directory
    exists and is empty. *)
Definition example_constructed : store :=
  <[ ["in"; "wmf_files"] := Dir ]> example_store.

(** The output directory string [check_paths] settles on. *)
Definition output_string (folder_input_path : string) (folder_output_path : option string)
  : string :=
  match folder_output_path with
  | None => folder_input_path +:+ "\output_png_images"
  | Some o => o
  end.

(** The object [__init__] returns. *)
Definition job (folder_input_path : string) (folder_output_path : option string)
    (output_type : string) : EmzConverter :=
  {| folder_input_path := Path folder_input_path;
     folder_output_path := Path (output_string folder_input_path folder_output_path);
     wmf_folder := joinpath (Path folder_input_path) "wmf_files";
     output_type := output_type |}.

(** The store with directory [p] added when nothing is at [p]. *)
Definition ensure_dir (p : path) (st : store) : store :=
  match st !! p with
  | Some _ => st
  | None => <[p := Dir]> st
  end.

(** The output directory is there, or can be made in an existing parent
    without becoming an [.emz] entry of the input directory. *)
Definition output_ready (st : store) (input out : path) : Prop :=
  is_dir st out = true
  ∨ (st !! out = None ∧ is_dir st (parent out) = true
     ∧ ∀ n, out = input ++ [n] → fnmatch_star_dot "emz" n = false).

(** The store with everything strictly below directory [d] removed. *)
Definition empty_dir (d : path) (st : store) : store :=
  filter (λ kv : path * node, ¬ (d `prefix_of` kv.1 ∧ kv.1 ≠ d)) st.

Section LoopSpec.
Context `{Pillow}.

(** The files the loop of stage 2 writes over [files], each judged in the
    store [st], in the order of the loop. *)
Definition writes (self : EmzConverter) (st : store) (files : list path)
  : list (path * list byte) :=
  omap (outcome self st) files.

(** The files of [files] the loop of stage 2 records as failed. *)
Definition failures (self : EmzConverter) (st : store) (files : list path) : list path :=
  filter (λ f, outcome self st f = None) files.

(** What converting the contents [b] of the input file [f] gives: the name
    and the bytes of the output file, or [None] when the conversion fails. *)
Definition rendered (ext : string) (f : path) (b : list byte)
  : option (string * list byte) :=
  match Image_decode b with
  | Some image_ =>
      if valid_suffix ("." +:+ ext)
      then match Image_encode (stem f +:+ "." +:+ ext) image_ with
           | Some data => Some (stem f +:+ "." +:+ ext, data)
           | None => None
           end
      else None
  | None => None
  end.

End LoopSpec.

(** Writing files one after the other. *)
Definition apply_writes (ws : list (path * list byte)) (st : store) : store :=
  foldl (λ s w, <[w.1 := File w.2]> s) st ws.

(** Two valid input files, an empty output directory, no staging directory. *)
Definition example_valid : store :=
  list_to_map [ ([], Dir); (["in"], Dir); (["out"], Dir);
                (["in"; "a.emz"], File [x01; x02]);
                (["in"; "b.emz"], File [x01]) ].

(** One valid input file, and a staging directory that a previous run left
    behind with a valid [old.wmf] in it. *)
Definition example_leftover : store :=
  list_to_map [ ([], Dir); (["in"], Dir); (["out"], Dir);
                (["in"; "a.emz"], File [x01; x02]);
                (["in"; "wmf_files"], Dir);
                (["in"; "wmf_files"; "old.wmf"], File [x01; x03]) ].

(** The stores after a first run on [example_leftover], and after a second
    run made once the output directory has been emptied. *)
Definition example_first_run : store :=
  (@run example_pillow "in" (Some "out") "png" example_leftover).1.

Definition example_second_run : store :=
  (@run example_pillow "in" (Some "out") "png" (empty_dir ["out"] example_first_run)).1.

(** ** Notions used in the further properties *)

(** A suffix that [find_files] can splice into its pattern as literal text:
    no wildcard character of [fnmatch] and no separator. *)
Definition plain_suffix (suffix_ : string) : bool :=
  negb (Str.contains "*" suffix_) && negb (Str.contains "?" suffix_)
  && negb (Str.contains "[" suffix_) && negb (Str.contains sep suffix_).

(** A name as [Path] keeps it: not empty, not [.], without separator. *)
Definition kept_name (n : string) : Prop :=
  n ≠ "" ∧ n ≠ "." ∧ Str.contains sep n = false.

(** The parts [Path] produces: names it keeps, after the anchor [/] or [//]
    when the path is absolute. *)
Definition normal (p : path) : Prop :=
  Forall kept_name p
  ∨ ∃ root names, p = root :: names ∧ (root = "/" ∨ root = "//") ∧ Forall kept_name names.

(** A working directory where the input path [pic.emz] is a regular file. *)
Definition example_input_is_file : store :=
  list_to_map [ ([], Dir); (["out"], Dir); (["pic.emz"], File [x01]) ].

(** An input directory in which [wmf_files] is a regular file. *)
Definition example_wmf_is_file : store :=
  list_to_map [ ([], Dir); (["in"], Dir); (["out"], Dir);
                (["in"; "wmf_files"], File []) ].

(** A constructed job whose input directory holds a regular [a.emz] and a
    directory named [album.emz]. *)
Definition example_dir_entry : store :=
  list_to_map [ ([], Dir); (["in"], Dir); (["out"], Dir); (["in"; "wmf_files"], Dir);
                (["in"; "a.emz"], File [x01; x02]);
                (["in"; "album.emz"], Dir) ].

(** A staged batch whose output path [out] is a regular file. *)
Definition example_output_is_file : store :=
  list_to_map [ ([], Dir); (["in"], Dir); (["out"], File []);
                (["in"; "wmf_files"], Dir);
                (["in"; "wmf_files"; "a.wmf"], File [x01; x02]) ].

(** A staged batch with one invalid file, in a working directory where
    [unsuccessful_conversions.csv] is a directory. *)
Definition example_report_is_dir : store :=
  list_to_map [ ([], Dir); (["in"], Dir); (["out"], Dir);
                (["unsuccessful_conversions.csv"], Dir);
                (["in"; "wmf_files"], Dir);
                (["in"; "wmf_files"; "corrupt.wmf"], File [x00]) ].

(** * Properties *)

(** ** Facts about strings and names *)

Module StrFacts.

Lemma length_drop n s : String.length (Str.drop n s) = String.length s - n.
Proof.
  revert s; induction n as [|n IH]; intros [|a s]; simpl; auto with lia.
Qed.

Lemma length_take n s : String.length (Str.take n s) = min n (String.length s).
Proof.
  revert s; induction n as [|n IH]; intros [|a s]; simpl; auto.
Qed.

Lemma length_app (s t : string) :
  String.length (s +:+ t) = String.length s + String.length t.
Proof. induction s as [|a s IH]; simpl; auto. Qed.

Lemma contains_app c (s t : string) :
  Str.contains c (s +:+ t) = Str.contains c s || Str.contains c t.
Proof.
  induction s as [|a s IH]; simpl; [done|]. rewrite IH. by rewrite orb_assoc.
Qed.

Lemma contains_take c n s : Str.contains c s = false → Str.contains c (Str.take n s) = false.
Proof.
  revert s; induction n as [|n IH]; intros [|a s]; simpl; auto.
  intros [-> ?]%orb_false_elim. simpl. auto.
Qed.

Lemma split_no_sep c s : Str.contains c s = false → Str.split c s = [s].
Proof.
  induction s as [|a s IH]; simpl; [done|].
  intros [-> Hs]%orb_false_elim. by rewrite (IH Hs).
Qed.

Lemma startswith_no_sep c s :
  Str.contains c s = false → Str.startswith (String c "") s = false.
Proof.
  destruct s as [|a s]; simpl; [done|].
  intros [Ha _]%orb_false_elim. rewrite Ascii.eqb_sym, Ha. done.
Qed.

Lemma rfind_bounds c s : (-1 ≤ Str.rfind c s < Z.of_nat (String.length s))%Z.
Proof.
  induction s as [|a s IH]; simpl; [lia|].
  destruct (0 <=? Str.rfind c s)%Z eqn:E; [lia|].
  destruct (Ascii.eqb a c); lia.
Qed.

End StrFacts.

Arguments Str.startswith : simpl never.
Arguments Str.contains : simpl nomatch.

Lemma valid_name_spec n :
  valid_name n = true ↔ n ≠ "" ∧ n ≠ "." ∧ n ≠ ".." ∧ Str.contains sep n = false.
Proof.
  unfold valid_name. rewrite !andb_true_iff, !negb_true_iff, !String.eqb_neq.
  tauto.
Qed.

Lemma parse_rel_name n : valid_name n = true → parse_rel n = [n].
Proof.
  intros (Hn & Hd & _ & Hs)%valid_name_spec. unfold parse_rel.
  rewrite (StrFacts.split_no_sep _ _ Hs). by rewrite filter_cons_True, filter_nil.
Qed.

Lemma joinpath_name p n : valid_name n = true → joinpath p n = p ++ [n].
Proof.
  intros Hv. unfold joinpath. rewrite (parse_rel_name _ Hv).
  apply valid_name_spec in Hv as (_ & _ & _ & Hs).
  by rewrite (StrFacts.startswith_no_sep "/"%char n Hs).
Qed.

Lemma joinpath_wmf_files p : joinpath p "wmf_files" = p ++ ["wmf_files"].
Proof. by apply joinpath_name. Qed.

Lemma tail_child d n :
  valid_name n = true → ∃ t, tail_ (d ++ [n]) = t ++ [n].
Proof.
  intros (_ & _ & _ & Hs)%valid_name_spec. unfold tail_, has_anchor.
  destruct d as [|a d].
  - simpl. rewrite (StrFacts.startswith_no_sep "/"%char n Hs). by exists [].
  - simpl. destruct (Str.startswith "/" a).
    + by exists d.
    + by exists (a :: d).
Qed.

Lemma name_child d n : valid_name n = true → name (d ++ [n]) = n.
Proof.
  intros Hv. unfold name. destruct (tail_child d n Hv) as [t ->].
  apply last_last.
Qed.

Lemma parent_child d n : valid_name n = true → parent (d ++ [n]) = d.
Proof.
  intros Hv. unfold parent. destruct (tail_child d n Hv) as [t ->].
  destruct t; apply removelast_last.
Qed.

Lemma valid_suffix_dot ext :
  valid_suffix ("." +:+ ext) = negb (Str.contains sep ext) && negb (String.eqb ext "").
Proof.
  unfold valid_suffix.
  change (Str.startswith "." ("." +:+ ext)) with true.
  change (Str.contains sep ("." +:+ ext)) with (Str.contains sep ext).
  rewrite andb_true_r. f_equal.
Qed.

Lemma with_suffix_stem p suffix_ :
  valid_suffix suffix_ = true → name p ≠ "" →
  with_suffix p suffix_ = Ok (removelast p ++ [stem p +:+ suffix_]).
Proof.
  unfold valid_suffix. rewrite !andb_true_iff, !negb_true_iff.
  intros [[Hs Hd] Hne] Hn. unfold with_suffix. rewrite Hs, Hd, Hne. simpl.
  rewrite andb_false_r. simpl.
  apply String.eqb_neq in Hn. rewrite Hn. do 3 f_equal.
  unfold suffix, stem.
  pose proof (StrFacts.rfind_bounds "." (name p)) as Hb.
  destruct ((0 <? Str.rfind "." (name p))%Z
            && (Str.rfind "." (name p) <? Z.of_nat (String.length (name p)) - 1)%Z) eqn:E;
    [|done].
  apply andb_true_iff in E as [E1%Z.ltb_lt E2%Z.ltb_lt].
  assert (Str.drop (Z.to_nat (Str.rfind "." (name p))) (name p) ≠ "") as Hdr.
  { intros Hx. apply (f_equal String.length) in Hx.
    rewrite StrFacts.length_drop in Hx. simpl in Hx. lia. }
  apply String.eqb_neq in Hdr. rewrite Hdr.
  rewrite StrFacts.length_drop. do 2 f_equal. lia.
Qed.

Lemma stem_nonempty p : name p ≠ "" → stem p ≠ "".
Proof.
  intros Hn. unfold stem.
  destruct ((0 <? Str.rfind "." (name p))%Z
            && (Str.rfind "." (name p) <? Z.of_nat (String.length (name p)) - 1)%Z) eqn:E;
    [|done].
  apply andb_true_iff in E as [E1%Z.ltb_lt E2%Z.ltb_lt].
  intros Hx. apply (f_equal String.length) in Hx.
  rewrite StrFacts.length_take in Hx. simpl in Hx. lia.
Qed.

Lemma stem_no_sep p : Str.contains sep (name p) = false → Str.contains sep (stem p) = false.
Proof.
  intros Hn. unfold stem. destruct (_ && _); [|done].
  by apply StrFacts.contains_take.
Qed.

(** The name [with_suffix] builds is again an entry name. *)
Lemma renamed_valid p suffix_ :
  valid_suffix suffix_ = true → valid_name (name p) = true →
  valid_name (stem p +:+ suffix_) = true.
Proof.
  intros Hsuf (Hn & _ & _ & Hs)%valid_name_spec.
  pose proof (stem_nonempty p Hn) as Hst.
  unfold valid_suffix in Hsuf.
  apply andb_true_iff in Hsuf as [[Hc%negb_true_iff Hd]%andb_true_iff Hne%negb_true_iff].
  apply String.eqb_neq in Hne.
  assert (3 ≤ String.length (stem p +:+ suffix_))%nat as Hlen.
  { rewrite StrFacts.length_app.
    destruct (stem p) as [|? ?]; [done|].
    destruct suffix_ as [|c1 [|c2 rest]]; simpl in *; try done; try lia.
    unfold Str.startswith in Hd.
    apply andb_true_iff in Hd as [Ha%Ascii.eqb_eq _]. by subst c1. }
  apply valid_name_spec. repeat split.
  - intros Hx. rewrite Hx in Hlen. simpl in Hlen. lia.
  - intros Hx. rewrite Hx in Hlen. simpl in Hlen. lia.
  - intros Hx. rewrite Hx in Hlen. simpl in Hlen. lia.
  - rewrite StrFacts.contains_app, Hc, (stem_no_sep p Hs). done.
Qed.

Lemma with_suffix_child d n suffix_ :
  valid_suffix suffix_ = true → valid_name n = true →
  with_suffix (d ++ [n]) suffix_ = Ok (d ++ [stem (d ++ [n]) +:+ suffix_]).
Proof.
  intros Hsuf Hv. rewrite with_suffix_stem; [|done|].
  - by rewrite removelast_last.
  - rewrite name_child by done. by apply valid_name_spec in Hv as (? & _).
Qed.


(** ** Facts about directory listings *)

Lemma strip_prefix_Some d p r : strip_prefix d p = Some r ↔ p = d ++ r.
Proof.
  revert p; induction d as [|x d IH]; intros p; simpl.
  - split; [by intros [= ->]|by intros ->].
  - destruct p as [|y p]; [split; [done|by intros [=]]|].
    case_decide as Hxy; [subst y|].
    + rewrite IH. split; [by intros ->|by intros [= ->]].
    + split; [done|]. by intros [= -> _].
Qed.

Lemma child_name_Some d p n :
  child_name d p = Some n ↔ p = d ++ [n] ∧ valid_name n = true.
Proof.
  unfold child_name. destruct (strip_prefix d p) as [r|] eqn:E.
  - apply strip_prefix_Some in E as ->.
    destruct r as [|m [|m' r]].
    + split; [done|]. intros [Hp _]. symmetry in Hp.
      by apply app_inv_head in Hp.
    + destruct (valid_name m) eqn:Hv.
      * split; [by intros [= ->]|]. by intros [[= ->]%app_inv_head _].
      * split; [done|]. intros [[= ->]%app_inv_head ?]. congruence.
    + split; [done|]. by intros [[=]%app_inv_head _].
  - split; [done|]. intros [-> _].
    assert (strip_prefix d (d ++ [n]) = Some [n]) by by apply strip_prefix_Some.
    congruence.
Qed.

Lemma elem_of_scandir (st : store) d n :
  n ∈ scandir st d ↔ valid_name n = true ∧ is_Some (st !! (d ++ [n])).
Proof.
  unfold scandir. rewrite list_elem_of_omap. split.
  - intros ([p v] & Hin & Hc). simpl in Hc.
    apply child_name_Some in Hc as [-> Hv].
    apply elem_of_map_to_list in Hin. split; [done|]. by exists v.
  - intros [Hv [v Hl]]. exists (d ++ [n], v). split.
    + by apply elem_of_map_to_list.
    + by apply child_name_Some.
Qed.

Lemma NoDup_omap_inj {A B} (f : A → option B) (l : list A) :
  (∀ x y b, f x = Some b → f y = Some b → x = y) → NoDup l → NoDup (omap f l).
Proof.
  intros Hinj. induction 1 as [|x l Hx Hl IH]; simpl; [constructor|].
  destruct (f x) as [b|] eqn:E; [|done].
  constructor; [|done]. intros (y & Hy & Hfy)%list_elem_of_omap.
  by rewrite (Hinj x y b E Hfy) in Hx.
Qed.

Lemma NoDup_scandir (st : store) d : NoDup (scandir st d).
Proof.
  unfold scandir.
  assert (omap (λ kv : path * node, child_name d kv.1) (map_to_list st)
          = omap (child_name d) (map_to_list st).*1) as ->.
  { induction (map_to_list st) as [|[p v] l IH]; [done|].
    rewrite fmap_cons. simpl. destruct (child_name d p); [f_equal|]; apply IH. }
  apply NoDup_omap_inj; [|apply NoDup_fst_map_to_list].
  intros x y b [-> _]%child_name_Some [-> _]%child_name_Some. done.
Qed.

Lemma elem_of_glob (st : store) d suffix_ f :
  f ∈ glob st d suffix_ ↔
  is_dir st d = true ∧
  ∃ n, f = d ++ [n] ∧ valid_name n = true ∧ fnmatch_star_dot suffix_ n = true
       ∧ is_Some (st !! f).
Proof.
  unfold glob. destruct (is_dir st d); [|split; [by intros ?%elem_of_nil|by intros [? _]]].
  rewrite list_elem_of_fmap. split.
  - intros (n & -> & [Hm [Hv Hs]%elem_of_scandir]%list_elem_of_filter).
    split; [done|]. by exists n.
  - intros (_ & n & -> & Hv & Hm & Hs). exists n. split; [done|].
    apply list_elem_of_filter. split; [done|]. by apply elem_of_scandir.
Qed.

Lemma NoDup_glob (st : store) d suffix_ : NoDup (glob st d suffix_).
Proof.
  unfold glob. destruct (is_dir st d); [|constructor].
  apply NoDup_fmap_2.
  - intros x y Hxy. by apply app_inv_head in Hxy as [= ->].
  - apply NoDup_filter, NoDup_scandir.
Qed.

Lemma glob_nil_iff (st : store) d suffix_ :
  glob st d suffix_ = [] ↔ ∀ f, f ∉ glob st d suffix_.
Proof.
  split; [intros -> f; apply not_elem_of_nil|].
  intros Hf. destruct (glob st d suffix_) as [|f l]; [done|].
  exfalso. apply (Hf f). left.
Qed.

(** ** Facts about the store operations *)

Lemma bind_ok {A B} (m : M A) (k : A → M B) st st' a :
  m st = (st', Ok a) → bind m k st = k a st'.
Proof. unfold bind. by intros ->. Qed.

Lemma bind_raise {A B} (m : M A) (k : A → M B) st st' e :
  m st = (st', Raise e) → bind m k st = (st', Raise e).
Proof. unfold bind. by intros ->. Qed.

Lemma is_dir_true (st : store) p : is_dir st p = true ↔ st !! p = Some Dir.
Proof.
  unfold is_dir. destruct (st !! p) as [[]|]; split; intros; congruence.
Qed.

Lemma exists_true (st : store) p v :
  st !! p = Some v → exists_ p st = (st, Ok true).
Proof.
  intros Hp. unfold exists_. by rewrite bool_decide_eq_true_2.
Qed.

Lemma exists_false (st : store) p :
  st !! p = None → exists_ p st = (st, Ok false).
Proof.
  intros Hp. unfold exists_. rewrite bool_decide_eq_false_2; [done|].
  rewrite Hp. by intros [? ?].
Qed.

Lemma rmtree_dir (st : store) d :
  st !! d = Some Dir →
  rmtree d st = (filter (λ kv, ¬ d `prefix_of` kv.1) st, Ok tt).
Proof. unfold rmtree. by intros ->. Qed.

Lemma lookup_rmtree (st : store) d p :
  filter (λ kv : path * node, ¬ d `prefix_of` kv.1) st !! p
  = if decide (d `prefix_of` p) then None else st !! p.
Proof.
  case_decide as Hp.
  - apply map_lookup_filter_None. right. intros v _ Hn. by apply Hn.
  - destruct (st !! p) as [v|] eqn:E.
    + by apply map_lookup_filter_Some.
    + apply map_lookup_filter_None. by left.
Qed.

Lemma find_files_exists (st : store) d suffix_ v :
  st !! d = Some v → find_files d suffix_ st = (st, Ok (glob st d suffix_)).
Proof.
  intros Hd. unfold find_files. by rewrite (bind_ok _ _ _ _ _ (exists_true _ _ _ Hd)).
Qed.


Lemma write_bytes_writable (st : store) p data :
  writable st p = true → write_bytes p data st = (<[p := File data]> st, Ok tt).
Proof.
  unfold writable, write_bytes, is_dir.
  destruct (st !! p) as [[]|], (st !! parent p) as [[]|]; simpl; done.
Qed.

Lemma write_bytes_unwritable (st : store) p data :
  writable st p = false → ∃ e, write_bytes p data st = (st, Raise e).
Proof.
  unfold writable, write_bytes, is_dir.
  destruct (st !! p) as [[]|], (st !! parent p) as [[]|]; simpl; try done; eauto.
Qed.

Section Stage2Facts.
Context `{Pillow}.

Lemma try_convert_outcome_Some self st file_ out data :
  outcome self st file_ = Some (out, data) →
  try_convert self file_ st = (<[out := File data]> st, Ok tt).
Proof.
  unfold outcome, try_convert, Image_open, Image_save, read_bytes, lift, bind, ret, raise.
  destruct (st !! file_) as [[b|]|]; try done.
  destruct (Image_decode b) as [image_|]; [|done].
  destruct (with_suffix file_ _) as [renamed|]; [|done]. simpl.
  destruct (Image_encode _ image_) as [data'|]; [|done].
  destruct (writable st _) eqn:Hw; [|done]. intros [= <- <-].
  by apply write_bytes_writable.
Qed.

Lemma try_convert_outcome_None self st file_ :
  outcome self st file_ = None →
  ∃ e, try_convert self file_ st = (st, Raise e).
Proof.
  unfold outcome, try_convert, Image_open, Image_save, read_bytes, lift, bind, ret, raise.
  destruct (st !! file_) as [[b|]|]; eauto.
  destruct (Image_decode b) as [image_|]; eauto.
  destruct (with_suffix file_ _) as [renamed|]; eauto. simpl.
  destruct (Image_encode _ image_) as [data'|]; eauto.
  destruct (writable st _) eqn:Hw; [done|]. intros _.
  by apply write_bytes_unwritable.
Qed.

(** One pass through the body either leaves the store alone or writes one
    regular file where no directory was. *)
Lemma try_convert_store self st file_ :
  match try_convert self file_ st with
  | (st', Ok _) => ∃ out data, outcome self st file_ = Some (out, data)
                               ∧ st' = <[out := File data]> st
  | (st', Raise _) => outcome self st file_ = None ∧ st' = st
  end.
Proof.
  destruct (outcome self st file_) as [[out data]|] eqn:E.
  - rewrite (try_convert_outcome_Some _ _ _ _ _ E). eauto.
  - destruct (try_convert_outcome_None _ _ _ E) as [e ->]. done.
Qed.

Lemma outcome_writable self st file_ out data :
  outcome self st file_ = Some (out, data) → writable st out = true.
Proof.
  unfold outcome. destruct (st !! file_) as [[b|]|]; try done.
  destruct (Image_decode b); [|done]. destruct (with_suffix _ _); [|done]. simpl.
  destruct (Image_encode _ _); [|done]. destruct (writable st _) eqn:E; [|done].
  by intros [= <- _].
Qed.

Lemma outcome_path self st file_ out data :
  outcome self st file_ = Some (out, data) →
  ∃ renamed, with_suffix file_ ("." +:+ output_type self) = Ok renamed
             ∧ out = joinpath (folder_output_path self) (name renamed).
Proof.
  unfold outcome. destruct (st !! file_) as [[b|]|]; try done.
  destruct (Image_decode b); [|done]. destruct (with_suffix _ _) as [r|]; [|done]. simpl.
  destruct (Image_encode _ _); [|done]. destruct (writable st _) eqn:E; [|done].
  intros [= <- _]. by exists r.
Qed.

Lemma convert_loop_total self files errors_ st :
  ∃ st' errors', convert_loop self files errors_ st = (st', Ok errors').
Proof.
  revert errors_ st. induction files as [|f files IH]; intros errors_ st; simpl.
  - by eexists _, _.
  - destruct (try_convert self f st) as [st1 [[]|e]]; apply IH.
Qed.

Lemma convert_loop_app self pre post errors_ st st1 errors1 :
  convert_loop self pre errors_ st = (st1, Ok errors1) →
  convert_loop self (pre ++ post) errors_ st = convert_loop self post errors1 st1.
Proof.
  revert errors_ st. induction pre as [|f pre IH]; intros errors_ st; simpl.
  - by intros [= -> ->].
  - destruct (try_convert self f st) as [st2 [[]|e]]; apply IH.
Qed.

(** The loop never creates or removes a directory, keeps every regular file
    a regular file, and only extends the failure sequence. *)
Lemma convert_loop_preserves self files errors_ st st' errors' :
  convert_loop self files errors_ st = (st', Ok errors') →
  (∀ p, st' !! p = Some Dir ↔ st !! p = Some Dir)
  ∧ (∀ p data, st !! p = Some (File data) → ∃ data', st' !! p = Some (File data'))
  ∧ (∀ p, st' !! p = None → st !! p = None)
  ∧ errors_ `prefix_of` errors'.
Proof.
  revert errors_ st. induction files as [|f files IH]; intros errors_ st; simpl.
  - intros [= -> ->]. repeat split; eauto.
  - pose proof (try_convert_store self st f) as Hstep.
    destruct (try_convert self f st) as [st1 [[]|e]]; intros Hloop;
      destruct (IH _ _ Hloop) as (Hd & Hf & Hn & He).
    + destruct Hstep as (out & data & Ho & ->).
      apply outcome_writable in Ho.
      apply andb_true_iff in Ho as [Ho%negb_true_iff _].
      assert (st !! out ≠ Some Dir) as Hnd by by rewrite <- is_dir_true, Ho.
      repeat split.
      * intros Hp. apply Hd in Hp.
        destruct (decide (out = p)) as [->|Hne]; [by rewrite lookup_insert_eq in Hp|].
        by rewrite lookup_insert_ne in Hp.
      * intros Hp. apply Hd.
        destruct (decide (out = p)) as [->|Hne]; [done|].
        by rewrite lookup_insert_ne.
      * intros p data' Hp. destruct (decide (out = p)) as [->|Hne].
        -- apply (Hf p data). apply lookup_insert_eq.
        -- apply (Hf p data'). by rewrite lookup_insert_ne.
      * intros p Hp. apply Hn in Hp.
        destruct (decide (out = p)) as [->|Hne]; [by rewrite lookup_insert_eq in Hp|].
        by rewrite lookup_insert_ne in Hp.
      * done.
    + destruct Hstep as [_ ->]. repeat split; try done; try apply Hd; eauto.
      etrans; [|done]. by apply prefix_app_r.
Qed.

End Stage2Facts.

Lemma report_path_eq : report_path = ["unsuccessful_conversions.csv"].
Proof. reflexivity. Qed.


(** ** Construction *)

(** C5: when the input directory does not exist, constructing the job
    raises the path-not-found error and the store is left as it was: no
    output directory and no staging directory is created. *)
Theorem C5_missing_input_raises_before_any_file_operation
    (folder_input_path : string) (folder_output_path : option string)
    (output_type : string) (st : store) :
  st !! Path folder_input_path = None →
  __init__ folder_input_path folder_output_path output_type st
  = (st, Raise (IOError ("The path " +:+ folder_input_path +:+ " does not exist"))).
Proof.
  intros Hin. unfold __init__, check_paths.
  erewrite bind_raise; [done|].
  erewrite bind_ok; [|by apply exists_false].
  simpl. by erewrite bind_raise.
Qed.

Lemma C5_missing_input_witness :
  __init__ "nope" None "png" example_store
  = (example_store, Raise (IOError "The path nope does not exist")).
Proof.
  apply (C5_missing_input_raises_before_any_file_operation "nope" None "png" example_store).
  vm_compute. reflexivity.
Defined.

(** ** Stage 2 *)

Section Stage2Claims.
Context `{Pillow}.

Lemma constructed_wmf_folder self :
  constructed self → wmf_folder self = folder_input_path self ++ ["wmf_files"].
Proof. unfold constructed. by rewrite joinpath_wmf_files. Qed.

Lemma constructed_not_prefix_report self :
  constructed self → ¬ wmf_folder self `prefix_of` report_path.
Proof.
  intros Hc%constructed_wmf_folder [r Hr]. rewrite Hc, report_path_eq in Hr.
  destruct (folder_input_path self) as [|a [|b l]]; simpl in Hr; [| |done]; by inversion Hr.
Qed.

Lemma constructed_not_prefix_cwd self :
  constructed self → ¬ wmf_folder self `prefix_of` [].
Proof.
  intros Hc%constructed_wmf_folder [r Hr]. rewrite Hc in Hr.
  by destruct (folder_input_path self).
Qed.

(** Stage 2 on a store whose staging directory exists: the loop over the
    listing, the removal of the staging directory, then the report and the
    batch error when the failure sequence is not empty. *)
Lemma stage2_unfold self st st1 errors_ :
  is_dir st (wmf_folder self) = true →
  convert_loop self (glob st (wmf_folder self) "wmf") [] st = (st1, Ok errors_) →
  convert_wmf_to_specified_output_type self st
  = (if (0 <? length errors_)%nat
     then pd.to_csv {| pd.data := errors_; pd.columns := ["file_names"] |} csv_file ;;
          raise (Exception batch_message)
     else ret tt)
      (filter (λ kv : path * node, ¬ wmf_folder self `prefix_of` kv.1) st1).
Proof.
  intros Hd%is_dir_true Hloop. unfold convert_wmf_to_specified_output_type.
  erewrite bind_ok; [|by eapply find_files_exists].
  erewrite bind_ok; [|done].
  erewrite bind_ok; [done|].
  apply rmtree_dir. by apply (convert_loop_preserves _ _ _ _ _ _ Hloop).
Qed.

(** Once stage 2 is past its loop, nothing is left at or below the staging
    directory. *)
Lemma stage2_staging_gone (self : EmzConverter) (st : store) :
  constructed self →
  is_dir st (wmf_folder self) = true →
  ∀ p, wmf_folder self `prefix_of` p →
       (convert_wmf_to_specified_output_type self st).1 !! p = None.
Proof.
  intros Hc Hd p Hp.
  destruct (convert_loop_total self (glob st (wmf_folder self) "wmf") [] st)
    as (st1 & errors_ & Hloop).
  rewrite (stage2_unfold _ _ _ _ Hd Hloop).
  set (st2 := filter _ st1).
  assert (st2 !! p = None) as Hgone.
  { unfold st2. rewrite lookup_rmtree. by rewrite decide_True. }
  destruct (0 <? length errors_)%nat; [|done].
  unfold pd.to_csv, bind, write_bytes. fold report_path.
  destruct (st2 !! report_path) as [[]|], (st2 !! parent report_path) as [[]|];
    simpl; try done.
  all: rewrite lookup_insert_ne; [done|].
  all: intros <-; by apply (constructed_not_prefix_report self).
Qed.

(** C3: whenever stage 2 reaches the end of its loop (the staging directory
    exists when the stage starts), the staging directory and everything in
    it is gone from the store the stage leaves, whether the stage returns
    or raises the batch error. *)
Theorem C3_staging_directory_removed (self : EmzConverter) (st : store) :
  constructed self →
  is_dir st (wmf_folder self) = true →
  ∀ p, wmf_folder self `prefix_of` p →
       (convert_wmf_to_specified_output_type self st).1 !! p = None.
Proof. apply stage2_staging_gone. Qed.

End Stage2Claims.

Lemma C3_staging_directory_removed_witness :
  (@convert_wmf_to_specified_output_type example_pillow example_self example_staged).1
    !! ["in"; "wmf_files"; "a.wmf"] = None.
Proof.
  apply (@C3_staging_directory_removed example_pillow example_self example_staged).
  - reflexivity.
  - vm_compute. reflexivity.
  - by exists ["a.wmf"].
Defined.

Section Stage2Loop.
Context `{Pillow}.

Lemma convert_loop_cons self file_ files errors_ st :
  convert_loop self (file_ :: files) errors_ st
  = match try_convert self file_ st with
    | (st', Ok _) => convert_loop self files errors_ st'
    | (st', Raise _) => convert_loop self files (errors_ ++ [file_]) st'
    end.
Proof. done. Qed.



End Stage2Loop.


(** ** The default output directory *)

(** C4, at the input directory [/data/in]: [check_paths] resolves the
    default output directory to the path whose last name is
    [in\output_png_images], a child of [/data], and creates that directory;
    the child [output_png_images] of the input directory does not exist
    afterwards. *)
Theorem C4_default_output_directory_at_posix_input :
  (check_paths "/data/in" None example_posix_store).2
  = Ok (["/"; "data"; "in"], ["/"; "data"; "in\output_png_images"])
  ∧ (check_paths "/data/in" None example_posix_store).1
      !! ["/"; "data"; "in\output_png_images"] = Some Dir
  ∧ joinpath (Path "/data/in") "output_png_images" = ["/"; "data"; "in"; "output_png_images"]
  ∧ (check_paths "/data/in" None example_posix_store).1
      !! joinpath (Path "/data/in") "output_png_images" = None.
Proof. split_and!; vm_compute; reflexivity. Qed.

(** ** Stage 1 *)

Lemma for_each_ext {A} (l : list A) (body body' : A → M unit) st :
  (∀ x st, x ∈ l → body x st = body' x st) →
  for_each l body st = for_each l body' st.
Proof.
  revert st. induction l as [|x l IH]; intros st Hext; simpl; [done|].
  unfold bind. rewrite Hext by left. destruct (body' x st) as [st' [[]|e]]; [|done].
  apply IH. intros y st'' Hy. apply Hext. by right.
Qed.

Lemma copyfile_ok (st : store) src dst b :
  src ≠ dst → st !! src = Some (File b) → writable st dst = true →
  copyfile src dst st = (<[dst := File b]> st, Ok tt).
Proof.
  intros Hne Hsrc Hw. unfold copyfile. rewrite bool_decide_eq_false_2 by done. simpl.
  unfold bind, read_bytes. rewrite Hsrc. by apply write_bytes_writable.
Qed.

Lemma copyfile_store (st : store) src dst :
  (copyfile src dst st).1 = st
  ∨ ∃ b, (copyfile src dst st).1 = <[dst := File b]> st.
Proof.
  unfold copyfile. destruct (_ && _); [by left|].
  unfold bind, read_bytes. destruct (st !! src) as [[b|]|]; try by left.
  unfold write_bytes.
  destruct (st !! dst) as [[]|], (st !! parent dst) as [[]|]; simpl; eauto.
Qed.

(** A loop of copies changes the store at the targets only. *)
Lemma copy_loop_frame (tgt : path → path) l st p :
  p ∉ tgt <$> l →
  (for_each l (λ f, copyfile f (tgt f)) st).1 !! p = st !! p.
Proof.
  revert st. induction l as [|f l IH]; intros st Hp; simpl; [done|].
  rewrite fmap_cons, not_elem_of_cons in Hp. destruct Hp as [Hpf Hpl].
  unfold bind. pose proof (copyfile_store st f (tgt f)) as Hstep.
  destruct (copyfile f (tgt f) st) as [st1 [[]|e]]; simpl in *.
  - rewrite IH by done. destruct Hstep as [->|[b ->]]; [done|].
    by rewrite lookup_insert_ne.
  - destruct Hstep as [->|[b ->]]; [done|]. by rewrite lookup_insert_ne.
Qed.

(** A loop of copies whose sources are regular files that are no targets,
    into targets that can be written, runs to its end; each target then
    holds the bytes of a source copied to it. *)
Lemma copy_loop_ok (tgt : path → path) (st0 : store) l st :
  (∀ f, f ∈ l → ∃ b, st0 !! f = Some (File b)) →
  (∀ f g, f ∈ l → g ∈ l → f ≠ tgt g) →
  (∀ f, f ∈ l → writable st (tgt f) = true) →
  (∀ f, f ∈ l → st !! f = st0 !! f) →
  ∃ st', for_each l (λ f, copyfile f (tgt f)) st = (st', Ok tt)
    ∧ ∀ f, f ∈ l →
        ∃ g b, g ∈ l ∧ tgt g = tgt f ∧ st0 !! g = Some (File b)
               ∧ st' !! tgt f = Some (File b)
               ∧ ((∀ g', g' ∈ l → tgt g' = tgt f → g' = f) → g = f).
Proof.
  revert st. induction l as [|f0 l IH]; intros st Hsrc Hdisj Hw Hsame.
  - exists st. split; [done|]. by intros f ?%elem_of_nil.
  - destruct (Hsrc f0) as [b0 Hb0]; [by left|].
    assert (copyfile f0 (tgt f0) st = (<[tgt f0 := File b0]> st, Ok tt)) as Hcopy.
    { apply copyfile_ok; [apply Hdisj; by left| |apply Hw; by left].
      rewrite Hsame by by left. done. }
    destruct (IH (<[tgt f0 := File b0]> st)) as (st' & Hrun & Hres).
    + intros f Hf. apply Hsrc. by right.
    + intros f g Hf Hg. apply Hdisj; by right.
    + intros f Hf. pose proof (Hw f0 (list_elem_of_here _ _)) as Hw0.
      pose proof (Hw f (list_elem_of_further _ _ _ Hf)) as Hwf.
      unfold writable, is_dir in *.
      apply andb_true_iff in Hwf as [Hw1 Hw2]. apply andb_true_iff in Hw0 as [Hw01 _].
      apply andb_true_iff. split.
      * destruct (decide (tgt f0 = tgt f)) as [<-|Hne];
          [by rewrite lookup_insert_eq|by rewrite lookup_insert_ne].
      * destruct (decide (tgt f0 = parent (tgt f))) as [Heq|Hne];
          [|by rewrite lookup_insert_ne].
        rewrite <- Heq in Hw2. destruct (st !! tgt f0) as [[]|]; done.
    + intros f Hf. rewrite lookup_insert_ne; [apply Hsame; by right|].
      intros Heq. apply (Hdisj f f0); [by right|by left|done].
    + exists st'. split; [simpl; by erewrite bind_ok|].
      intros f Hf.
      destruct (decide (tgt f ∈ tgt <$> l)) as [Hin|Hnin].
      * apply list_elem_of_fmap in Hin as (f' & Hff' & Hf').
        destruct (Hres f' Hf') as (g & b & Hg & Hgt & Hgb & Hst' & Huniq).
        exists g, b. rewrite Hff'.
        split; [by right|]. do 3 (split; [done|]).
        intros Hu. assert (f' = f) as -> by (apply Hu; [by right|done]).
        apply Huniq. intros g' Hg' Hgg'. apply Hu; [by right|congruence].
      * assert (f = f0) as ->.
        { apply elem_of_cons in Hf as [->|Hf]; [done|].
          exfalso. apply Hnin. apply list_elem_of_fmap. eauto. }
        exists f0, b0. split; [by left|]. do 2 (split; [done|]). split; [|done].
        pose proof (copy_loop_frame tgt l (<[tgt f0 := File b0]> st) (tgt f0) Hnin) as Hfr.
        rewrite Hrun in Hfr. simpl in Hfr. rewrite Hfr. apply lookup_insert_eq.
Qed.

Lemma string_app_inv_tail (s s' t : string) : s +:+ t = s' +:+ t → s = s'.
Proof.
  revert s'. induction s as [|a s IH]; intros [|a' s'] Heq; simpl in *.
  - done.
  - apply (f_equal String.length) in Heq. simpl in Heq.
    rewrite !StrFacts.length_app in Heq. simpl in Heq. lia.
  - apply (f_equal String.length) in Heq. simpl in Heq.
    rewrite !StrFacts.length_app in Heq. simpl in Heq. lia.
  - injection Heq as -> Heq. f_equal. by apply IH.
Qed.

Lemma bind_lift_ok {A B} (a : A) (k : A → M B) st : bind (lift (Ok a)) k st = k a st.
Proof. done. Qed.

Lemma valid_suffix_wmf : valid_suffix ".wmf" = true.
Proof. reflexivity. Qed.

(** The body of the loop of stage 1 on an entry of a directory: a copy to
    the staged path. *)
Lemma stage1_body self d n st :
  valid_name n = true →
  (let* renamed := lift (with_suffix (d ++ [n]) ".wmf") in
   let file_wmf := joinpath (wmf_folder self) (name renamed) in
   copyfile (d ++ [n]) file_wmf) st
  = copyfile (d ++ [n]) (staged_path self (d ++ [n])) st.
Proof.
  intros Hv. rewrite (with_suffix_child d n ".wmf" valid_suffix_wmf Hv), bind_lift_ok.
  assert (valid_name (stem (d ++ [n]) +:+ ".wmf") = true) as Hv'.
  { apply renamed_valid; [done|]. by rewrite name_child. }
  by rewrite name_child, joinpath_name.
Qed.

Lemma stage1_unfold self st v :
  st !! folder_input_path self = Some v →
  convert_emz_files_to_wmf self st
  = for_each (glob st (folder_input_path self) "emz")
      (λ f, copyfile f (staged_path self f)) st.
Proof.
  intros Hin. unfold convert_emz_files_to_wmf.
  erewrite bind_ok; [|by eapply find_files_exists].
  apply for_each_ext. intros f st' (_ & n & -> & Hv & _)%elem_of_glob.
  by apply stage1_body.
Qed.

Lemma staged_path_inj (self : EmzConverter) (f g : path) :
  staged_path self f = staged_path self g ↔ stem f = stem g.
Proof.
  unfold staged_path. split; [|by intros ->].
  intros [= Heq]%app_inv_head. by apply string_app_inv_tail in Heq.
Qed.

Lemma staged_path_not_source (self : EmzConverter) (st : store) (f g : path) :
  constructed self →
  f ∈ glob st (folder_input_path self) "emz" → f ≠ staged_path self g.
Proof.
  intros Hc%constructed_wmf_folder (_ & n & -> & _)%elem_of_glob.
  unfold staged_path. rewrite Hc, <- app_assoc. by intros [=]%app_inv_head.
Qed.

Lemma staged_path_parent (self : EmzConverter) (f : path) :
  name f ≠ "" → Str.contains sep (name f) = false →
  parent (staged_path self f) = wmf_folder self.
Proof.
  intros Hn Hs. unfold staged_path. apply parent_child.
  assert (3 ≤ String.length (stem f +:+ ".wmf"))%nat as Hlen.
  { rewrite StrFacts.length_app. simpl.
    pose proof (stem_nonempty f Hn). destruct (stem f); [done|simpl; lia]. }
  apply valid_name_spec. split_and!.
  - intros Hx. rewrite Hx in Hlen. simpl in Hlen. lia.
  - intros Hx. rewrite Hx in Hlen. simpl in Hlen. lia.
  - intros Hx. rewrite Hx in Hlen. simpl in Hlen. lia.
  - rewrite StrFacts.contains_app, (stem_no_sep f Hs). done.
Qed.

(** Stage 1 on a store where it cannot fail. *)
Lemma stage1_ok (self : EmzConverter) (st : store) :
  constructed self →
  is_Some (st !! folder_input_path self) →
  is_dir st (wmf_folder self) = true →
  (∀ f, f ∈ glob st (folder_input_path self) "emz" → ∃ b, st !! f = Some (File b)) →
  (∀ f, f ∈ glob st (folder_input_path self) "emz" → st !! staged_path self f ≠ Some Dir) →
  ∃ st1,
    convert_emz_files_to_wmf self st = (st1, Ok tt)
    ∧ (∀ p, p ∉ staged_path self <$> glob st (folder_input_path self) "emz" →
            st1 !! p = st !! p)
    ∧ ∀ f, f ∈ glob st (folder_input_path self) "emz" →
        ∃ g b, g ∈ glob st (folder_input_path self) "emz" ∧ stem g = stem f
               ∧ st !! g = Some (File b)
               ∧ st1 !! staged_path self f = Some (File b)
               ∧ ((∀ g', g' ∈ glob st (folder_input_path self) "emz" →
                         stem g' = stem f → g' = f) → g = f).
Proof.
  intros Hc [v Hin] Hd Hfiles Htgt.
  set (emz_files := glob st (folder_input_path self) "emz") in *.
  destruct (copy_loop_ok (staged_path self) st emz_files st) as (st1 & Hrun & Hres).
  - done.
  - intros f g Hf _. by apply (staged_path_not_source self st).
  - intros f Hf. unfold writable. apply andb_true_iff. split.
    + apply negb_true_iff. apply not_true_iff_false. rewrite is_dir_true. by apply Htgt.
    + apply elem_of_glob in Hf as (_ & n & -> & Hv & _).
      rewrite staged_path_parent; [done| |]; rewrite name_child by done;
        by apply valid_name_spec in Hv as (? & _ & _ & ?).
  - done.
  - exists st1. rewrite (stage1_unfold _ _ _ Hin). fold emz_files.
    split_and!; [done| |].
    + intros p Hp. pose proof (copy_loop_frame (staged_path self) emz_files st p Hp) as Hfr.
      by rewrite Hrun in Hfr.
    + intros f Hf. destruct (Hres f Hf) as (g & b & Hg & Hgt & Hgb & Hst1 & Hu).
      exists g, b. split_and!; try done; [by apply (staged_path_inj self)|].
      intros Huniq. apply Hu. intros g' Hg' Hgg'. apply Huniq; [done|].
      by apply (staged_path_inj self).
Qed.

(** C6, as the code has it: stage 1 leaves every path that is not a staged
    path as it was, whatever its outcome, so no source file is mutated or
    deleted; with no [.emz] entry it changes nothing and returns; when the
    staging directory exists, every [.emz] entry is a regular file and no
    directory sits at a staged path, it returns, and the staged path of each
    entry then holds, verbatim, the bytes of an entry with the same base
    name: the entry's own when no other entry has its base name. *)
Theorem C6_stage1_copies_under_base_name (self : EmzConverter) (st : store) :
  constructed self →
  is_Some (st !! folder_input_path self) →
  let emz_files := glob st (folder_input_path self) "emz" in
  let st' := (convert_emz_files_to_wmf self st).1 in
  (emz_files = [] → convert_emz_files_to_wmf self st = (st, Ok tt))
  ∧ (∀ p, p ∉ staged_path self <$> emz_files → st' !! p = st !! p)
  ∧ (∀ f, f ∈ emz_files → st' !! f = st !! f)
  ∧ (is_dir st (wmf_folder self) = true →
     (∀ f, f ∈ emz_files → ∃ b, st !! f = Some (File b)) →
     (∀ f, f ∈ emz_files → st !! staged_path self f ≠ Some Dir) →
     convert_emz_files_to_wmf self st = (st', Ok tt)
     ∧ ∀ f, f ∈ emz_files →
         ∃ g b, g ∈ emz_files ∧ stem g = stem f ∧ st !! g = Some (File b)
                ∧ st' !! staged_path self f = Some (File b)
                ∧ ((∀ g', g' ∈ emz_files → stem g' = stem f → g' = f) → g = f)).
Proof.
  intros Hc [v Hin] emz_files st'.
  assert (∀ p, p ∉ staged_path self <$> emz_files → st' !! p = st !! p) as Hframe.
  { intros p Hp. unfold st'. rewrite (stage1_unfold _ _ _ Hin).
    by apply copy_loop_frame. }
  split_and!; [| done | |].
  - intros Hnil. rewrite (stage1_unfold _ _ _ Hin). fold emz_files. by rewrite Hnil.
  - intros f Hf. apply Hframe. intros (g & Hg & _)%list_elem_of_fmap.
    by apply (staged_path_not_source self st f g).
  - intros Hd Hfiles Htgt.
    destruct (stage1_ok self st Hc (mk_is_Some _ _ Hin) Hd Hfiles Htgt)
      as (st1 & Hrun & _ & Hres).
    assert (st' = st1) as -> by (unfold st'; by rewrite Hrun).
    done.
Qed.


Lemma elem_of_two {A} (x a b : A) : x ∈ [a; b] → x = a ∨ x = b.
Proof.
  intros [->|Hx]%elem_of_cons; [by left|].
  apply elem_of_cons in Hx as [->|Hx]; [by right|]. by apply elem_of_nil in Hx.
Qed.

Lemma C6_stage1_copies_witness :
  (convert_emz_files_to_wmf example_self example_constructed).2 = Ok tt
  ∧ (convert_emz_files_to_wmf example_self example_constructed).1 !! ["in"; "a.emz"]
    = example_constructed !! ["in"; "a.emz"].
Proof.
  assert (constructed example_self) as Hc by reflexivity.
  assert (is_Some (example_constructed !! folder_input_path example_self)) as Hin
    by (vm_compute; eauto).
  assert (glob example_constructed (folder_input_path example_self) "emz"
          = [["in"; "corrupt.emz"]; ["in"; "a.emz"]]) as Hglob
    by (vm_compute; reflexivity).
  pose proof (C6_stage1_copies_under_base_name example_self example_constructed Hc Hin)
    as Hthm.
  cbv zeta in Hthm. rewrite Hglob in Hthm.
  destruct Hthm as (_ & _ & Hsrc & Hok).
  destruct Hok as [Hrun _].
  - vm_compute. reflexivity.
  - intros f [-> | ->]%elem_of_two; vm_compute; eexists; reflexivity.
  - intros f [-> | ->]%elem_of_two; vm_compute; discriminate.
  - split; [by rewrite Hrun|]. apply Hsrc. right. left.
Defined.

(** C6 as stated fails where two entries have one base name: with [.emz]
    and [.emz.emz] in the input directory, stage 1 returns and the one
    staged file [.emz.wmf] cannot hold the bytes of both. *)
Lemma C6_counterexample_same_base_name :
  let st := example_same_stem in
  let st' := (convert_emz_files_to_wmf example_self st).1 in
  (convert_emz_files_to_wmf example_self st).2 = Ok tt
  ∧ ¬ (∀ f b, f ∈ glob st (folder_input_path example_self) "emz" →
              st !! f = Some (File b) →
              st' !! staged_path example_self f = Some (File b)).
Proof.
  split; [vm_compute; reflexivity|]. intros Hall.
  assert (glob example_same_stem (folder_input_path example_self) "emz"
          = [["in"; ".emz"]; ["in"; ".emz.emz"]]) as Hglob
    by (vm_compute; reflexivity).
  rewrite Hglob in Hall.
  assert (example_same_stem !! ["in"; ".emz"] = Some (File [x01])) as E1
    by (vm_compute; reflexivity).
  assert (example_same_stem !! ["in"; ".emz.emz"] = Some (File [x02])) as E2
    by (vm_compute; reflexivity).
  assert (staged_path example_self ["in"; ".emz.emz"]
          = staged_path example_self ["in"; ".emz"]) as Hsame
    by (vm_compute; reflexivity).
  pose proof (Hall _ _ (list_elem_of_here _ _) E1) as H1.
  pose proof (Hall _ _ (list_elem_of_further _ _ _ (list_elem_of_here _ _)) E2) as H2.
  rewrite Hsame, H1 in H2. discriminate.
Qed.

(** ** Construction of the job *)

Lemma mkdir_existing_dir (st : store) p parents :
  is_dir st p = true → mkdir p parents true st = (st, Ok tt).
Proof.
  intros Hd. unfold mkdir. simpl. unfold os_mkdir.
  pose proof Hd as Hd'. apply is_dir_true in Hd' as ->. simpl. by rewrite Hd.
Qed.

Lemma mkdir_fresh (st : store) p parents exist_ok :
  st !! p = None → is_dir st (parent p) = true →
  mkdir p parents exist_ok st = (<[p := Dir]> st, Ok tt).
Proof.
  intros Hp Hd%is_dir_true. unfold mkdir. simpl. unfold os_mkdir. by rewrite Hp, Hd.
Qed.

Lemma is_dir_ensure_dir (st : store) p q :
  is_dir st q = true → is_dir (ensure_dir p st) q = true.
Proof.
  intros Hq. unfold ensure_dir. destruct (st !! p) eqn:E; [done|].
  unfold is_dir. destruct (decide (p = q)) as [->|Hne];
    [by rewrite lookup_insert_eq|by rewrite lookup_insert_ne].
Qed.

Lemma is_dir_ensure_dir_same (st : store) p :
  (∀ data, st !! p ≠ Some (File data)) → is_dir (ensure_dir p st) p = true.
Proof.
  intros Hp. unfold ensure_dir, is_dir. destruct (st !! p) as [[]|] eqn:E.
  - by destruct (Hp data).
  - by rewrite E.
  - by rewrite lookup_insert_eq.
Qed.

Lemma check_paths_ok (st : store) inp outp :
  is_Some (st !! Path inp) →
  is_Some (st !! Path (output_string inp outp))
  ∨ is_dir st (parent (Path (output_string inp outp))) = true →
  check_paths inp outp st
  = (ensure_dir (Path (output_string inp outp)) st,
     Ok (Path inp, Path (output_string inp outp))).
Proof.
  intros [v Hin] Hout. unfold check_paths.
  erewrite bind_ok; [|by eapply exists_true]. simpl.
  erewrite bind_ok; [|done]. fold (output_string inp outp).
  unfold ensure_dir.
  destruct (st !! Path (output_string inp outp)) as [w|] eqn:E.
  - erewrite bind_ok; [|by eapply exists_true]. simpl. by erewrite bind_ok.
  - erewrite bind_ok; [|by eapply exists_false]. simpl.
    destruct Hout as [[? [=]]|Hpar].
    erewrite bind_ok; [done|]. by apply mkdir_fresh.
Qed.

Lemma init_ok (st : store) inp outp ext :
  is_dir st (Path inp) = true →
  is_Some (st !! Path (output_string inp outp))
  ∨ is_dir st (parent (Path (output_string inp outp))) = true →
  (∀ data, st !! joinpath (Path inp) "wmf_files" ≠ Some (File data)) →
  __init__ inp outp ext st
  = (ensure_dir (joinpath (Path inp) "wmf_files")
       (ensure_dir (Path (output_string inp outp)) st),
     Ok (job inp outp ext)).
Proof.
  intros Hin Hout Hwmf. unfold __init__.
  erewrite bind_ok; [|apply check_paths_ok; [|done]]; cycle 1.
  { apply is_dir_true in Hin. by rewrite Hin. }
  simpl. set (st_a := ensure_dir (Path (output_string inp outp)) st).
  set (wmf := joinpath (Path inp) "wmf_files").
  assert (is_dir st_a (Path inp) = true) as Hin' by by apply is_dir_ensure_dir.
  assert (∀ data, st_a !! wmf ≠ Some (File data)) as Hwmf'.
  { intros data. unfold st_a, ensure_dir.
    destruct (st !! Path (output_string inp outp)); [apply Hwmf|].
    destruct (decide (Path (output_string inp outp) = wmf)) as [->|Hne];
      [by rewrite lookup_insert_eq|rewrite lookup_insert_ne by done; apply Hwmf]. }
  unfold ensure_dir at 1. destruct (st_a !! wmf) as [[data|]|] eqn:E.
  - by destruct (Hwmf' data).
  - erewrite bind_ok; [done|]. apply mkdir_existing_dir. unfold is_dir. by rewrite E.
  - erewrite bind_ok; [done|]. apply mkdir_fresh; [done|].
    unfold wmf. rewrite joinpath_wmf_files, parent_child; done.
Qed.

Lemma constructed_job inp outp ext : constructed (job inp outp ext).
Proof. done. Qed.

Section RunFacts.
Context `{Pillow}.

Lemma run_unfold (st : store) inp outp ext :
  is_dir st (Path inp) = true →
  is_Some (st !! Path (output_string inp outp))
  ∨ is_dir st (parent (Path (output_string inp outp))) = true →
  (∀ data, st !! joinpath (Path inp) "wmf_files" ≠ Some (File data)) →
  run inp outp ext st
  = convert (job inp outp ext)
      (ensure_dir (joinpath (Path inp) "wmf_files")
         (ensure_dir (Path (output_string inp outp)) st)).
Proof.
  intros Hin Hout Hwmf. unfold run. by erewrite bind_ok; [|by apply init_ok].
Qed.

End RunFacts.

(** ** More facts about names *)

Module NameFacts.

Lemma drop_app_length (s t : string) : Str.drop (String.length s) (s +:+ t) = t.
Proof. induction s as [|a s IH]; simpl; [by destruct t|done]. Qed.

Lemma take_app_length (s t : string) : Str.take (String.length s) (s +:+ t) = s.
Proof. induction s as [|a s IH]; simpl; [by destruct t|by rewrite IH]. Qed.

Lemma endswith_app (s t : string) : Str.endswith t (s +:+ t) = true.
Proof.
  unfold Str.endswith. rewrite StrFacts.length_app.
  apply andb_true_iff. split; [apply Nat.leb_le; lia|].
  replace (String.length s + String.length t - String.length t) with (String.length s) by lia.
  rewrite drop_app_length. apply String.eqb_refl.
Qed.

Lemma rfind_none c (s : string) : Str.contains c s = false → Str.rfind c s = (-1)%Z.
Proof.
  induction s as [|a s IH]; simpl; [done|].
  intros [Ha Hs]%orb_false_elim. rewrite (IH Hs). simpl. by rewrite Ha.
Qed.

Lemma rfind_app c (s e : string) :
  Str.contains c e = false →
  Str.rfind c (s +:+ String c e) = Z.of_nat (String.length s).
Proof.
  intros He. induction s as [|a s IH]; simpl.
  - rewrite (rfind_none c e He). simpl. by rewrite Ascii.eqb_refl.
  - rewrite IH. destruct (0 <=? Z.of_nat (String.length s))%Z eqn:E; [lia|].
    apply Z.leb_gt in E. lia.
Qed.

End NameFacts.

(** The base name of [s.e] is [s], for a name with non-empty [s] and a
    non-empty extension [e] that has no dot. *)
Lemma stem_dot d s e :
  valid_name (s +:+ "." +:+ e) = true → s ≠ "" → e ≠ "" → Str.contains "." e = false →
  stem (d ++ [s +:+ "." +:+ e]) = s.
Proof.
  intros Hv Hs He Hdot. unfold stem. rewrite name_child by done.
  change (s +:+ "." +:+ e) with (s +:+ String "." e).
  rewrite (NameFacts.rfind_app "." s e Hdot), StrFacts.length_app. simpl.
  assert ((0 <? Z.of_nat (String.length s))%Z
          && (Z.of_nat (String.length s)
              <? Z.of_nat (String.length s + S (String.length e)) - 1)%Z = true) as ->.
  { apply andb_true_iff. split; apply Z.ltb_lt.
    - destruct s; [done|simpl; lia].
    - destruct e; [done|simpl; lia]. }
  rewrite Nat2Z.id. apply NameFacts.take_app_length.
Qed.

Lemma fnmatch_star_dot_app suffix_ s : fnmatch_star_dot suffix_ (s +:+ "." +:+ suffix_) = true.
Proof. unfold fnmatch_star_dot. apply NameFacts.endswith_app. Qed.

(** ** The loop of stage 2 as a sequence of writes *)

Lemma lookup_apply_writes_frame (ws : list (path * list byte)) (st : store) (p : path) :
  p ∉ ws.*1 → apply_writes ws st !! p = st !! p.
Proof.
  revert st. induction ws as [|[t d] ws IH]; intros st Hp; simpl; [done|].
  rewrite fmap_cons, not_elem_of_cons in Hp. destruct Hp as [Hne Hp].
  unfold apply_writes in *. simpl. rewrite IH by done. by rewrite lookup_insert_ne.
Qed.

Lemma lookup_apply_writes_file (ws : list (path * list byte)) (st : store) (t : path) d :
  (t, d) ∈ ws → ∃ d', (t, d') ∈ ws ∧ apply_writes ws st !! t = Some (File d').
Proof.
  revert st d. induction ws as [|[t0 d0] ws IH]; intros st d Hin;
    [by apply elem_of_nil in Hin|].
  destruct (decide (t ∈ ws.*1)) as [Ht|Ht].
  - apply list_elem_of_fmap in Ht as ([t' d'] & Heq & Hin'). simpl in Heq. subst t'.
    destruct (IH (<[t0 := File d0]> st) d' Hin') as (d'' & Hd'' & Hl).
    exists d''. split; [by right|done].
  - apply elem_of_cons in Hin as [[= <- <-]|Hin].
    + exists d. split; [by left|].
      unfold apply_writes. simpl. fold (apply_writes ws (<[t := File d]> st)).
      rewrite lookup_apply_writes_frame by done. apply lookup_insert_eq.
    + exfalso. apply Ht. apply list_elem_of_fmap. by exists (t, d).
Qed.

Lemma lookup_apply_writes_unique (ws : list (path * list byte)) (st : store) (t : path) d :
  (t, d) ∈ ws → (∀ d', (t, d') ∈ ws → d' = d) →
  apply_writes ws st !! t = Some (File d).
Proof.
  intros Hin Hu. destruct (lookup_apply_writes_file ws st t d Hin) as (d' & Hd' & ->).
  by rewrite (Hu d' Hd').
Qed.

Section LoopSpecFacts.
Context `{Pillow}.

Lemma outcome_stable (self : EmzConverter) (st cur : store) f :
  (∀ p, is_dir cur p = is_dir st p) → cur !! f = st !! f →
  outcome self cur f = outcome self st f.
Proof.
  intros Hd Hf. unfold outcome, writable. rewrite Hf.
  destruct (st !! f) as [[b|]|]; try done.
  destruct (Image_decode b); [|done]. destruct (with_suffix _ _); [|done]. simpl.
  by rewrite !Hd.
Qed.

(** When no file of the listing is overwritten by the loop, the loop does
    to each file what its body does to it in the store the loop starts
    from. *)
Lemma convert_loop_spec (self : EmzConverter) (st : store) files cur errors_ :
  (∀ p, is_dir cur p = is_dir st p) →
  (∀ f, f ∈ files → cur !! f = st !! f) →
  (∀ f g t d, f ∈ files → g ∈ files → outcome self st g = Some (t, d) → t ≠ f) →
  convert_loop self files errors_ cur
  = (apply_writes (writes self st files) cur, Ok (errors_ ++ failures self st files)).
Proof.
  revert cur errors_. induction files as [|f files IH]; intros cur errors_ Hd Hf Hdisj.
  - simpl. unfold ret, failures. by rewrite filter_nil, app_nil_r.
  - rewrite convert_loop_cons.
    assert (outcome self cur f = outcome self st f) as Hsame
      by (apply outcome_stable; [done|apply Hf; by left]).
    pose proof (try_convert_store self cur f) as Hstep.
    destruct (try_convert self f cur) as [cur' [[]|e]].
    + destruct Hstep as (t & d & Ho & ->). pose proof Ho as Ho'. rewrite Hsame in Ho'.
      rewrite IH.
      * unfold writes, failures. simpl. rewrite Ho'. simpl.
        rewrite filter_cons_False; [done|]. by rewrite Ho'.
      * intros p. apply outcome_writable in Ho.
        apply andb_true_iff in Ho as [Ho%negb_true_iff _]. rewrite <- Hd.
        unfold is_dir in *. destruct (decide (t = p)) as [->|Hne];
          [rewrite lookup_insert_eq; by destruct (cur !! p) as [[]|]
          |by rewrite lookup_insert_ne].
      * intros g Hg. rewrite lookup_insert_ne; [apply Hf; by right|].
        apply (Hdisj g f t d); [by right|by left|done].
      * intros g g' t' d' Hg Hg'. apply Hdisj; by right.
    + destruct Hstep as [Ho ->]. rewrite Hsame in Ho. rewrite IH.
      * unfold writes, failures. simpl. rewrite Ho.
        rewrite filter_cons_True by done. by rewrite <- app_assoc.
      * done.
      * intros g Hg. apply Hf. by right.
      * intros g g' t' d' Hg Hg'. apply Hdisj; by right.
Qed.

Lemma elem_of_writes (self : EmzConverter) (st : store) files t d :
  (t, d) ∈ writes self st files ↔ ∃ f, f ∈ files ∧ outcome self st f = Some (t, d).
Proof. unfold writes. apply list_elem_of_omap. Qed.

Lemma elem_of_failures (self : EmzConverter) (st : store) files f :
  f ∈ failures self st files ↔ outcome self st f = None ∧ f ∈ files.
Proof. unfold failures. by rewrite list_elem_of_filter. Qed.

Lemma rendered_name (ext : string) (f : path) b n' d :
  rendered ext f b = Some (n', d) → n' = stem f +:+ "." +:+ ext.
Proof.
  unfold rendered. destruct (Image_decode b); [|done].
  destruct (valid_suffix _); [|done]. destruct (Image_encode _ _); [|done].
  by intros [= <- _].
Qed.

End LoopSpecFacts.

Lemma with_suffix_dot_invalid p ext :
  valid_suffix ("." +:+ ext) = false → ∃ e, with_suffix p ("." +:+ ext) = Raise e.
Proof.
  rewrite valid_suffix_dot. unfold with_suffix.
  change (Str.contains sep ("." +:+ ext)) with (Str.contains sep ext).
  destruct (Str.contains sep ext); [eauto|]. simpl.
  intros Hext%negb_false_iff. apply String.eqb_eq in Hext as ->. simpl. eauto.
Qed.

(** ** A run on a freshly constructed job *)

Lemma prefix_snoc_inv {A} (l k : list A) x :
  l `prefix_of` k ++ [x] → l `prefix_of` k ∨ l = k ++ [x].
Proof.
  intros [r Hr]. destruct r as [|y r _] using rev_ind.
  - right. by rewrite app_nil_r in Hr.
  - left. rewrite app_assoc in Hr. apply app_inj_tail in Hr as [-> _]. by exists r.
Qed.

Lemma list_nil_iff {A} (l : list A) : l = [] ↔ ∀ x, x ∉ l.
Proof.
  split; [intros -> x; apply not_elem_of_nil|].
  intros Hl. destruct l as [|x l]; [done|]. exfalso. apply (Hl x). left.
Qed.

Lemma staged_name_valid (f : path) :
  valid_name (name f) = true → valid_name (stem f +:+ ".wmf") = true.
Proof. intros Hv. by apply renamed_valid. Qed.

Lemma emz_entry_name (st : store) d f :
  f ∈ glob st d "emz" → valid_name (name f) = true.
Proof. intros (_ & n & -> & Hv & _)%elem_of_glob. by rewrite name_child. Qed.

Lemma stem_staged (self : EmzConverter) (f : path) :
  valid_name (name f) = true → stem (staged_path self f) = stem f.
Proof.
  intros Hv. unfold staged_path.
  apply (stem_dot (wmf_folder self) (stem f) "wmf"); [|apply stem_nonempty|done|done].
  - by apply staged_name_valid.
  - by apply valid_name_spec in Hv as (? & _).
Qed.

Section ConvertSpec.
Context `{Pillow}.
Variables (self : EmzConverter) (st : store).

Let input := folder_input_path self.
Let out := folder_output_path self.
Let wmf := wmf_folder self.
Let ext := output_type self.
Let emz_files := glob st input "emz".

Hypothesis Hc : constructed self.
Hypothesis Hin : is_dir st input = true.
Hypothesis Hwmf : is_dir st wmf = true.
Hypothesis Hout : is_dir st out = true.
Hypothesis Hleft : glob st wmf "wmf" = [].
Hypothesis Hfiles : ∀ f, f ∈ emz_files → ∃ b, st !! f = Some (File b).
Hypothesis Hsep : ¬ wmf `prefix_of` out.
Hypothesis Huniq : ∀ f g, f ∈ emz_files → g ∈ emz_files → stem f = stem g → f = g.
Hypothesis Hclear :
  ∀ f, f ∈ emz_files → st !! (out ++ [stem f +:+ "." +:+ ext]) ≠ Some Dir.

Lemma staged_absent f : f ∈ emz_files → st !! staged_path self f = None.
Proof.
  intros Hf. destruct (st !! staged_path self f) as [v|] eqn:E; [|done].
  exfalso. apply (proj1 (glob_nil_iff st wmf "wmf") Hleft (staged_path self f)).
  apply elem_of_glob. split; [done|]. exists (stem f +:+ ".wmf").
  split_and!; [done| | |by rewrite E].
  - apply staged_name_valid. by apply (emz_entry_name st input).
  - apply (fnmatch_star_dot_app "wmf").
Qed.

Lemma out_not_staged n f : out ++ [n] ≠ staged_path self f.
Proof.
  unfold staged_path. intros [Heq _]%app_inj_tail. apply Hsep. fold wmf in Heq.
  by rewrite Heq.
Qed.

Lemma out_not_under_wmf g :
  valid_name (name g) = true → ¬ wmf `prefix_of` out ++ [stem g +:+ "." +:+ ext].
Proof.
  intros Hv [Hp|Heq]%prefix_snoc_inv; [done|].
  unfold wmf in Heq. rewrite (constructed_wmf_folder self Hc) in Heq.
  apply app_inj_tail in Heq as [_ Heq].
  apply (f_equal (Str.contains ".")) in Heq.
  rewrite !StrFacts.contains_app in Heq. simpl in Heq.
  rewrite orb_true_r in Heq. discriminate.
Qed.

(** After stage 1 the staging directory holds one file per input file. *)
Lemma stage1_result :
  ∃ st1,
    convert_emz_files_to_wmf self st = (st1, Ok tt)
    ∧ (∀ p, ¬ wmf `prefix_of` p → st1 !! p = st !! p)
    ∧ st1 !! wmf = Some Dir
    ∧ (∀ f b, f ∈ emz_files → st !! f = Some (File b) →
              st1 !! staged_path self f = Some (File b))
    ∧ (∀ f', f' ∈ glob st1 wmf "wmf" ↔ ∃ f, f ∈ emz_files ∧ f' = staged_path self f).
Proof.
  destruct (stage1_ok self st Hc) as (st1 & Hrun & Hframe & Hres); try done.
  { apply is_dir_true in Hin. unfold input in Hin. by rewrite Hin. }
  { intros f Hf. by rewrite (staged_absent f Hf). }
  fold input emz_files in Hframe, Hres.
  assert (∀ p, ¬ wmf `prefix_of` p → st1 !! p = st !! p) as Hframe'.
  { intros p Hp. apply Hframe. intros (f & -> & _)%list_elem_of_fmap.
    apply Hp. unfold staged_path. by apply prefix_app_r. }
  assert (st1 !! wmf = Some Dir) as Hwmf1.
  { rewrite Hframe; [by apply is_dir_true|].
    intros (f & Heq & _)%list_elem_of_fmap. unfold staged_path in Heq. fold wmf in Heq.
    apply (f_equal length) in Heq. rewrite length_app in Heq. simpl in Heq. lia. }
  assert (∀ f b, f ∈ emz_files → st !! f = Some (File b) →
                 st1 !! staged_path self f = Some (File b)) as Hstaged.
  { intros f b Hf Hb. destruct (Hres f Hf) as (g & b' & Hg & Hgf & Hgb & Hst1 & Hu).
    assert (g = f) as -> by (apply Hu; intros g' Hg' Hs; by apply Huniq).
    congruence. }
  exists st1. split_and!; try done.
  intros f'. split.
  - intros (_ & n & -> & Hv & Hm & Hs)%elem_of_glob.
    destruct (decide (wmf ++ [n] ∈ staged_path self <$> emz_files)) as [Hi|Hni].
    + apply list_elem_of_fmap in Hi as (f & Hf & Hfin). by exists f.
    + exfalso. rewrite (Hframe _ Hni) in Hs.
      apply (proj1 (glob_nil_iff st wmf "wmf") Hleft (wmf ++ [n])).
      apply elem_of_glob. split; [done|]. by exists n.
  - intros (f & Hf & ->). apply elem_of_glob. split; [by apply is_dir_true|].
    exists (stem f +:+ ".wmf"). split_and!; [done| | |].
    + apply staged_name_valid. by apply (emz_entry_name st input).
    + apply (fnmatch_star_dot_app "wmf").
    + destruct (Hfiles f Hf) as [b Hb]. by rewrite (Hstaged f b Hf Hb).
Qed.


(** What the body of the loop of stage 2 does to a staged file, in terms
    of the input file it is the copy of. *)
Lemma outcome_staged (st1 : store) f b :
  (∀ p, ¬ wmf `prefix_of` p → st1 !! p = st !! p) →
  f ∈ emz_files →
  st1 !! staged_path self f = Some (File b) →
  outcome self st1 (staged_path self f)
  = (λ nd, (out ++ [nd.1], nd.2)) <$> rendered ext f b.
Proof.
  intros Hfr Hf Hst1. pose proof (emz_entry_name st input f Hf) as Hv.
  unfold outcome, rendered. rewrite Hst1. fold ext.
  destruct (Image_decode b) as [image_|]; [|done].
  destruct (valid_suffix ("." +:+ ext)) eqn:Hvs.
  - assert (valid_name (stem f +:+ "." +:+ ext) = true) as Hv' by by apply renamed_valid.
    unfold staged_path at 1.
    rewrite (with_suffix_child _ _ _ Hvs (staged_name_valid f Hv)).
    fold (staged_path self f). rewrite (stem_staged self f Hv). simpl.
    rewrite (name_child _ _ Hv'). fold out. rewrite (joinpath_name _ _ Hv').
    rewrite (name_child _ _ Hv').
    destruct (Image_encode _ image_) as [data|]; [|done].
    assert (writable st1 (out ++ [stem f +:+ "." +:+ ext]) = true) as ->; [|done].
    unfold writable, is_dir. rewrite (parent_child _ _ Hv').
    rewrite !Hfr; [|done|by apply out_not_under_wmf].
    apply is_dir_true in Hout as ->. rewrite andb_true_r.
    pose proof (Hclear f Hf) as Hcl. by destruct (st !! _) as [[]|].
  - destruct (with_suffix_dot_invalid (staged_path self f) ext Hvs) as [e ->]. done.
Qed.

(** The whole of [convert]: the store [st3] after the loop and the removal
    of the staging directory, and the failure sequence. *)
Lemma convert_result :
  ∃ st3 errors_,
    convert self st
    = (if (0 <? length errors_)%nat
       then pd.to_csv {| pd.data := errors_; pd.columns := ["file_names"] |} csv_file ;;
            raise (Exception batch_message)
       else ret tt) st3
    ∧ (errors_ = [] ↔
       ∀ f b, f ∈ emz_files → st !! f = Some (File b) → is_Some (rendered ext f b))
    ∧ (∀ f b n' d, f ∈ emz_files → st !! f = Some (File b) →
                   rendered ext f b = Some (n', d) →
                   st3 !! (out ++ [n']) = Some (File d))
    ∧ (∀ p, (∀ f b n' d, f ∈ emz_files → st !! f = Some (File b) →
                         rendered ext f b = Some (n', d) → p ≠ out ++ [n']) →
            st3 !! p = if decide (wmf `prefix_of` p) then None else st !! p).
Proof.
  destruct stage1_result as (st1 & Hrun1 & Hfr & Hwmf1 & Hstaged & Hglob).
  set (files := glob st1 wmf "wmf").
  assert (∀ f', f' ∈ files → ∃ f b, f ∈ emz_files ∧ f' = staged_path self f
            ∧ st !! f = Some (File b)
            ∧ outcome self st1 f' = (λ nd, (out ++ [nd.1], nd.2)) <$> rendered ext f b)
    as Hfile.
  { intros f' (f & Hf & ->)%Hglob. destruct (Hfiles f Hf) as [b Hb].
    exists f, b. split_and!; try done. apply outcome_staged; [done..|by apply Hstaged]. }
  assert (∀ f b, f ∈ emz_files → st !! f = Some (File b) →
            staged_path self f ∈ files
            ∧ outcome self st1 (staged_path self f)
              = (λ nd, (out ++ [nd.1], nd.2)) <$> rendered ext f b) as Hemz.
  { intros f b Hf Hb. split; [apply Hglob; by exists f|].
    apply outcome_staged; [done..|by apply Hstaged]. }
  assert (convert_loop self files [] st1
          = (apply_writes (writes self st1 files) st1, Ok ([] ++ failures self st1 files)))
    as Hloop.
  { apply convert_loop_spec; [done..|].
    intros f' g' t d Hf' Hg' Ho.
    destruct (Hfile g' Hg') as (g & bg & Hg & -> & Hbg & Hog).
    rewrite Hog in Ho. destruct (rendered ext g bg) as [[n' d']|]; [|done].
    simpl in Ho. injection Ho as <- <-.
    apply Hglob in Hf' as (f & Hf & ->). apply out_not_staged. }
  simpl in Hloop.
  exists (filter (λ kv : path * node, ¬ wmf `prefix_of` kv.1)
            (apply_writes (writes self st1 files) st1)), (failures self st1 files).
  split_and!.
  - unfold convert. erewrite bind_ok; [|done].
    apply stage2_unfold; [by apply is_dir_true|done].
  - rewrite list_nil_iff. split.
    + intros Hnone f b Hf Hb. destruct (Hemz f b Hf Hb) as [Hin' Ho].
      destruct (rendered ext f b) as [nd|] eqn:E; [done|].
      exfalso. apply (Hnone (staged_path self f)). by apply elem_of_failures.
    + intros Hall f' [Ho Hf']%elem_of_failures.
      destruct (Hfile f' Hf') as (f & b & Hf & -> & Hb & Hof).
      rewrite Hof in Ho. destruct (Hall f b Hf Hb) as [nd Hnd]. by rewrite Hnd in Ho.
  - intros f b n' d Hf Hb Hr. rewrite lookup_rmtree.
    pose proof (rendered_name _ _ _ _ _ Hr) as ->.
    rewrite decide_False
      by (apply out_not_under_wmf; by apply (emz_entry_name st input)).
    destruct (Hemz f b Hf Hb) as [Hin' Ho]. rewrite Hr in Ho. simpl in Ho.
    apply lookup_apply_writes_unique.
    + apply elem_of_writes. by exists (staged_path self f).
    + intros d' (g' & Hg' & Hog')%elem_of_writes.
      destruct (Hfile g' Hg') as (g & bg & Hg & -> & Hbg & Hog).
      rewrite Hog in Hog'. destruct (rendered ext g bg) as [[n'' d'']|] eqn:E; [|done].
      simpl in Hog'. injection Hog' as Hn <-.
      apply app_inj_tail in Hn as [_ Hn].
      pose proof (rendered_name _ _ _ _ _ E) as ->.
      apply string_app_inv_tail in Hn.
      assert (g = f) as -> by by apply Huniq.
      congruence.
  - intros p Hp. rewrite lookup_rmtree. case_decide as Hpre; [done|].
    rewrite lookup_apply_writes_frame; [by apply Hfr|].
    intros ([t d] & -> & (g' & Hg' & Hog')%elem_of_writes)%list_elem_of_fmap.
    destruct (Hfile g' Hg') as (g & bg & Hg & -> & Hbg & Hog).
    rewrite Hog in Hog'. destruct (rendered ext g bg) as [[n'' d'']|] eqn:E; [|done].
    simpl in Hog'. injection Hog' as <- <-. by apply (Hp g bg n'' d'').
Qed.

End ConvertSpec.

Lemma lookup_ensure_dir (st : store) (q p : path) :
  ensure_dir q st !! p
  = if decide (p = q) then Some (default Dir (st !! q)) else st !! p.
Proof.
  unfold ensure_dir. case_decide as Hpq; [subst p|].
  - destruct (st !! q) as [v|] eqn:E; [by rewrite E|by rewrite lookup_insert_eq].
  - destruct (st !! q) as [v|] eqn:E; [done|]. by rewrite lookup_insert_ne.
Qed.

Lemma lookup_ensure_dir_Some (st : store) (q p : path) v :
  st !! p = Some v → ensure_dir q st !! p = Some v.
Proof.
  intros Hp. rewrite lookup_ensure_dir. case_decide as Hpq; [subst p|done].
  by rewrite Hp.
Qed.

Lemma elem_of_glob_ensure_dir (st : store) (q d : path) suffix_ f :
  is_dir st d = true →
  (∀ n, q = d ++ [n] → fnmatch_star_dot suffix_ n = false) →
  f ∈ glob (ensure_dir q st) d suffix_ ↔ f ∈ glob st d suffix_.
Proof.
  intros Hd Hq. rewrite !elem_of_glob. rewrite (is_dir_ensure_dir st q d Hd), Hd.
  split; intros (_ & n & -> & Hv & Hm & Hs); (split; [done|]); exists n;
    split_and!; try done.
  - rewrite lookup_ensure_dir in Hs. case_decide as Heq; [|done].
    rewrite (Hq n) in Hm; done.
  - destruct Hs as [v Hs]. by rewrite (lookup_ensure_dir_Some _ _ _ _ Hs).
Qed.

Lemma ensure_dir_id (st : store) (q : path) : is_Some (st !! q) → ensure_dir q st = st.
Proof. intros [v Hv]. unfold ensure_dir. by rewrite Hv. Qed.

Lemma dot_name_not_wmf_files (s e : string) : s +:+ "." +:+ e ≠ "wmf_files".
Proof.
  intros Heq. apply (f_equal (Str.contains ".")) in Heq.
  rewrite !StrFacts.contains_app in Heq. simpl in Heq.
  rewrite orb_true_r in Heq. discriminate.
Qed.

Section RunSpec.
Context `{Pillow}.
Variables (inp : string) (outp : option string) (ext : string) (st : store).

Let input := Path inp.
Let out := Path (output_string inp outp).
Let wmf := joinpath input "wmf_files".
Let emz_files := glob st input "emz".

Hypothesis Hin : is_dir st input = true.
Hypothesis Hout : output_ready st input out.
Hypothesis Hwmf : ∀ data, st !! wmf ≠ Some (File data).
Hypothesis Hleft : ∀ n, fnmatch_star_dot "wmf" n = true → st !! (wmf ++ [n]) = None.
Hypothesis Hfiles : ∀ f, f ∈ emz_files → ∃ b, st !! f = Some (File b).
Hypothesis Hsep : ¬ wmf `prefix_of` out.
Hypothesis Huniq : ∀ f g, f ∈ emz_files → g ∈ emz_files → stem f = stem g → f = g.
Hypothesis Hclear :
  ∀ f, f ∈ emz_files → st !! (out ++ [stem f +:+ "." +:+ ext]) ≠ Some Dir.

Let st_i := ensure_dir wmf (ensure_dir out st).

Lemma wmf_eq : wmf = input ++ ["wmf_files"].
Proof. unfold wmf. apply joinpath_wmf_files. Qed.

Lemma output_ready_some : is_Some (st !! out) ∨ is_dir st (parent out) = true.
Proof.
  destruct Hout as [Hd%is_dir_true|(_ & Hp & _)]; [left; by rewrite Hd|by right].
Qed.

Lemma constructed_emz f : f ∈ glob st_i input "emz" ↔ f ∈ emz_files.
Proof.
  unfold st_i. rewrite elem_of_glob_ensure_dir.
  - destruct Hout as [Hd%is_dir_true|(_ & _ & Hm)].
    + by rewrite (ensure_dir_id _ _ (mk_is_Some _ _ Hd)).
    + by apply elem_of_glob_ensure_dir.
  - by apply is_dir_ensure_dir.
  - rewrite wmf_eq. by intros n [= <-]%app_inv_head.
Qed.

Lemma constructed_lookup p v : st !! p = Some v → st_i !! p = Some v.
Proof. intros Hp. unfold st_i. by do 2 apply lookup_ensure_dir_Some. Qed.

Lemma constructed_out : is_dir st_i out = true.
Proof.
  unfold st_i. apply is_dir_ensure_dir. apply is_dir_ensure_dir_same.
  intros data Hd. destruct Hout as [Hd'%is_dir_true|(Hn & _)]; congruence.
Qed.

Lemma constructed_wmf : is_dir st_i wmf = true.
Proof.
  unfold st_i. apply is_dir_ensure_dir_same. intros data.
  rewrite lookup_ensure_dir. case_decide as Heq; [|apply Hwmf].
  destruct (st !! out) as [[data'|]|] eqn:E; simpl; try done.
  rewrite <- Heq in E. by destruct (Hwmf data').
Qed.

Lemma constructed_other p : p ≠ out → p ≠ wmf → st_i !! p = st !! p.
Proof.
  intros Ho Hw. unfold st_i. rewrite !lookup_ensure_dir.
  by rewrite !decide_False.
Qed.

Lemma constructed_no_staged_wmf : glob st_i wmf "wmf" = [].
Proof.
  apply glob_nil_iff. intros f (_ & n & -> & Hv & Hm & [v Hs])%elem_of_glob.
  rewrite constructed_other in Hs.
  - by rewrite (Hleft n Hm) in Hs.
  - intros Heq. apply Hsep. rewrite <- Heq. by apply prefix_app_r.
  - intros Heq. apply (f_equal length) in Heq. rewrite length_app in Heq.
    simpl in Heq. lia.
Qed.

Lemma constructed_clear f :
  f ∈ emz_files → st_i !! (out ++ [stem f +:+ "." +:+ ext]) ≠ Some Dir.
Proof.
  intros Hf. rewrite constructed_other; [by apply Hclear| |].
  - intros Heq. apply (f_equal length) in Heq. rewrite length_app in Heq.
    simpl in Heq. lia.
  - rewrite wmf_eq. intros [_ Heq]%app_inj_tail. by apply dot_name_not_wmf_files in Heq.
Qed.

(** The whole of [run], on a store without staged leftovers: the store
    [st3] after the loop and the removal of the staging directory, and the
    failure sequence. *)
Lemma run_result :
  ∃ st3 errors_,
    run inp outp ext st
    = (if (0 <? length errors_)%nat
       then pd.to_csv {| pd.data := errors_; pd.columns := ["file_names"] |} csv_file ;;
            raise (Exception batch_message)
       else ret tt) st3
    ∧ (errors_ = [] ↔
       ∀ f b, f ∈ emz_files → st !! f = Some (File b) → is_Some (rendered ext f b))
    ∧ (∀ f b n' d, f ∈ emz_files → st !! f = Some (File b) →
                   rendered ext f b = Some (n', d) →
                   st3 !! (out ++ [n']) = Some (File d))
    ∧ (∀ p, (∀ f b n' d, f ∈ emz_files → st !! f = Some (File b) →
                         rendered ext f b = Some (n', d) → p ≠ out ++ [n']) →
            st3 !! p
            = if decide (wmf `prefix_of` p) then None else ensure_dir out st !! p).
Proof.
  rewrite (run_unfold st inp outp ext Hin output_ready_some Hwmf). fold st_i.
  destruct (convert_result (job inp outp ext) st_i) as (st3 & errors_ & Hrun & He & Hw & Hfr).
  - apply constructed_job.
  - unfold st_i. by do 2 apply is_dir_ensure_dir.
  - apply constructed_wmf.
  - apply constructed_out.
  - apply constructed_no_staged_wmf.
  - intros f Hf%constructed_emz. destruct (Hfiles f Hf) as [b Hb].
    exists b. by apply constructed_lookup.
  - done.
  - intros f g Hf%constructed_emz Hg%constructed_emz. by apply Huniq.
  - intros f Hf%constructed_emz. by apply constructed_clear.
  - simpl in *. fold input out wmf in Hrun, He, Hw, Hfr.
    exists st3, errors_. split_and!; [done| | |].
    + rewrite He. split.
      * intros Hall f b Hf Hb. apply Hall; [by apply constructed_emz|].
        by apply constructed_lookup.
      * intros Hall f b Hf%constructed_emz Hb. destruct (Hfiles f Hf) as [b' Hb'].
        rewrite (constructed_lookup _ _ Hb') in Hb. injection Hb as <-. by apply Hall.
    + intros f b n' d Hf Hb Hr. apply (Hw f b); [by apply constructed_emz| |done].
      by apply constructed_lookup.
    + intros p Hp. rewrite Hfr.
      * case_decide as Hpre; [done|]. unfold st_i. rewrite lookup_ensure_dir.
        rewrite decide_False; [done|]. by intros ->.
      * intros f b n' d Hf'%constructed_emz Hb Hr. destruct (Hfiles f Hf') as [b' Hb'].
        rewrite (constructed_lookup _ _ Hb') in Hb. injection Hb as <-.
        by apply (Hp f b' n' d).
Qed.

End RunSpec.

(** ** The full run *)

(** The last step of stage 2 touches the report path only, and makes or
    removes no directory. *)
Lemma report_step (errors_ : list path) (st3 : store) :
  let res := (if (0 <? length errors_)%nat
              then pd.to_csv {| pd.data := errors_; pd.columns := ["file_names"] |} csv_file ;;
                   raise (Exception batch_message)
              else ret tt) st3 in
  (∀ p, p ≠ report_path → res.1 !! p = st3 !! p)
  ∧ (∀ p, res.1 !! p = Some Dir ↔ st3 !! p = Some Dir)
  ∧ (errors_ = [] → res = (st3, Ok tt)).
Proof.
  destruct errors_ as [|f errors_]; simpl; [done|].
  unfold pd.to_csv, bind, write_bytes. fold report_path.
  destruct (st3 !! report_path) as [[]|] eqn:E, (st3 !! parent report_path) as [[]|];
    simpl; split_and!; try done.
  all: try (intros p Hp; by rewrite lookup_insert_ne).
  all: intros p; destruct (decide (report_path = p)) as [<-|Hne];
    [rewrite lookup_insert_eq, E; by split|by rewrite lookup_insert_ne].
Qed.

Section FullRun.
Context `{Pillow}.


End FullRun.

Lemma example_valid_emz :
  glob example_valid (Path "in") "emz" = [["in"; "b.emz"]; ["in"; "a.emz"]].
Proof. vm_compute. reflexivity. Qed.



(** ** Leftovers in the staging directory *)

Lemma snoc_neq {A} (l : list A) x : l ++ [x] ≠ l.
Proof.
  intros Heq. apply (f_equal length) in Heq. rewrite length_app in Heq.
  simpl in Heq. lia.
Qed.

Section Leftovers.
Context `{Pillow}.

(** Every file of the listing ends up in the failure sequence or with its
    output file written. *)
Lemma convert_loop_each (self : EmzConverter) (files errors_ : list path)
    (st st' : store) (errors' : list path) (f : path) :
  convert_loop self files errors_ st = (st', Ok errors') →
  f ∈ files →
  f ∈ errors'
  ∨ ∃ renamed data,
      with_suffix f ("." +:+ output_type self) = Ok renamed
      ∧ st' !! joinpath (folder_output_path self) (name renamed) = Some (File data).
Proof.
  revert errors_ st. induction files as [|f0 files IH]; intros errors_ st Hloop Hf;
    [by apply elem_of_nil in Hf|].
  rewrite convert_loop_cons in Hloop.
  pose proof (try_convert_store self st f0) as Hstep.
  destruct (try_convert self f0 st) as [st1 [[]|e]].
  - apply elem_of_cons in Hf as [->|Hf]; [|by apply (IH _ _ Hloop)].
    right. destruct Hstep as (t & d & Ho & ->).
    destruct (outcome_path _ _ _ _ _ Ho) as (renamed & Hren & ->).
    destruct (convert_loop_preserves _ _ _ _ _ _ Hloop) as (_ & Hfile & _).
    destruct (Hfile (joinpath (folder_output_path self) (name renamed)) d) as [d' Hd'];
      [apply lookup_insert_eq|].
    by exists renamed, d'.
  - apply elem_of_cons in Hf as [->|Hf]; [|by apply (IH _ _ Hloop)].
    left. destruct (convert_loop_preserves _ _ _ _ _ _ Hloop) as (_ & _ & _ & [k ->]).
    rewrite !elem_of_app. left. right. by left.
Qed.


End Leftovers.

Lemma example_leftover_emz :
  glob example_leftover (Path "in") "emz" = [["in"; "a.emz"]].
Proof. vm_compute. reflexivity. Qed.

Lemma elem_of_one {A} (x a : A) : x ∈ [a] → x = a.
Proof. intros [->|Hx]%elem_of_cons; [done|]. by apply elem_of_nil in Hx. Qed.


(** ** Running the pipeline twice *)

Lemma lookup_empty_dir (st : store) (d p : path) :
  empty_dir d st !! p = if decide (d `prefix_of` p ∧ p ≠ d) then None else st !! p.
Proof.
  unfold empty_dir. case_decide as Hp.
  - apply map_lookup_filter_None. right. intros v _ Hn. by apply Hn.
  - destruct (st !! p) as [v|] eqn:E.
    + by apply map_lookup_filter_Some.
    + apply map_lookup_filter_None. by left.
Qed.

Lemma report_name_not_emz : fnmatch_star_dot "emz" "unsuccessful_conversions.csv" = false.
Proof. reflexivity. Qed.

Lemma wmf_files_not_emz : fnmatch_star_dot "emz" "wmf_files" = false.
Proof. reflexivity. Qed.

Section Rerun.
Context `{Pillow}.
Variables (inp : string) (outp : option string) (ext : string) (st0 : store).

Let input := Path inp.
Let out := Path (output_string inp outp).
Let wmf := joinpath input "wmf_files".
Let emz_files := glob st0 input "emz".
Let target := λ f : path, out ++ [stem f +:+ "." +:+ ext].

Hypothesis Hin : is_dir st0 input = true.
Hypothesis Hout : is_dir st0 out = true.
Hypothesis Hempty : ∀ p, out `prefix_of` p → p ≠ out → st0 !! p = None.
Hypothesis Hwmf : ∀ data, st0 !! wmf ≠ Some (File data).
Hypothesis Hleft : ∀ n, fnmatch_star_dot "wmf" n = true → st0 !! (wmf ++ [n]) = None.
Hypothesis Hfiles : ∀ f, f ∈ emz_files → ∃ b, st0 !! f = Some (File b).
Hypothesis Hsep : ¬ wmf `prefix_of` out.
Hypothesis Hapart : ¬ out `prefix_of` input.
Hypothesis Huniq : ∀ f g, f ∈ emz_files → g ∈ emz_files → stem f = stem g → f = g.

Let st1 := (run inp outp ext st0).1.
Let st1' := empty_dir out st1.
Let st2 := (run inp outp ext st1').1.

Lemma rerun_wmf_eq : wmf = input ++ ["wmf_files"].
Proof. unfold wmf. apply joinpath_wmf_files. Qed.

Lemma rerun_out_nonempty : out ≠ [].
Proof. intros Heq. apply Hapart. rewrite Heq. apply prefix_nil. Qed.

Lemma rerun_child_not_report n : out ++ [n] ≠ report_path.
Proof.
  rewrite report_path_eq. pose proof rerun_out_nonempty.
  destruct out as [|a [|b l]]; [done|by intros [=]|by intros [=]].
Qed.

Lemma rerun_below_out n : out `prefix_of` out ++ [n] ∧ out ++ [n] ≠ out.
Proof. split; [by apply prefix_app_r|apply snoc_neq]. Qed.

(** An [.emz] entry of the input directory is no output path, is not in
    the staging directory, is not below the output directory and is not the
    report. *)
Lemma rerun_entry_apart n :
  fnmatch_star_dot "emz" n = true →
  (∀ x, input ++ [n] ≠ out ++ [x])
  ∧ ¬ wmf `prefix_of` input ++ [n]
  ∧ ¬ (out `prefix_of` input ++ [n] ∧ input ++ [n] ≠ out)
  ∧ input ++ [n] ≠ report_path.
Proof.
  intros Hm. split_and!.
  - intros x [Heq _]%app_inj_tail. apply Hapart. by rewrite Heq.
  - rewrite rerun_wmf_eq. intros [Hp|Heq]%prefix_snoc_inv.
    + by apply prefix_snoc_not in Hp.
    + apply app_inj_tail in Heq as [_ <-]. by rewrite wmf_files_not_emz in Hm.
  - intros [[Hp|Heq]%prefix_snoc_inv Hne]; [done|]. by rewrite Heq in Hne.
  - rewrite report_path_eq. intros Heq.
    destruct input as [|a l]; [|by destruct l].
    injection Heq as ->. by rewrite report_name_not_emz in Hm.
Qed.

(** What a run on a store [st] gives below the output directory, when the
    store satisfies what the first run needs. *)
Lemma rerun_step (st : store) :
  is_dir st input = true →
  is_dir st out = true →
  (∀ p, out `prefix_of` p → p ≠ out → st !! p = None) →
  (∀ data, st !! wmf ≠ Some (File data)) →
  (∀ n, fnmatch_star_dot "wmf" n = true → st !! (wmf ++ [n]) = None) →
  (∀ f, f ∈ glob st input "emz" ↔ f ∈ emz_files) →
  (∀ f, f ∈ emz_files → st !! f = st0 !! f) →
  let st' := (run inp outp ext st).1 in
  (∀ f b d, f ∈ emz_files → st0 !! f = Some (File b) →
            rendered ext f b = Some (stem f +:+ "." +:+ ext, d) →
            st' !! target f = Some (File d))
  ∧ (∀ n, (∀ f b d, f ∈ emz_files → st0 !! f = Some (File b) →
                    rendered ext f b = Some (stem f +:+ "." +:+ ext, d) →
                    out ++ [n] ≠ target f) →
          st' !! (out ++ [n]) = None)
  ∧ (∀ n, fnmatch_star_dot "emz" n = true → st' !! (input ++ [n]) = st !! (input ++ [n]))
  ∧ is_dir st' input = true
  ∧ is_dir st' out = true
  ∧ (∀ p, wmf `prefix_of` p → st' !! p = None).
Proof.
  intros Hin' Hout' Hempty' Hwmf' Hleft' Hemz Hsame st'.
  destruct (run_result inp outp ext st) as (st3 & errors_ & Hrun & _ & Hw & Hfr);
    try done.
  { by left. }
  { intros f Hf%Hemz. destruct (Hfiles f Hf) as [b Hb]. exists b. by rewrite Hsame. }
  { intros f g Hf%Hemz Hg%Hemz. by apply Huniq. }
  { intros f _. rewrite Hempty'; [done|by apply prefix_app_r|apply snoc_neq]. }
  fold input out wmf in Hrun, Hw, Hfr.
  assert (ensure_dir out st = st) as Hens.
  { apply ensure_dir_id. apply is_dir_true in Hout'. by rewrite Hout'. }
  rewrite Hens in Hfr.
  destruct (report_step errors_ st3) as (Hother & Hdir & _).
  rewrite <- Hrun in Hother, Hdir. fold st' in Hother, Hdir.
  assert (∀ p, (∀ f n', f ∈ emz_files → p ≠ out ++ [n']) → ¬ wmf `prefix_of` p →
               st3 !! p = st !! p) as Hkeep.
  { intros p Hp Hnw. rewrite Hfr; [by rewrite decide_False|].
    intros f b n' d Hf%Hemz _ _. by apply (Hp f n'). }
  assert (∀ p, wmf `prefix_of` p → st3 !! p = None) as Hgone.
  { intros p Hp. rewrite Hfr; [by rewrite decide_True|].
    intros f b n' d Hf Hb Hr ->. rewrite (rendered_name _ _ _ _ _ Hr) in Hp.
    apply prefix_snoc_inv in Hp as [Hp|Heq]; [done|].
    rewrite rerun_wmf_eq in Heq. apply app_inj_tail in Heq as [_ Heq].
    symmetry in Heq. by apply dot_name_not_wmf_files in Heq. }
  split_and!.
  - intros f b d Hf Hb Hr. unfold target. rewrite Hother by apply rerun_child_not_report.
    apply (Hw f b); [by apply Hemz|by rewrite Hsame|done].
  - intros n Hn. rewrite Hother by apply rerun_child_not_report.
    rewrite Hfr.
    + case_decide; [done|]. apply Hempty'; apply rerun_below_out.
    + intros f b n' d Hf%Hemz Hb Hr. rewrite (rendered_name _ _ _ _ _ Hr) in Hr |- *.
      rewrite Hsame in Hb by done. by apply (Hn f b d).
  - intros n Hm. destruct (rerun_entry_apart n Hm) as (Hno & Hnw & _ & Hrep).
    rewrite Hother by done. apply Hkeep; [|done]. intros f n' _. apply Hno.
  - apply is_dir_true, Hdir. rewrite Hkeep; [by apply is_dir_true| |].
    + intros f n' _ Heq. apply Hapart. rewrite Heq. by apply prefix_app_r.
    + rewrite rerun_wmf_eq. apply prefix_snoc_not.
  - apply is_dir_true, Hdir. rewrite Hkeep; [by apply is_dir_true| |done].
    intros f n' _ Heq. symmetry in Heq. by apply snoc_neq in Heq.
  - intros p Hp. rewrite Hother; [by apply Hgone|].
    intros ->. rewrite rerun_wmf_eq, report_path_eq in Hp. destruct Hp as [r Hr].
    destruct input as [|a [|b l]]; [| |done]; by inversion Hr.
Qed.

Lemma rerun_same_outputs n : st2 !! (out ++ [n]) = st1 !! (out ++ [n]).
Proof.
  destruct (rerun_step st0) as (Hw1 & Hn1 & He1 & Hin1 & Hout1 & Hgone1); try done.
  fold st1 in Hw1, Hn1, He1, Hin1, Hout1, Hgone1.
  assert (∀ m, fnmatch_star_dot "emz" m = true →
               st1' !! (input ++ [m]) = st0 !! (input ++ [m])) as Hentry.
  { intros m Hm. unfold st1'. rewrite lookup_empty_dir.
    destruct (rerun_entry_apart m Hm) as (_ & _ & Hnb & _).
    rewrite decide_False by done. by apply He1. }
  destruct (rerun_step st1') as (Hw2 & Hn2 & _).
  - unfold is_dir, st1'. rewrite lookup_empty_dir, decide_False; [done|].
    by intros [Hp _].
  - unfold is_dir, st1'. rewrite lookup_empty_dir, decide_False; [done|].
    by intros [_ Hne].
  - intros p Hp Hne. unfold st1'. by rewrite lookup_empty_dir, decide_True.
  - intros data. unfold st1'. rewrite lookup_empty_dir. case_decide; [done|].
    by rewrite Hgone1.
  - intros m _. unfold st1'. rewrite lookup_empty_dir. case_decide; [done|].
    rewrite Hgone1; [done|by apply prefix_app_r].
  - intros f. unfold emz_files. rewrite !elem_of_glob.
    assert (is_dir st1' input = true) as ->.
    { unfold is_dir, st1'. rewrite lookup_empty_dir, decide_False; [done|].
      by intros [Hp _]. }
    rewrite Hin.
    split; intros (_ & m & -> & Hv & Hm & Hs); (split; [done|]); exists m;
      split_and!; try done.
    + by rewrite <- Hentry.
    + by rewrite Hentry.
  - intros f (_ & m & -> & _ & Hm & _)%elem_of_glob. by apply Hentry.
  - fold st2 in Hw2, Hn2.
    assert (∀ f b, f ∈ emz_files → st0 !! f = Some (File b) → rendered ext f b = None →
              ∀ f' b' d', f' ∈ emz_files → st0 !! f' = Some (File b') →
                rendered ext f' b' = Some (stem f' +:+ "." +:+ ext, d') →
                target f ≠ target f') as Hfail.
    { intros f b Hf Hb Hr f' b' d' Hf' Hb' Hr' [_ Heq]%app_inj_tail.
      apply string_app_inv_tail in Heq.
      assert (f = f') as <- by by apply Huniq. congruence. }
    destruct (decide (out ++ [n] ∈ target <$> emz_files)) as [Hi|Hni].
    + apply list_elem_of_fmap in Hi as (f & Heq & Hf).
      destruct (Hfiles f Hf) as [b Hb].
      destruct (rendered ext f b) as [[n' d]|] eqn:E.
      * pose proof (rendered_name _ _ _ _ _ E) as ->.
        rewrite Heq. by rewrite (Hw1 f b d), (Hw2 f b d).
      * rewrite Hn1, Hn2; [done|rewrite Heq; by apply (Hfail f b)..].
    + rewrite Hn1, Hn2; [done|..];
        intros f b d Hf _ _ Heq; apply Hni; apply list_elem_of_fmap; by exists f.
Qed.

End Rerun.

Section RerunClaim.
Context `{Pillow}.


End RerunClaim.

Lemma example_store_emz :
  glob example_store (Path "in") "emz" = [["in"; "corrupt.emz"]; ["in"; "a.emz"]].
Proof. vm_compute. reflexivity. Qed.



(** ** The default output directory, for every input string *)

Lemma split_app_last c (s t : string) :
  Str.contains c t = false →
  ∃ l x, Str.split c s = l ++ [x] ∧ Str.split c (s +:+ t) = l ++ [x +:+ t].
Proof.
  intros Ht. induction s as [|a s (l & x & Hs & Hst)]; simpl.
  - exists [], "". split; [done|]. change ("" +:+ t) with t.
    by rewrite (StrFacts.split_no_sep c t Ht).
  - destruct (Ascii.eqb a c).
    + exists ("" :: l), x. by rewrite Hs, Hst.
    + rewrite Hs, Hst. destruct l as [|y l]; simpl.
      * by exists [], (String a x).
      * by exists (String a y :: l), x.
Qed.

Lemma drop_app (k : nat) (s t : string) :
  (k ≤ String.length s)%nat → Str.drop k (s +:+ t) = Str.drop k s +:+ t.
Proof.
  revert s. induction k as [|k IH]; intros s Hk.
  - by destruct s.
  - destruct s as [|a s]; simpl in *; [lia|]. apply IH. lia.
Qed.

(** The rest [splitroot] leaves of a string that ends in [t] ends in [t],
    when [t] has no separator. *)
Lemma splitroot_app (s t : string) :
  Str.startswith "/" t = false →
  ∃ rel, (splitroot (s +:+ t)).2 = rel +:+ t.
Proof.
  intros Ht. unfold splitroot.
  destruct (Str.startswith "/" (s +:+ t)) eqn:E1; cbn [negb]; [|by exists s].
  assert (s ≠ "") as Hs
    by (intros ->; change ("" +:+ t) with t in E1; congruence).
  assert (1 ≤ String.length s)%nat as Hl1 by (destruct s; [done|simpl; lia]).
  rewrite (drop_app 1 s t Hl1).
  destruct (Str.startswith "/" (Str.drop 1 s +:+ t)) eqn:E2; cbn [negb orb];
    [|by exists (Str.drop 1 s)].
  assert (Str.drop 1 s ≠ "") as Hs1
    by (intros Heq; rewrite Heq in E2; change ("" +:+ t) with t in E2; congruence).
  assert (2 ≤ String.length s)%nat as Hl2.
  { destruct s as [|a [|b s]]; simpl in *; try done; lia. }
  rewrite (drop_app 2 s t Hl2).
  destruct (Str.startswith "/" (Str.drop 2 s +:+ t)); cbn [snd];
    [by exists (Str.drop 1 s)|by exists (Str.drop 2 s)].
Qed.

(** [Path (s + t)] ends with a name that ends in [t], for a [t] of two
    characters or more without separator. *)
Lemma Path_app_last (s t : string) :
  Str.contains sep t = false → (2 ≤ String.length t)%nat →
  ∃ l x, Path (s +:+ t) = l ++ [x +:+ t].
Proof.
  intros Ht Hlen.
  assert (Str.startswith "/" t = false) as Hst
    by by apply (StrFacts.startswith_no_sep "/"%char).
  destruct (splitroot_app s t Hst) as [rel Hrel].
  unfold Path. destruct (splitroot (s +:+ t)) as [root rel']. simpl in Hrel. subst rel'.
  destruct (split_app_last sep rel t Ht) as (l & x & _ & Hsplit).
  assert (parse_rel (rel +:+ t) = filter (λ x, x ≠ "" ∧ x ≠ ".") l ++ [x +:+ t]) as Hp.
  { unfold parse_rel. rewrite Hsplit, filter_app. f_equal.
    rewrite filter_cons_True; [done|].
    split; intros Heq; apply (f_equal String.length) in Heq;
      rewrite StrFacts.length_app in Heq; simpl in Heq; lia. }
  rewrite Hp. case_decide.
  - by eexists _, _.
  - by exists (root :: filter (λ x, x ≠ "" ∧ x ≠ ".") l), x.
Qed.

(** With POSIX paths, no input string makes the default output directory
    the child [output_png_images] of the input directory. *)
Lemma default_output_never_the_child (folder_input_path : string) :
  Path (output_string folder_input_path None)
  ≠ joinpath (Path folder_input_path) "output_png_images".
Proof.
  unfold output_string.
  destruct (Path_app_last folder_input_path "\output_png_images") as (l & x & ->);
    [done|simpl; lia|].
  rewrite joinpath_name by done. intros [_ Heq]%app_inj_tail.
  apply (f_equal String.length) in Heq. rewrite StrFacts.length_app in Heq.
  simpl in Heq. lia.
Qed.

(** ** The scenarios of the specification *)

(** Two valid inputs: both outputs are written, the staging directory is
    gone, no report is written and the run returns. *)
Lemma scenario_two_valid_inputs :
  let res := @run example_pillow "in" (Some "out") "png" example_valid in
  res.2 = Ok tt
  ∧ res.1 !! ["out"; "a.png"] = Some (File [x89; x01; x02])
  ∧ res.1 !! ["out"; "b.png"] = Some (File [x89; x01])
  ∧ length (scandir res.1 ["out"]) = 2%nat
  ∧ res.1 !! ["in"; "wmf_files"] = None
  ∧ res.1 !! report_path = None.
Proof. split_and!; vm_compute; reflexivity. Qed.

(** One valid and one corrupt input: the valid one is converted, the
    report has one row, for [corrupt.wmf], and the run raises the batch
    error. *)
Lemma scenario_one_corrupt_input :
  let res := @run example_pillow "in" (Some "out") "png" example_store in
  res.2 = Raise (Exception batch_message)
  ∧ scandir res.1 ["out"] = ["a.png"]
  ∧ res.1 !! ["in"; "wmf_files"] = None
  ∧ res.1 !! report_path
    = Some (File (list_byte_of_string
                    (",file_names" +:+ pd.newline
                     +:+ "0,in/wmf_files/corrupt.wmf" +:+ pd.newline))).
Proof. split_and!; vm_compute; reflexivity. Qed.

(** A directory without [.emz] and [.wmf] entries: nothing is written. *)
Lemma scenario_no_inputs :
  let st : store := list_to_map [ ([], Dir); (["in"], Dir); (["out"], Dir);
                                  (["in"; "notes.txt"], File [x01]) ] in
  let res := @run example_pillow "in" (Some "out") "png" st in
  res.2 = Ok tt
  ∧ scandir res.1 ["out"] = []
  ∧ res.1 !! report_path = None.
Proof. split_and!; vm_compute; reflexivity. Qed.

(** ** When base names are pairwise different *)

Lemma take_drop (k : nat) (s : string) : Str.take k s +:+ Str.drop k s = s.
Proof.
  revert s. induction k as [|k IH]; intros [|a s]; try done.
  change (String a (Str.take k s +:+ Str.drop k s) = String a s). by rewrite IH.
Qed.

Lemma endswith_inv (p s : string) : Str.endswith p s = true → ∃ a, s = a +:+ p.
Proof.
  unfold Str.endswith. intros [_ Heq%String.eqb_eq]%andb_true_iff.
  exists (Str.take (String.length s - String.length p) s).
  pose proof (take_drop (String.length s - String.length p) s) as Htd.
  by rewrite Heq in Htd.
Qed.

(** Two [.emz] entries of a directory have different base names, unless
    one of them is named [.emz]. *)
Lemma emz_stems_distinct (st : store) (d f g : path) :
  st !! (d ++ [".emz"]) = None →
  f ∈ glob st d "emz" → g ∈ glob st d "emz" → stem f = stem g → f = g.
Proof.
  intros Hno Hf Hg Hs.
  assert (∀ h, h ∈ glob st d "emz" → ∃ s, h = d ++ [s +:+ ".emz"] ∧ stem h = s) as Hshape.
  { intros h (_ & n & -> & Hv & Hm & Hsome)%elem_of_glob.
    apply endswith_inv in Hm as [s ->]. exists s. split; [done|].
    apply (stem_dot d s "emz"); try done.
    intros ->. change ("" +:+ "." +:+ "emz") with ".emz" in Hsome.
    rewrite Hno in Hsome. by destruct Hsome. }
  destruct (Hshape f Hf) as (s1 & -> & H1), (Hshape g Hg) as (s2 & -> & H2).
  congruence.
Qed.

(** ** What [mkdir] does to the store *)

Lemma removelast_prefix {A} (l : list A) : removelast l `prefix_of` l.
Proof.
  destruct l as [|x l]; [done|].
  exists [List.last (x :: l) x]. by apply app_removelast_last.
Qed.

Lemma parent_prefix (p : path) : parent p `prefix_of` p.
Proof. unfold parent. destruct (tail_ p); [done|apply removelast_prefix]. Qed.

(** The parent of a path with a last name that is not an anchor. *)
Lemma parent_snoc (d : path) (n : string) :
  d ≠ [] ∨ Str.startswith "/" n = false → parent (d ++ [n]) = d.
Proof.
  intros Hd. unfold parent.
  assert (tail_ (d ++ [n]) ≠ []) as Ht.
  { unfold tail_. destruct (has_anchor (d ++ [n])) eqn:Ha; [|by destruct d].
    destruct d as [|a d]; [|by destruct d].
    destruct Hd as [?|Hn]; [done|]. simpl in Ha. congruence. }
  destruct (tail_ (d ++ [n])); [done|apply removelast_last].
Qed.

Lemma os_mkdir_cases (st : store) (p : path) :
  (st !! p = None ∧ st !! parent p = Some Dir ∧ os_mkdir p st = (<[p := Dir]> st, Ok tt))
  ∨ (∃ e, os_mkdir p st = (st, Raise e)
          ∧ (e = FileNotFoundError → st !! p = None ∧ st !! parent p = None)).
Proof.
  unfold os_mkdir. destruct (st !! p) eqn:Ep.
  - right. by exists FileExistsError.
  - destruct (st !! parent p) as [[]|] eqn:Epar.
    + right. by exists NotADirectoryError.
    + by left.
    + right. by exists FileNotFoundError.
Qed.

(** [mkdir] keeps every entry of the store; what it adds is a directory at
    the path or at one of its ancestors. *)
Lemma mkdir_depth_store (depth : nat) (p : path) (parents exist_ok : bool) (st : store) :
  let st' := (mkdir_depth depth p parents exist_ok st).1 in
  (∀ q v, st !! q = Some v → st' !! q = Some v)
  ∧ (∀ q v, st' !! q = Some v → st !! q = None → v = Dir ∧ q `prefix_of` p).
Proof.
  revert p parents exist_ok st.
  induction depth as [|depth IH]; intros p parents exist_ok st; simpl.
  { split; [done|]. intros q v H1 H2. congruence. }
  destruct (os_mkdir_cases st p) as [(Hp & Hpar & ->)|(e & -> & He)]; simpl.
  - split.
    + intros q v Hq. rewrite lookup_insert_ne; [done|]. intros ->. congruence.
    + intros q v Hq Hn. destruct (decide (p = q)) as [->|Hne].
      * rewrite lookup_insert_eq in Hq. by injection Hq as <-.
      * rewrite lookup_insert_ne in Hq by done. congruence.
  - assert (∀ b : bool, let st' := (if b then (st, @Raise unit e) else (st, Ok tt)).1 in
              (∀ q v, st !! q = Some v → st' !! q = Some v)
              ∧ (∀ q v, st' !! q = Some v → st !! q = None → v = Dir ∧ q `prefix_of` p))
      as Hsame.
    { intros b. destruct b; simpl; (split; [done|]; intros; congruence). }
    destruct e; try apply Hsame.
    destruct (negb parents || bool_decide (parent p = p)); [split; [done|intros; simpl in *; congruence]|].
    unfold bind.
    pose proof (IH (parent p) true true st) as [IH1 IH2].
    destruct (mkdir_depth depth (parent p) true true st) as [st1 [[]|e1]]; simpl in *.
    + pose proof (IH p false exist_ok st1) as [IH3 IH4].
      destruct (mkdir_depth depth p false exist_ok st1) as [st2 r2]; simpl in *.
      split; [by auto|].
      intros q v Hq Hn. destruct (st1 !! q) as [w|] eqn:E1.
      * apply IH3 in E1 as E2. rewrite Hq in E2. injection E2 as ->.
        destruct (IH2 q w E1 Hn) as [-> Hpre]. split; [done|].
        etrans; [done|apply parent_prefix].
      * by apply IH4.
    + split; [done|]. intros q v Hq Hn. destruct (IH2 q v Hq Hn) as [-> Hpre].
      split; [done|]. etrans; [done|apply parent_prefix].
Qed.

(** A [mkdir] that returns leaves a directory at the path. *)
Lemma mkdir_depth_ok (depth : nat) (p : path) (parents exist_ok : bool) (st st' : store) :
  mkdir_depth depth p parents exist_ok st = (st', Ok tt) → is_dir st' p = true.
Proof.
  revert p parents exist_ok st st'.
  induction depth as [|depth IH]; intros p parents exist_ok st st'; simpl; [done|].
  destruct (os_mkdir_cases st p) as [(Hp & Hpar & ->)|(e & -> & He)]; simpl.
  - intros [= <-]. unfold is_dir. by rewrite lookup_insert_eq.
  - assert ((if negb exist_ok || negb (is_dir st p) then (st, @Raise unit e) else (st, Ok tt))
            = (st', Ok tt) → is_dir st' p = true) as Hsame.
    { destruct exist_ok; simpl; [|done]. destruct (is_dir st p) eqn:E; simpl; [|done].
      by intros [= <-]. }
    destruct e; try apply Hsame.
    destruct (negb parents || bool_decide (parent p = p)); [done|].
    unfold bind. destruct (mkdir_depth depth (parent p) true true st) as [st1 [[]|e1]]; [|done].
    apply IH.
Qed.

(** With the parent there, [mkdir] adds the path or nothing. *)
Lemma mkdir_depth_parent (depth : nat) (p : path) (parents exist_ok : bool) (st : store) :
  is_Some (st !! parent p) →
  ∀ q, q ≠ p → (mkdir_depth depth p parents exist_ok st).1 !! q = st !! q.
Proof.
  intros [w Hw] q Hq. destruct depth as [|depth]; simpl; [done|].
  destruct (os_mkdir_cases st p) as [(Hp & Hpar & ->)|(e & -> & He)]; simpl.
  - by rewrite lookup_insert_ne.
  - destruct e; try by destruct (_ || _).
    destruct He as [_ He]; [done|]. congruence.
Qed.

(** ** Construction of the job, in every store *)

(** The three ways through [check_paths]. *)
Lemma check_paths_cases (inp : string) (outp : option string) (st : store) :
  let out := Path (output_string inp outp) in
  (st !! Path inp = None
   ∧ check_paths inp outp st
     = (st, Raise (IOError ("The path " +:+ inp +:+ " does not exist"))))
  ∨ (is_Some (st !! Path inp) ∧ is_Some (st !! out)
     ∧ check_paths inp outp st = (st, Ok (Path inp, out)))
  ∨ (is_Some (st !! Path inp) ∧ st !! out = None
     ∧ check_paths inp outp st
       = ((mkdir out true false st).1,
          match (mkdir out true false st).2 with
          | Ok _ => Ok (Path inp, out)
          | Raise e => Raise e
          end)).
Proof.
  intros out. unfold check_paths. fold (output_string inp outp). fold out.
  destruct (st !! Path inp) as [v|] eqn:Ein.
  - right. erewrite bind_ok; [|by eapply exists_true]. simpl.
    erewrite bind_ok; [|done].
    destruct (st !! out) as [w|] eqn:Eout.
    + left. split; [by eexists|]. split; [by eexists|].
      erewrite bind_ok; [|by eapply exists_true]. simpl. by erewrite bind_ok.
    + right. split; [by eexists|]. split; [done|].
      erewrite bind_ok; [|by eapply exists_false]. simpl.
      unfold bind. by destruct (mkdir out true false st) as [st1 [[]|e]].
  - left. split; [done|].
    erewrite bind_ok; [|by eapply exists_false]. simpl. by erewrite bind_raise.
Qed.

Lemma check_paths_store (inp : string) (outp : option string) (st : store) :
  let out := Path (output_string inp outp) in
  let st' := (check_paths inp outp st).1 in
  (∀ q v, st !! q = Some v → st' !! q = Some v)
  ∧ (∀ q v, st' !! q = Some v → st !! q = None → v = Dir ∧ q `prefix_of` out).
Proof.
  intros out st'. subst st'.
  destruct (check_paths_cases inp outp st) as [[_ ->]|[(_ & _ & ->)|(_ & _ & ->)]];
    fold out; simpl; try (split; [done|intros; congruence]).
  apply mkdir_depth_store.
Qed.

Lemma check_paths_post (inp : string) (outp : option string) (st st' : store)
    (paths : path * path) :
  check_paths inp outp st = (st', Ok paths) →
  paths = (Path inp, Path (output_string inp outp))
  ∧ is_Some (st !! Path inp)
  ∧ is_Some (st' !! Path (output_string inp outp)).
Proof.
  destruct (check_paths_cases inp outp st) as [[_ ->]|[(Hi & Ho & ->)|(Hi & Ho & ->)]];
    [done|by intros [= <- <-]|].
  destruct (mkdir _ true false st) as [st1 [[]|e]] eqn:E; simpl; [|done].
  intros [= <- <-]. split; [done|]. split; [done|].
  apply mkdir_depth_ok in E. apply is_dir_true in E. by rewrite E.
Qed.

(** [__init__] after a [check_paths] that returned. *)
Lemma init_unfold (inp : string) (outp : option string) (ext : string)
    (st st1 : store) (paths : path * path) :
  check_paths inp outp st = (st1, Ok paths) →
  __init__ inp outp ext st
  = ((mkdir (joinpath (Path inp) "wmf_files") true true st1).1,
     match (mkdir (joinpath (Path inp) "wmf_files") true true st1).2 with
     | Ok _ => Ok (job inp outp ext)
     | Raise e => Raise e
     end).
Proof.
  intros Hc. destruct (check_paths_post _ _ _ _ _ Hc) as (-> & _ & _).
  unfold __init__. erewrite bind_ok; [|done]. simpl. unfold bind.
  by destruct (mkdir _ true true st1) as [st2 [[]|e]].
Qed.

Lemma init_raise (inp : string) (outp : option string) (ext : string)
    (st st1 : store) (e : exn) :
  check_paths inp outp st = (st1, Raise e) →
  __init__ inp outp ext st = (st1, Raise e).
Proof. intros Hc. unfold __init__. by erewrite bind_raise. Qed.

Lemma parent_wmf (p : path) : parent (joinpath p "wmf_files") = p.
Proof. rewrite joinpath_wmf_files. by apply parent_child. Qed.

(** Construction keeps every entry of the store; what it adds is a
    directory: the output directory, one of its ancestors, or the staging
    directory. *)
Lemma init_store (inp : string) (outp : option string) (ext : string) (st : store) :
  let out := Path (output_string inp outp) in
  let wmf := joinpath (Path inp) "wmf_files" in
  let st' := (__init__ inp outp ext st).1 in
  (∀ q v, st !! q = Some v → st' !! q = Some v)
  ∧ (∀ q v, st' !! q = Some v → st !! q = None →
            v = Dir ∧ (q `prefix_of` out ∨ q = wmf)).
Proof.
  intros out wmf st'. subst st'.
  pose proof (check_paths_store inp outp st) as [Hk Hn]. fold out in Hn.
  destruct (check_paths inp outp st) as [st1 [paths|e]] eqn:Hc; simpl in *.
  - rewrite (init_unfold _ _ _ _ _ _ Hc). fold wmf. simpl.
    destruct (check_paths_post _ _ _ _ _ Hc) as (_ & [v Hin] & _).
    assert (is_Some (st1 !! parent wmf)) as Hpar.
    { unfold wmf. rewrite parent_wmf. exists v. by apply Hk. }
    pose proof (mkdir_depth_parent (S (length wmf)) wmf true true st1 Hpar) as Hfr.
    pose proof (mkdir_depth_store (S (length wmf)) wmf true true st1) as [Hk2 Hn2].
    fold (mkdir wmf true true) in Hfr, Hk2, Hn2.
    split; [by auto|].
    intros q w Hq Hnone. destruct (decide (q = wmf)) as [->|Hne].
    + destruct (st1 !! wmf) as [x|] eqn:E.
      * apply Hk2 in E as E'. rewrite Hq in E'. injection E' as ->.
        destruct (Hn wmf x E Hnone) as [-> Hpre]. by auto.
      * destruct (Hn2 wmf w Hq E) as [-> _]. by auto.
    + rewrite Hfr in Hq by done. destruct (Hn q w Hq Hnone) as [-> Hpre]. by auto.
  - rewrite (init_raise _ _ _ _ _ _ Hc). simpl. split; [done|].
    intros q w Hq Hnone. destruct (Hn q w Hq Hnone) as [-> Hpre]. by auto.
Qed.

(** What holds once construction has returned. *)
Lemma init_post (inp : string) (outp : option string) (ext : string)
    (st st' : store) (self : EmzConverter) :
  __init__ inp outp ext st = (st', Ok self) →
  self = job inp outp ext
  ∧ is_Some (st' !! Path inp)
  ∧ is_Some (st' !! Path (output_string inp outp))
  ∧ is_dir st' (joinpath (Path inp) "wmf_files") = true.
Proof.
  intros Hi.
  pose proof (init_store inp outp ext st) as [Hk _]. rewrite Hi in Hk. simpl in Hk.
  destruct (check_paths inp outp st) as [st1 [paths|e]] eqn:Hc;
    [|by rewrite (init_raise _ _ _ _ _ _ Hc) in Hi].
  rewrite (init_unfold _ _ _ _ _ _ Hc) in Hi.
  destruct (check_paths_post _ _ _ _ _ Hc) as (_ & [v Hin] & [w Hout]).
  destruct (mkdir _ true true st1) as [st2 [[]|e]] eqn:E; simpl in Hi; [|done].
  injection Hi as <- <-. split; [done|].
  pose proof (mkdir_depth_store (S (length (joinpath (Path inp) "wmf_files")))
                (joinpath (Path inp) "wmf_files") true true st1) as [Hk2 _].
  fold (mkdir (joinpath (Path inp) "wmf_files") true true) in Hk2.
  rewrite E in Hk2. simpl in Hk2.
  split; [exists v; by apply Hk|]. split; [exists w; by apply Hk2|].
  by apply mkdir_depth_ok in E.
Qed.

(** ** Making a directory with its missing ancestors *)

Lemma mkdir_depth_fresh (depth : nat) (p : path) (parents exist_ok : bool) (st : store) :
  st !! p = None → st !! parent p = Some Dir →
  mkdir_depth (S depth) p parents exist_ok st = (<[p := Dir]> st, Ok tt).
Proof. intros Hp Hpar. simpl. unfold os_mkdir. by rewrite Hp, Hpar. Qed.

Lemma has_anchor_app (p q : path) : p ≠ [] → has_anchor (p ++ q) = has_anchor p.
Proof. by destruct p. Qed.

Lemma mkdir_depth_chain (names : list string) :
  ∀ (anc : path) (st : store) (depth : nat) (exist_ok : bool),
    names ≠ [] →
    (length names ≤ depth)%nat →
    anc ≠ [] ∨ has_anchor (anc ++ names) = false →
    st !! anc = Some Dir →
    (∀ k, (0 < k ≤ length names)%nat → st !! (anc ++ take k names) = None) →
    ∃ st',
      mkdir_depth depth (anc ++ names) true exist_ok st = (st', Ok tt)
      ∧ (∀ k, (k ≤ length names)%nat → st' !! (anc ++ take k names) = Some Dir)
      ∧ (∀ q, (∀ k, (0 < k ≤ length names)%nat → q ≠ anc ++ take k names) →
              st' !! q = st !! q).
Proof.
  induction names as [|n names IH] using rev_ind; [done|].
  intros anc st depth exist_ok _ Hlen Hanc Hdir Hnone.
  rewrite length_app in Hlen, Hnone. simpl in Hlen, Hnone.
  destruct depth as [|depth]; [lia|].
  assert (st !! (anc ++ names ++ [n]) = None) as Hp.
  { specialize (Hnone (length names + 1)%nat). rewrite take_ge in Hnone; [|by rewrite length_app].
    apply Hnone. lia. }
  assert (parent (anc ++ names ++ [n]) = anc ++ names) as Hpar.
  { rewrite app_assoc. apply parent_snoc.
    destruct Hanc as [Hanc|Hanc]; [left; by destruct anc|].
    destruct names as [|x names]; [|left; by destruct anc].
    destruct anc; [|by left]. right. simpl in Hanc. done. }
  destruct (decide (names = [])) as [->|Hne].
  - exists (<[anc ++ [n] := Dir]> st). cbn [app length] in *. rewrite app_nil_r in Hpar.
    split; [apply mkdir_depth_fresh; [done|by rewrite Hpar]|]. split.
    + intros k Hk. destruct k as [|k].
      * rewrite take_0, app_nil_r. rewrite lookup_insert_ne; [done|].
        intros Heq. apply (f_equal length) in Heq. rewrite length_app in Heq.
        simpl in Heq. lia.
      * simpl. rewrite take_nil. by rewrite lookup_insert_eq.
    + intros q Hq. rewrite lookup_insert_ne; [done|]. intros <-.
      by apply (Hq 1%nat); [lia|].
  - assert (0 < length names)%nat as Hpos by (destruct names; [done|simpl; lia]).
    assert (st !! (anc ++ names) = None) as Hpn.
    { specialize (Hnone (length names)). rewrite take_app_length in Hnone.
      apply Hnone. lia. }
    destruct (IH anc st depth true Hne) as (st1 & Hrun & Hdirs & Hfr).
    { lia. }
    { destruct Hanc as [Hanc|Hanc]; [by left|].
      destruct anc; [|by left]. right. simpl in *.
      by rewrite has_anchor_app in Hanc. }
    { done. }
    { intros k Hk. specialize (Hnone k). rewrite take_app_le in Hnone by lia.
      apply Hnone. lia. }
    assert (st1 !! (anc ++ names ++ [n]) = None) as Hp1.
    { rewrite Hfr; [done|]. intros k Hk Heq. apply (f_equal length) in Heq.
      rewrite !length_app, length_take in Heq. simpl in Heq. lia. }
    assert (st1 !! (anc ++ names) = Some Dir) as Hpn1.
    { specialize (Hdirs (length names)). rewrite take_ge in Hdirs by lia.
      apply Hdirs. lia. }
    exists (<[anc ++ names ++ [n] := Dir]> st1). split.
    + cbn [mkdir_depth]. unfold os_mkdir at 1. rewrite Hp, Hpar, Hpn. cbn [negb orb].
      rewrite bool_decide_eq_false_2; cycle 1.
      { intros Heq. apply (f_equal length) in Heq. rewrite !length_app in Heq.
        simpl in Heq. lia. }
      unfold bind. rewrite Hrun.
      destruct depth as [|depth]; [lia|].
      apply mkdir_depth_fresh; [done|by rewrite Hpar].
    + split.
      * intros k Hk. rewrite length_app in Hk. simpl in Hk.
        destruct (decide (k = length names + 1)%nat) as [->|Hk'].
        -- rewrite take_ge by (rewrite length_app; simpl; lia).
           by rewrite lookup_insert_eq.
        -- rewrite take_app_le by lia. rewrite lookup_insert_ne; [apply Hdirs; lia|].
           intros Heq. apply (f_equal length) in Heq.
           rewrite !length_app, length_take in Heq. simpl in Heq. lia.
      * intros q Hq. rewrite lookup_insert_ne.
        -- apply Hfr. intros k Hk. specialize (Hq k). rewrite take_app_le in Hq by lia.
           apply Hq. rewrite length_app. simpl. lia.
        -- intros <-. apply (Hq (length names + 1)%nat); [rewrite length_app; simpl; lia|].
           rewrite take_ge; [done|]. rewrite length_app. simpl. lia.
Qed.

(** The paths from [anc] down to [anc ++ names]. *)
Lemma between_take (anc : path) (names : list string) (q : path) :
  anc `prefix_of` q ∧ q `prefix_of` anc ++ names
  ↔ ∃ k, (k ≤ length names)%nat ∧ q = anc ++ take k names.
Proof.
  split.
  - intros [[r ->] [r' Hr']]. rewrite <- app_assoc in Hr'.
    apply app_inv_head in Hr'. subst names. exists (length r).
    rewrite length_app. split; [lia|]. by rewrite take_app_length.
  - intros (k & Hk & ->). split; [by eexists|].
    exists (drop k names). by rewrite <- app_assoc, firstn_skipn.
Qed.

(** ** The depth of the recursion of [mkdir] *)

Lemma os_mkdir_raise (p : path) (st st' : store) (e : exn) :
  os_mkdir p st = (st', Raise e) →
  e = FileExistsError ∨ e = NotADirectoryError ∨ e = FileNotFoundError.
Proof.
  unfold os_mkdir. destruct (st !! p); [intros [= _ <-]; by auto|].
  destruct (st !! parent p) as [[]|]; intros [= _ <-]; by auto.
Qed.

Lemma parent_neq (p : path) :
  parent p ≠ p → (length (parent p) < length p)%nat.
Proof.
  unfold parent. destruct (tail_ p) eqn:E; [done|]. intros _.
  destruct p as [|x p]; [by cbv in E|].
  rewrite (app_removelast_last x (l := x :: p)) at 2 by done.
  rewrite length_app. simpl. lia.
Qed.

(** The depth [mkdir] starts with is never used up. *)
Lemma mkdir_depth_enough (depth : nat) (p : path) (parents exist_ok : bool) (st : store) :
  (length p < depth)%nat →
  (mkdir_depth depth p parents exist_ok st).2 ≠ Raise RecursionError.
Proof.
  revert p parents exist_ok st.
  induction depth as [|depth IH]; intros p parents exist_ok st Hlen; [lia|].
  assert (∀ (d : nat) (ok : bool) (s : store),
            (mkdir_depth (S d) p false ok s).2 ≠ Raise RecursionError) as Hlast.
  { intros d ok s. cbn [mkdir_depth].
    destruct (os_mkdir p s) as [s1 [[]|e]] eqn:E; [done|].
    destruct (os_mkdir_raise _ _ _ _ E) as [->|[->| ->]]; cbn [negb orb]; [| |done];
      by destruct (negb ok || negb (is_dir s1 p)). }
  cbn [mkdir_depth]. destruct (os_mkdir p st) as [st1 [[]|e]] eqn:E; [done|].
  destruct (os_mkdir_raise _ _ _ _ E) as [->|[->| ->]];
    [by destruct (negb exist_ok || negb (is_dir st1 p))
    |by destruct (negb exist_ok || negb (is_dir st1 p))|].
  destruct (negb parents || bool_decide (parent p = p)) eqn:Hb; [done|].
  apply orb_false_iff in Hb as [_ Hb%bool_decide_eq_false].
  pose proof (parent_neq p Hb) as Hpar.
  unfold bind. pose proof (IH (parent p) true true st1) as IH1.
  destruct (mkdir_depth depth (parent p) true true st1) as [st2 [[]|e2]]; cbn [snd] in *.
  - destruct depth as [|depth]; [lia|]. apply Hlast.
  - apply IH1. lia.
Qed.

Lemma mkdir_enough (p : path) (parents exist_ok : bool) (st : store) :
  (mkdir p parents exist_ok st).2 ≠ Raise RecursionError.
Proof. apply mkdir_depth_enough. lia. Qed.

Lemma init_no_recursion_error (inp : string) (outp : option string) (ext : string)
    (st : store) :
  (__init__ inp outp ext st).2 ≠ Raise RecursionError.
Proof.
  destruct (check_paths inp outp st) as [st1 [paths|e]] eqn:Hc.
  - rewrite (init_unfold _ _ _ _ _ _ Hc). simpl.
    pose proof (mkdir_enough (joinpath (Path inp) "wmf_files") true true st1) as Hm.
    destruct (mkdir _ true true st1) as [st2 [[]|e]]; simpl in *; [done|].
    intros [= ->]. done.
  - rewrite (init_raise _ _ _ _ _ _ Hc). simpl. intros [= ->].
    destruct (check_paths_cases inp outp st) as [[_ Hx]|[(_ & _ & Hx)|(_ & _ & Hx)]];
      rewrite Hx in Hc; try done.
    pose proof (mkdir_enough (Path (output_string inp outp)) true false st) as Hm.
    destruct (mkdir _ true false st) as [st2 [[]|e]]; simpl in *; [done|].
    injection Hc as _ ->. done.
Qed.

(** ** Properties of the construction *)

(** X2 ([check_paths], lines 50-52).  When the output directory is missing,
    [check_paths] makes it together with every missing directory above it,
    as [parents=True] asks: if [anc] is an existing directory above the
    output path (not the working directory of an absolute path) and nothing
    exists between the two, then afterwards every path from [anc] down to
    the output path is a directory, every other path is as it was, and the
    two paths are returned. *)
Theorem X2_check_paths_makes_missing_ancestors
    (inp : string) (outp : option string) (st : store) (anc : path) :
  let out := Path (output_string inp outp) in
  is_Some (st !! Path inp) →
  anc `prefix_of` out → anc ≠ out →
  anc ≠ [] ∨ has_anchor out = false →
  st !! anc = Some Dir →
  (∀ q, anc `prefix_of` q → q `prefix_of` out → q ≠ anc → st !! q = None) →
  ∃ st',
    check_paths inp outp st = (st', Ok (Path inp, out))
    ∧ (∀ q, anc `prefix_of` q → q `prefix_of` out → st' !! q = Some Dir)
    ∧ (∀ q, ¬ (anc `prefix_of` q ∧ q `prefix_of` out) → st' !! q = st !! q).
Proof.
  intros out Hin [names Hout] Hne Hanc Hdir Hnone.
  assert (names ≠ []) as Hnames by (intros ->; by rewrite app_nil_r in Hout).
  assert (st !! out = None) as Hmiss by (apply Hnone; [by exists names|done|done]).
  destruct (check_paths_cases inp outp st) as [[E _]|[(_ & [? E] & _)|(_ & _ & ->)]].
  { destruct Hin. congruence. }
  { unfold out in Hmiss. congruence. }
  fold out.
  destruct (mkdir_depth_chain names anc st (S (length out)) false) as (st' & Hrun & Hdirs & Hfr).
  { done. }
  { rewrite Hout, length_app. lia. }
  { by rewrite <- Hout. }
  { done. }
  { intros k Hk. apply Hnone.
    - by eexists.
    - rewrite Hout. apply (between_take anc names). exists k. split; [lia|done].
    - intros Heq. apply (f_equal length) in Heq. rewrite length_app, length_take in Heq. lia. }
  exists st'. unfold mkdir. rewrite Hout in *. rewrite Hrun. simpl. split; [done|]. split.
  - intros q H1 H2. destruct (proj1 (between_take anc names q)) as (k & Hk & ->); [done|].
    by apply Hdirs.
  - intros q Hq. apply Hfr. intros k Hk ->. apply Hq. apply between_take. exists k.
    split; [lia|done].
Qed.

Lemma X2_check_paths_makes_missing_ancestors_witness :
  ∃ st',
    check_paths "/data/in" (Some "/data/out/png/run1") example_posix_store
    = (st', Ok (["/"; "data"; "in"], ["/"; "data"; "out"; "png"; "run1"]))
    ∧ (∀ q, ["/"; "data"] `prefix_of` q → q `prefix_of` ["/"; "data"; "out"; "png"; "run1"] →
            st' !! q = Some Dir)
    ∧ (∀ q, ¬ (["/"; "data"] `prefix_of` q ∧ q `prefix_of` ["/"; "data"; "out"; "png"; "run1"]) →
            st' !! q = example_posix_store !! q).
Proof.
  apply (X2_check_paths_makes_missing_ancestors
           "/data/in" (Some "/data/out/png/run1") example_posix_store ["/"; "data"]).
  - by eexists.
  - by exists ["out"; "png"; "run1"].
  - done.
  - by left.
  - reflexivity.
  - intros q [r ->] [r' Hr'] Hne.
    destruct r as [|x r]; [done|]. injection Hr' as Hx _. subst x.
    apply not_elem_of_list_to_map_1. simpl.
    rewrite !elem_of_cons, elem_of_nil. by intros [?|[?|[?|?]]].
Defined.


(** X4 ([__init__], lines 21-28).  When construction returns, the object
    holds the two resolved paths, the staging path [wmf_files] under the
    input path and the output type; the input path and the output path
    exist and the staging path is a directory; and constructing again in
    the store it left changes nothing and returns the same object. *)
Theorem X4_constructed_job_and_second_construction
    (inp : string) (outp : option string) (ext : string) (st st' : store)
    (self : EmzConverter) :
  __init__ inp outp ext st = (st', Ok self) →
  folder_input_path self = Path inp
  ∧ folder_output_path self = Path (output_string inp outp)
  ∧ wmf_folder self = joinpath (folder_input_path self) "wmf_files"
  ∧ output_type self = ext
  ∧ is_Some (st' !! folder_input_path self)
  ∧ is_Some (st' !! folder_output_path self)
  ∧ is_dir st' (wmf_folder self) = true
  ∧ __init__ inp outp ext st' = (st', Ok self).
Proof.
  intros Hi. destruct (init_post _ _ _ _ _ _ Hi) as (-> & Hin & Hout & Hwmf). simpl.
  do 4 (split; [done|]). do 3 (split; [done|]).
  destruct (check_paths_cases inp outp st') as [[E _]|[(_ & _ & Hc)|(_ & E & _)]].
  - destruct Hin. congruence.
  - rewrite (init_unfold _ _ _ _ _ _ Hc). by rewrite mkdir_existing_dir.
  - destruct Hout. congruence.
Qed.

Lemma X4_constructed_job_and_second_construction_witness :
  ∃ st',
    folder_input_path (job "in" (Some "out") "png") = Path "in"
    ∧ folder_output_path (job "in" (Some "out") "png") = Path (output_string "in" (Some "out"))
    ∧ wmf_folder (job "in" (Some "out") "png")
      = joinpath (folder_input_path (job "in" (Some "out") "png")) "wmf_files"
    ∧ output_type (job "in" (Some "out") "png") = "png"
    ∧ is_Some (st' !! folder_input_path (job "in" (Some "out") "png"))
    ∧ is_Some (st' !! folder_output_path (job "in" (Some "out") "png"))
    ∧ is_dir st' (wmf_folder (job "in" (Some "out") "png")) = true
    ∧ __init__ "in" (Some "out") "png" st' = (st', Ok (job "in" (Some "out") "png")).
Proof.
  eexists. apply (X4_constructed_job_and_second_construction
                    "in" (Some "out") "png" example_store).
  apply init_ok; [reflexivity|left; by eexists|intros data; by vm_compute].
Defined.

(** X5 ([__init__], line 26, after [check_paths], line 44).  [check_paths]
    asks whether the input path exists, not whether it is a directory.
    With an existing output path: when the input path is a regular file,
    construction raises [NotADirectoryError] at the [mkdir] of the staging
    directory; when [wmf_files] under the input path is a regular file, it
    raises [FileExistsError] there.  The store is unchanged in both cases. *)
Theorem X5_construction_fails_at_the_staging_directory
    (inp : string) (outp : option string) (ext : string) (st : store) :
  let wmf := joinpath (Path inp) "wmf_files" in
  is_Some (st !! Path inp) →
  is_Some (st !! Path (output_string inp outp)) →
  (∀ b, st !! Path inp = Some (File b) → st !! wmf = None →
        __init__ inp outp ext st = (st, Raise NotADirectoryError))
  ∧ (∀ b, st !! wmf = Some (File b) →
          __init__ inp outp ext st = (st, Raise FileExistsError)).
Proof.
  intros wmf Hin Hout.
  destruct (check_paths_cases inp outp st) as [[E _]|[(_ & _ & Hc)|(_ & E & _)]].
  { destruct Hin. congruence. }
  2:{ destruct Hout. congruence. }
  rewrite (init_unfold _ _ _ _ _ _ Hc). fold wmf. split.
  - intros b Hfile Hnone.
    assert (mkdir wmf true true st = (st, Raise NotADirectoryError)) as Hm.
    { unfold mkdir. cbn [mkdir_depth]. unfold os_mkdir. rewrite Hnone.
      replace (parent wmf) with (Path inp) by (symmetry; apply parent_wmf).
      rewrite Hfile. cbn [negb orb]. unfold is_dir. by rewrite Hnone. }
    by rewrite Hm.
  - intros b Hfile.
    assert (mkdir wmf true true st = (st, Raise FileExistsError)) as Hm.
    { unfold mkdir. cbn [mkdir_depth]. unfold os_mkdir. rewrite Hfile.
      cbn [negb orb]. unfold is_dir. by rewrite Hfile. }
    by rewrite Hm.
Qed.

Lemma X5_construction_fails_at_the_staging_directory_witness :
  __init__ "pic.emz" (Some "out") "png" example_input_is_file
  = (example_input_is_file, Raise NotADirectoryError)
  ∧ __init__ "in" (Some "out") "png" example_wmf_is_file
    = (example_wmf_is_file, Raise FileExistsError).
Proof.
  split.
  - refine (proj1 (X5_construction_fails_at_the_staging_directory
                     "pic.emz" (Some "out") "png" example_input_is_file _ _) [x01] _ _);
      [by eexists|by eexists|reflexivity|reflexivity].
  - refine (proj2 (X5_construction_fails_at_the_staging_directory
                     "in" (Some "out") "png" example_wmf_is_file _ _) [] _);
      [by eexists|by eexists|reflexivity].
Defined.

(** ** What the two stages touch *)

Lemma glob_entry_name (st : store) d suffix_ f :
  f ∈ glob st d suffix_ → valid_name (name f) = true.
Proof. intros (_ & n & -> & Hv & _)%elem_of_glob. by rewrite name_child. Qed.

Lemma find_files_missing (st : store) d suffix_ :
  st !! d = None →
  find_files d suffix_ st = (st, Raise (IOError "Provided path does not exist.")).
Proof. intros Hd. unfold find_files. by erewrite bind_ok; [|by eapply exists_false]. Qed.

(** Stage 1 leaves alone every path outside the staging directory. *)
Lemma stage1_frame (self : EmzConverter) (st : store) (p : path) :
  ¬ wmf_folder self `prefix_of` p →
  (convert_emz_files_to_wmf self st).1 !! p = st !! p.
Proof.
  intros Hp. destruct (st !! folder_input_path self) as [v|] eqn:E.
  - rewrite (stage1_unfold _ _ _ E). apply copy_loop_frame.
    intros (f & -> & _)%list_elem_of_fmap. apply Hp. by eexists.
  - unfold convert_emz_files_to_wmf. by erewrite bind_raise; [|by apply find_files_missing].
Qed.

Section StageFrames.
Context `{Pillow}.

(** A body of the loop that returns has written one file directly in the
    output directory. *)
Lemma try_convert_target (self : EmzConverter) (st st' : store) (f : path) :
  valid_name (name f) = true →
  try_convert self f st = (st', Ok tt) →
  ∃ n data, valid_name n = true
            ∧ st' = <[folder_output_path self ++ [n] := File data]> st
            ∧ writable st (folder_output_path self ++ [n]) = true.
Proof.
  intros Hv Hrun. pose proof (try_convert_store self st f) as Hs. rewrite Hrun in Hs.
  destruct Hs as (out & data & Ho & ->).
  pose proof (outcome_writable _ _ _ _ _ Ho) as Hw.
  destruct (outcome_path _ _ _ _ _ Ho) as (renamed & Hren & ->).
  destruct (valid_suffix ("." +:+ output_type self)) eqn:Hvs; cycle 1.
  { destruct (with_suffix_dot_invalid f _ Hvs) as [e He]. congruence. }
  rewrite with_suffix_stem in Hren; [|done|by apply valid_name_spec in Hv as (? & _)].
  injection Hren as <-.
  assert (valid_name (stem f +:+ "." +:+ output_type self) = true) as Hn
    by by apply renamed_valid.
  rewrite name_child in Hw |- * by done. rewrite joinpath_name in Hw |- * by done.
  by eexists _, _.
Qed.

Lemma convert_loop_frame (self : EmzConverter) (files errors_ : list path)
    (st st' : store) (errors' : list path) (p : path) :
  convert_loop self files errors_ st = (st', Ok errors') →
  (∀ f, f ∈ files → valid_name (name f) = true) →
  (∀ n, p ≠ folder_output_path self ++ [n]) →
  st' !! p = st !! p.
Proof.
  revert errors_ st. induction files as [|f files IH]; intros errors_ st Hrun Hv Hp.
  { by injection Hrun as <- _. }
  rewrite convert_loop_cons in Hrun.
  pose proof (try_convert_store self st f) as Hs.
  destruct (try_convert self f st) as [st1 [[]|e]] eqn:E.
  - destruct (try_convert_target self st st1 f) as (n & data & _ & -> & _);
      [apply Hv; left|done|].
    rewrite (IH _ _ Hrun); [|intros g Hg; apply Hv; by right|done].
    by rewrite lookup_insert_ne.
  - destruct Hs as [_ ->]. apply (IH _ _ Hrun); [|done]. intros g Hg. apply Hv. by right.
Qed.

(** Stage 2 leaves alone every path that is not in the staging directory,
    not directly in the output directory, and not the report. *)
Lemma stage2_frame (self : EmzConverter) (st : store) (p : path) :
  ¬ wmf_folder self `prefix_of` p →
  (∀ n, p ≠ folder_output_path self ++ [n]) →
  p ≠ report_path →
  (convert_wmf_to_specified_output_type self st).1 !! p = st !! p.
Proof.
  intros Hwmf Hout Hrep. unfold convert_wmf_to_specified_output_type.
  destruct (st !! wmf_folder self) as [v|] eqn:E; cycle 1.
  { by erewrite bind_raise; [|by apply find_files_missing]. }
  erewrite bind_ok; [|by eapply find_files_exists].
  destruct (convert_loop_total self (glob st (wmf_folder self) "wmf") [] st)
    as (st2 & errors_ & Hloop).
  erewrite bind_ok; [|done].
  assert (st2 !! p = st !! p) as Hp2.
  { apply (convert_loop_frame _ _ _ _ _ _ _ Hloop); [|done].
    intros f Hf. by eapply glob_entry_name. }
  unfold bind at 1. unfold rmtree.
  destruct (st2 !! wmf_folder self) as [[]|]; [done| |done].
  destruct (report_step errors_
              (filter (λ kv : path * node, ¬ wmf_folder self `prefix_of` kv.1) st2))
    as (Hfr & _).
  simpl in Hfr. rewrite Hfr by done. rewrite lookup_rmtree. by case_decide.
Qed.

Lemma convert_frame (self : EmzConverter) (st : store) (p : path) :
  ¬ wmf_folder self `prefix_of` p →
  (∀ n, p ≠ folder_output_path self ++ [n]) →
  p ≠ report_path →
  (convert self st).1 !! p = st !! p.
Proof.
  intros Hwmf Hout Hrep. pose proof (stage1_frame self st p Hwmf) as H1.
  unfold convert, bind.
  destruct (convert_emz_files_to_wmf self st) as [st1 [[]|e]]; simpl in *; [|done].
  by rewrite stage2_frame.
Qed.

Lemma run_frame (inp : string) (outp : option string) (ext : string) (st : store)
    (p : path) :
  ¬ p `prefix_of` Path (output_string inp outp) →
  ¬ joinpath (Path inp) "wmf_files" `prefix_of` p →
  (∀ n, p ≠ Path (output_string inp outp) ++ [n]) →
  p ≠ report_path →
  (run inp outp ext st).1 !! p = st !! p.
Proof.
  intros Hanc Hwmf Hout Hrep.
  pose proof (init_store inp outp ext st) as [Hk Hn].
  assert ((__init__ inp outp ext st).1 !! p = st !! p) as Hi.
  { destruct (st !! p) as [v|] eqn:E; [by apply Hk|].
    destruct ((__init__ inp outp ext st).1 !! p) as [v|] eqn:E'; [|done].
    destruct (Hn p v E' E) as [_ [?| ->]]; [done|]. by destruct Hwmf. }
  unfold run, bind.
  destruct (__init__ inp outp ext st) as [st_i [self|e]] eqn:Hinit; simpl in *; [|done].
  destruct (init_post _ _ _ _ _ _ Hinit) as (-> & _).
  by rewrite convert_frame.
Qed.

End StageFrames.

(** ** Stage 1 when an entry cannot be copied *)

Lemma staged_path_not_wmf (self : EmzConverter) (f : path) :
  staged_path self f ≠ wmf_folder self.
Proof. apply snoc_neq. Qed.

(** Copying one listed entry to the staging directory: the copy is made,
    or [IsADirectoryError] is raised because the entry or the staged path
    is a directory. *)
Lemma copyfile_staged_cases (self : EmzConverter) (st0 st : store) (f : path) :
  constructed self →
  f ∈ glob st0 (folder_input_path self) "emz" →
  st !! f = st0 !! f →
  st !! wmf_folder self = Some Dir →
  (∃ b, st0 !! f = Some (File b)
        ∧ copyfile f (staged_path self f) st
          = (<[staged_path self f := File b]> st, Ok tt))
  ∨ (copyfile f (staged_path self f) st = (st, Raise IsADirectoryError)).
Proof.
  intros Hc Hf Hsame Hwmf.
  pose proof (staged_path_not_source self st0 f f Hc Hf) as Hne.
  pose proof (glob_entry_name _ _ _ _ Hf) as Hv.
  apply elem_of_glob in Hf as (_ & n & _ & _ & _ & [v Hex]).
  unfold copyfile. rewrite bool_decide_eq_false_2 by done. cbn [andb].
  unfold bind, read_bytes. rewrite Hsame, Hex. destruct v as [b|]; [|by right].
  unfold write_bytes. rewrite staged_path_parent; cycle 1.
  { by apply valid_name_spec in Hv as (? & _). }
  { by apply valid_name_spec in Hv as (_ & _ & _ & ?). }
  rewrite Hwmf. destruct (st !! staged_path self f) as [[]|]; [left|by right|left]; by exists b.
Qed.

Lemma copy_loop_cases (self : EmzConverter) (st0 : store) (l : list path) (st : store) :
  constructed self →
  (∀ f, f ∈ l → f ∈ glob st0 (folder_input_path self) "emz") →
  (∀ f, f ∈ l → st !! f = st0 !! f) →
  st !! wmf_folder self = Some Dir →
  let r := for_each l (λ f, copyfile f (staged_path self f)) st in
  r.1 !! wmf_folder self = Some Dir
  ∧ (r.2 = Raise IsADirectoryError
     ∨ (r.2 = Ok tt ∧ ∀ f, f ∈ l → ∃ b, st0 !! f = Some (File b))).
Proof.
  intros Hc. revert st. induction l as [|f l IH]; intros st Hl Hsame Hwmf; simpl.
  { split; [done|]. right. split; [done|]. by intros f Hf%elem_of_nil. }
  unfold bind.
  destruct (copyfile_staged_cases self st0 st f Hc) as [(b & Hb & ->)| ->];
    [apply Hl; left|apply Hsame; left|done| |by auto].
  destruct (IH (<[staged_path self f := File b]> st)) as [IH1 IH2].
  { intros g Hg. apply Hl. by right. }
  { intros g Hg. rewrite lookup_insert_ne; [apply Hsame; by right|].
    intros Heq. eapply staged_path_not_source; [done| |done]. apply Hl. by right. }
  { rewrite lookup_insert_ne; [done|apply staged_path_not_wmf]. }
  split; [done|]. destruct IH2 as [?|[? Hall]]; [by left|]. right. split; [done|].
  intros g [->|Hg]%elem_of_cons; [by exists b|by apply Hall].
Qed.

(** The exceptions stage 1 can raise. *)
Lemma for_each_raise {A} (P : exn → Prop) (l : list A) (body : A → M unit)
    (st st' : store) (e : exn) :
  (∀ x s s' e, body x s = (s', Raise e) → P e) →
  for_each l body st = (st', Raise e) → P e.
Proof.
  intros Hbody. revert st. induction l as [|x l IH]; intros st; simpl; [done|].
  unfold bind. destruct (body x st) as [s1 [[]|e1]] eqn:E.
  - apply IH.
  - intros [= <- <-]. by eapply Hbody.
Qed.

Lemma copyfile_raise (src dst : path) (st st' : store) (e : exn) :
  copyfile src dst st = (st', Raise e) → ∀ m, e ≠ Exception m.
Proof.
  unfold copyfile, bind, read_bytes, write_bytes.
  destruct (_ && _); [by intros [= <- <-]|].
  destruct (st !! src) as [[]|]; try by intros [= <- <-].
  destruct (st !! dst) as [[]|], (st !! parent dst) as [[]|]; by intros [= <- <-].
Qed.

Lemma with_suffix_raise (p : path) (suffix_ : string) (e : exn) :
  with_suffix p suffix_ = Raise e → ∀ m, e ≠ Exception m.
Proof. unfold with_suffix. repeat case_match; by intros [= <-]. Qed.

Lemma stage1_raise (self : EmzConverter) (st st' : store) (e : exn) :
  convert_emz_files_to_wmf self st = (st', Raise e) → ∀ m, e ≠ Exception m.
Proof.
  unfold convert_emz_files_to_wmf, find_files, exists_. unfold bind at 1 2.
  destruct (bool_decide _); cbn [negb]; [|by intros [= <- <-]].
  intros Hrun. eapply (for_each_raise (λ e, ∀ m, e ≠ Exception m)); [|exact Hrun].
  cbv beta. intros f s s' e'. unfold bind, lift.
  destruct (with_suffix f ".wmf") as [r|e1] eqn:E.
  - apply copyfile_raise.
  - intros [= <- <-]. by eapply with_suffix_raise.
Qed.

Section OneShot.
Context `{Pillow}.

(** Without its staging directory, [convert] raises and writes nothing. *)
Lemma convert_without_staging (self : EmzConverter) (st : store) :
  constructed self →
  st !! wmf_folder self = None →
  ∃ e, convert self st = (st, Raise e)
       ∧ (e = IOError "Provided path does not exist."
          ∨ e = FileNotFoundError ∨ e = IsADirectoryError).
Proof.
  intros Hc Hwmf. unfold convert.
  destruct (st !! folder_input_path self) as [v|] eqn:Ein; cycle 1.
  { eexists. split; [|by left]. erewrite bind_raise; [done|].
    unfold convert_emz_files_to_wmf. erewrite bind_raise; [done|].
    by apply find_files_missing. }
  pose proof (stage1_unfold _ _ _ Ein) as Hs1.
  destruct (glob st (folder_input_path self) "emz") as [|f l] eqn:G.
  { eexists. split; [|by left]. erewrite bind_ok; [|exact Hs1].
    unfold convert_wmf_to_specified_output_type. erewrite bind_raise; [done|].
    by apply find_files_missing. }
  assert (f ∈ glob st (folder_input_path self) "emz") as Hf by (rewrite G; left).
  pose proof (staged_path_not_source self st f f Hc Hf) as Hne.
  pose proof (glob_entry_name _ _ _ _ Hf) as Hv.
  apply elem_of_glob in Hf as (_ & n & _ & _ & _ & [w Hex]).
  assert (∃ e, copyfile f (staged_path self f) st = (st, Raise e)
               ∧ (e = FileNotFoundError ∨ e = IsADirectoryError))
    as (e & Hcopy & He).
  { unfold copyfile. rewrite bool_decide_eq_false_2 by done. cbn [andb].
    unfold bind, read_bytes. rewrite Hex. destruct w as [b|]; [|by eauto].
    unfold write_bytes. rewrite staged_path_parent; cycle 1.
    { by apply valid_name_spec in Hv as (? & _). }
    { by apply valid_name_spec in Hv as (_ & _ & _ & ?). }
    rewrite Hwmf. destruct (st !! staged_path self f) as [[]|]; by eauto. }
  exists e. split; [|by right]. erewrite bind_raise; [done|].
  rewrite Hs1. cbn [for_each]. by erewrite bind_raise.
Qed.

(** A stage 2 that finds no directory at the staging path raises an error
    of the file system. *)
Lemma stage2_without_staging (self : EmzConverter) (st : store) :
  is_dir st (wmf_folder self) = false →
  ∃ e, (convert_wmf_to_specified_output_type self st).2 = Raise e
       ∧ ∀ m, e ≠ Exception m.
Proof.
  intros Hd. unfold convert_wmf_to_specified_output_type.
  destruct (st !! wmf_folder self) as [v|] eqn:E; cycle 1.
  { eexists. by erewrite bind_raise; [|by apply find_files_missing]. }
  erewrite bind_ok; [|by eapply find_files_exists].
  unfold glob. rewrite Hd. cbn [convert_loop]. erewrite bind_ok; [|done].
  unfold is_dir in Hd. rewrite E in Hd. destruct v as [b|]; [|done].
  assert (rmtree (wmf_folder self) st = (st, Raise NotADirectoryError)) as Hr
    by (unfold rmtree; by rewrite E).
  exists NotADirectoryError. by erewrite bind_raise.
Qed.

(** What is left of the staging directory after a [convert] that returned
    or raised the error of the batch. *)
Lemma convert_staging_gone (self : EmzConverter) (st : store) :
  constructed self →
  (convert self st).2 = Ok tt ∨ (convert self st).2 = Raise (Exception batch_message) →
  (convert self st).1 !! wmf_folder self = None.
Proof.
  intros Hc Hres. unfold convert, bind in *.
  destruct (convert_emz_files_to_wmf self st) as [st1 [[]|e]] eqn:E1; simpl in *.
  - destruct (is_dir st1 (wmf_folder self)) eqn:Hd.
    + by apply stage2_staging_gone.
    + destruct (stage2_without_staging self st1 Hd) as (e & He & Hk).
      rewrite He in Hres. destruct Hres as [[=]|[= ->]]. by destruct (Hk batch_message).
  - destruct Hres as [[=]|[= ->]]. by destruct (stage1_raise _ _ _ _ E1 batch_message).
Qed.

End OneShot.

(** ** Stage 2 when nothing can be written *)

Section Stage2Failures.
Context `{Pillow}.

(** The file a listed entry is converted to lies directly in the output
    directory. *)
Lemma outcome_target (self : EmzConverter) (st : store) (f out : path) (data : list byte) :
  valid_name (name f) = true →
  outcome self st f = Some (out, data) →
  ∃ n, valid_name n = true ∧ out = folder_output_path self ++ [n].
Proof.
  intros Hv Ho. destruct (outcome_path _ _ _ _ _ Ho) as (renamed & Hren & ->).
  destruct (valid_suffix ("." +:+ output_type self)) eqn:Hvs; cycle 1.
  { destruct (with_suffix_dot_invalid f _ Hvs) as [e He]. congruence. }
  rewrite with_suffix_stem in Hren; [|done|by apply valid_name_spec in Hv as (? & _)].
  injection Hren as <-.
  assert (valid_name (stem f +:+ "." +:+ output_type self) = true) as Hn
    by by apply renamed_valid.
  rewrite name_child by done. rewrite joinpath_name by done. by eexists.
Qed.

Lemma convert_loop_all_fail (self : EmzConverter) (st : store) (files errors_ : list path) :
  (∀ f, f ∈ files → outcome self st f = None) →
  convert_loop self files errors_ st = (st, Ok (errors_ ++ files)).
Proof.
  revert errors_. induction files as [|f files IH]; intros errors_ Hall.
  { by rewrite app_nil_r. }
  rewrite convert_loop_cons.
  destruct (try_convert_outcome_None self st f) as [e ->]; [apply Hall; left|].
  rewrite IH; [by rewrite <- app_assoc|]. intros g Hg. apply Hall. by right.
Qed.

(** Stage 2 after a loop that recorded failures: the staging directory is
    removed, then the report is written. *)
Lemma stage2_with_failures (self : EmzConverter) (st st1 : store) (errors_ : list path) :
  is_dir st (wmf_folder self) = true →
  convert_loop self (glob st (wmf_folder self) "wmf") [] st = (st1, Ok errors_) →
  errors_ ≠ [] →
  convert_wmf_to_specified_output_type self st
  = (write_bytes report_path (report_bytes errors_) ;; raise (Exception batch_message))
      (filter (λ kv : path * node, ¬ wmf_folder self `prefix_of` kv.1) st1).
Proof.
  intros Hd Hloop Hne. rewrite (stage2_unfold _ _ _ _ Hd Hloop).
  by destruct errors_.
Qed.

End Stage2Failures.

(** ** Properties of the two stages *)

Section StageProperties.
Context `{Pillow}.

(** X6 ([convert_emz_files_to_wmf], lines 75-77, and [convert], lines
    100-103).  Stage 1 has no [try]: when an entry of the input directory
    whose name ends in [.emz] is a directory, [copyfile] raises
    [IsADirectoryError] and [convert] raises it without running stage 2.
    The staging directory is therefore not removed, and nothing outside it
    has changed: no output file and no report is written. *)
Theorem X6_directory_entry_aborts_the_run (self : EmzConverter) (st : store) (d : path) :
  constructed self →
  is_dir st (wmf_folder self) = true →
  d ∈ glob st (folder_input_path self) "emz" →
  st !! d = Some Dir →
  let st' := (convert_emz_files_to_wmf self st).1 in
  convert_emz_files_to_wmf self st = (st', Raise IsADirectoryError)
  ∧ convert self st = (st', Raise IsADirectoryError)
  ∧ is_dir st' (wmf_folder self) = true
  ∧ (∀ p, ¬ wmf_folder self `prefix_of` p → st' !! p = st !! p).
Proof.
  intros Hc Hwmf Hd Hdir st'.
  assert (convert_emz_files_to_wmf self st = (st', Raise IsADirectoryError)) as Hs1.
  { subst st'. pose proof Hd as (Hin%is_dir_true & _)%elem_of_glob.
    rewrite (stage1_unfold _ _ _ Hin).
    destruct (copy_loop_cases self st (glob st (folder_input_path self) "emz") st Hc)
      as [_ [Hr|[_ Hall]]]; [done|done|by apply is_dir_true| |].
    - by destruct (for_each _ _ st) as [st1 r]; simpl in *; subst r.
    - destruct (Hall d Hd) as [b Hb]. congruence. }
  split; [done|]. split; [unfold convert; by erewrite bind_raise|]. split.
  - subst st'. pose proof Hd as (Hin%is_dir_true & _)%elem_of_glob.
    rewrite (stage1_unfold _ _ _ Hin). apply is_dir_true.
    by apply (copy_loop_cases self st); [| | |apply is_dir_true].
  - intros p Hp. by apply stage1_frame.
Qed.

(** X7 ([convert], lines 100-103, with line 91).  An object converts once.
    After a [convert] that returned, or that raised the error of the batch,
    the staging directory is gone, and a second [convert] on the same
    object raises ([IOError] from [find_files] when there is nothing to
    copy, else [FileNotFoundError] or [IsADirectoryError] from the first
    copy) and leaves the store as it is. *)
Theorem X7_second_convert_raises (self : EmzConverter) (st : store) :
  constructed self →
  (convert self st).2 = Ok tt ∨ (convert self st).2 = Raise (Exception batch_message) →
  let st' := (convert self st).1 in
  ∃ e, convert self st' = (st', Raise e)
       ∧ (e = IOError "Provided path does not exist."
          ∨ e = FileNotFoundError ∨ e = IsADirectoryError).
Proof.
  intros Hc Hres st'. apply convert_without_staging; [done|].
  by apply convert_staging_gone.
Qed.

(** X8 ([__init__] and [convert] as line 107 runs them).  A run, whatever
    its outcome, changes nothing outside these places: the output
    directory and the directories above it, the entries directly in the
    output directory, the staging directory with everything below it, and
    the report. *)
Theorem X8_a_run_stays_in_its_directories
    (inp : string) (outp : option string) (ext : string) (st : store) (p : path) :
  ¬ p `prefix_of` Path (output_string inp outp) →
  ¬ joinpath (Path inp) "wmf_files" `prefix_of` p →
  (∀ n, p ≠ Path (output_string inp outp) ++ [n]) →
  p ≠ report_path →
  (run inp outp ext st).1 !! p = st !! p.
Proof. apply run_frame. Qed.


(** X10 ([convert_wmf_to_specified_output_type], lines 91-96).  The staging
    directory is removed before the report is written.  When files failed
    and [unsuccessful_conversions.csv] in the working directory is a
    directory, stage 2 raises [IsADirectoryError] from [to_csv] in place of
    the error of the batch: no report exists, and the staged files are gone
    already. *)
Theorem X10_report_path_is_a_directory
    (self : EmzConverter) (st st1 : store) (errors_ : list path) :
  constructed self →
  is_dir st (wmf_folder self) = true →
  st !! report_path = Some Dir →
  convert_loop self (glob st (wmf_folder self) "wmf") [] st = (st1, Ok errors_) →
  errors_ ≠ [] →
  convert_wmf_to_specified_output_type self st
  = (filter (λ kv : path * node, ¬ wmf_folder self `prefix_of` kv.1) st1,
     Raise IsADirectoryError).
Proof.
  intros Hc Hwmf Hrep Hloop Hne.
  rewrite (stage2_with_failures _ _ _ _ Hwmf Hloop Hne).
  destruct (convert_loop_preserves _ _ _ _ _ _ Hloop) as (Hdir & _).
  erewrite bind_raise; [done|]. unfold write_bytes. rewrite lookup_rmtree.
  rewrite decide_False by by apply constructed_not_prefix_report.
  by rewrite (proj2 (Hdir report_path) Hrep).
Qed.

End StageProperties.

Lemma X6_directory_entry_aborts_the_run_witness :
  let st' := (convert_emz_files_to_wmf example_self example_dir_entry).1 in
  convert_emz_files_to_wmf example_self example_dir_entry = (st', Raise IsADirectoryError)
  ∧ @convert example_pillow example_self example_dir_entry = (st', Raise IsADirectoryError)
  ∧ is_dir st' (wmf_folder example_self) = true
  ∧ (∀ p, ¬ wmf_folder example_self `prefix_of` p → st' !! p = example_dir_entry !! p).
Proof.
  apply (@X6_directory_entry_aborts_the_run
           example_pillow example_self example_dir_entry ["in"; "album.emz"]).
  - reflexivity.
  - reflexivity.
  - apply elem_of_glob. split; [reflexivity|]. exists "album.emz".
    split; [reflexivity|]. split; [reflexivity|]. split; [reflexivity|]. by eexists.
  - reflexivity.
Defined.

Lemma X7_second_convert_raises_witness :
  let st' := (@convert example_pillow example_self example_constructed).1 in
  ∃ e, @convert example_pillow example_self st' = (st', Raise e)
       ∧ (e = IOError "Provided path does not exist."
          ∨ e = FileNotFoundError ∨ e = IsADirectoryError).
Proof.
  refine (@X7_second_convert_raises example_pillow example_self example_constructed _ _).
  - reflexivity.
  - right. vm_compute. reflexivity.
Defined.

Lemma X8_a_run_stays_in_its_directories_witness :
  (@run example_pillow "in" (Some "out") "png" example_store).1 !! ["in"; "a.emz"]
  = example_store !! ["in"; "a.emz"].
Proof.
  apply (@X8_a_run_stays_in_its_directories
           example_pillow "in" (Some "out") "png" example_store ["in"; "a.emz"]).
  - intros [r Hr]. vm_compute in Hr. discriminate.
  - intros [r Hr]. vm_compute in Hr. discriminate.
  - intros n Hn. vm_compute in Hn. discriminate.
  - vm_compute. discriminate.
Defined.


Lemma X10_report_path_is_a_directory_witness :
  @convert_wmf_to_specified_output_type example_pillow example_self example_report_is_dir
  = (filter (λ kv : path * node, ¬ wmf_folder example_self `prefix_of` kv.1)
       example_report_is_dir,
     Raise IsADirectoryError).
Proof.
  apply (@X10_report_path_is_a_directory
           example_pillow example_self example_report_is_dir example_report_is_dir
           [["in"; "wmf_files"; "corrupt.wmf"]]).
  - reflexivity.
  - reflexivity.
  - reflexivity.
  - apply (@convert_loop_all_fail example_pillow example_self example_report_is_dir
             [["in"; "wmf_files"; "corrupt.wmf"]] []).
    intros f Hf%elem_of_one. subst f. reflexivity.
  - discriminate.
Defined.

(** ** Properties of the listing and of the names *)

(** X1 ([find_files], lines 55-68).  For a suffix without wildcard
    characters: on a missing path [find_files] raises [IOError]; on a
    regular file it returns an empty listing, not an error; on a directory
    it returns, each once, exactly the entries directly in it whose name
    ends in a dot and the suffix, directories included and entries of
    sub-directories excluded.  The store is never changed. *)
Theorem X1_find_files_lists_the_matching_entries
    (st : store) (d : path) (suffix_ : string) :
  plain_suffix suffix_ = true →
  match st !! d with
  | None =>
      find_files d suffix_ st = (st, Raise (IOError "Provided path does not exist."))
  | Some (File _) => find_files d suffix_ st = (st, Ok [])
  | Some Dir =>
      ∃ files,
        find_files d suffix_ st = (st, Ok files)
        ∧ NoDup files
        ∧ ∀ f, f ∈ files ↔
               ∃ n, f = d ++ [n] ∧ valid_name n = true ∧ is_Some (st !! f)
                    ∧ Str.endswith ("." +:+ suffix_) n = true
  end.
Proof.
  intros _. destruct (st !! d) as [[b|]|] eqn:E.
  - rewrite (find_files_exists _ _ _ _ E). unfold glob, is_dir. by rewrite E.
  - exists (glob st d suffix_). split; [by eapply find_files_exists|].
    split; [apply NoDup_glob|]. intros f. rewrite elem_of_glob. split.
    + intros (_ & n & -> & Hv & Hm & Hex). by exists n.
    + intros (n & -> & Hv & Hex & Hm). split; [by apply is_dir_true|]. by exists n.
  - by apply find_files_missing.
Qed.

Lemma X1_find_files_lists_the_matching_entries_witness :
  ∃ files,
    find_files ["in"] "emz" example_store = (example_store, Ok files)
    ∧ NoDup files
    ∧ ∀ f, f ∈ files ↔
           ∃ n, f = ["in"] ++ [n] ∧ valid_name n = true ∧ is_Some (example_store !! f)
                ∧ Str.endswith ("." +:+ "emz") n = true.
Proof.
  exact (X1_find_files_lists_the_matching_entries example_store ["in"] "emz" eq_refl).
Defined.

(** X11 (lines 76 and 85).  The two renamings compose to a change of the
    last extension only: an entry named [base.emz], with a non-empty
    [base], is staged as [base.wmf] in the staging directory and converted
    to [base.ext] in the output directory, whatever dots [base] holds. *)
Theorem X11_renaming_changes_the_last_extension_only
    (d wmf out : path) (base ext : string) :
  valid_name (base +:+ ".emz") = true →
  base ≠ "" →
  ext ≠ "" →
  Str.contains sep ext = false →
  ∃ renamed renamed',
    with_suffix (d ++ [base +:+ ".emz"]) ".wmf" = Ok renamed
    ∧ joinpath wmf (name renamed) = wmf ++ [base +:+ ".wmf"]
    ∧ with_suffix (wmf ++ [base +:+ ".wmf"]) ("." +:+ ext) = Ok renamed'
    ∧ joinpath out (name renamed') = out ++ [base +:+ "." +:+ ext].
Proof.
  intros Hv Hb He Hs.
  assert (stem (d ++ [base +:+ ".emz"]) = base) as Hstem
    by by apply (stem_dot d base "emz").
  assert (valid_name (base +:+ ".wmf") = true) as Hv1.
  { rewrite <- Hstem. apply renamed_valid; [done|]. by rewrite name_child. }
  assert (stem (wmf ++ [base +:+ ".wmf"]) = base) as Hstem1
    by by apply (stem_dot wmf base "wmf").
  assert (valid_suffix ("." +:+ ext) = true) as Hvs.
  { rewrite valid_suffix_dot, Hs. by destruct ext. }
  assert (valid_name (base +:+ "." +:+ ext) = true) as Hv2.
  { rewrite <- Hstem1 at 1. apply (renamed_valid _ ("." +:+ ext)); [done|].
    by rewrite name_child. }
  exists (d ++ [base +:+ ".wmf"]), (wmf ++ [base +:+ "." +:+ ext]).
  split; [by rewrite with_suffix_child, Hstem|].
  split; [by rewrite name_child, joinpath_name|].
  split; [by rewrite with_suffix_child, Hstem1|].
  by rewrite name_child, joinpath_name.
Qed.

Lemma X11_renaming_changes_the_last_extension_only_witness :
  ∃ renamed renamed',
    with_suffix (["in"] ++ ["scan.v2.emz"]) ".wmf" = Ok renamed
    ∧ joinpath ["in"; "wmf_files"] (name renamed) = ["in"; "wmf_files"] ++ ["scan.v2.wmf"]
    ∧ with_suffix (["in"; "wmf_files"] ++ ["scan.v2.wmf"]) ".png" = Ok renamed'
    ∧ joinpath ["out"] (name renamed') = ["out"] ++ ["scan.v2.png"].
Proof.
  apply (X11_renaming_changes_the_last_extension_only
           ["in"] ["in"; "wmf_files"] ["out"] "scan.v2" "png");
    [reflexivity|discriminate|discriminate|reflexivity].
Defined.

Section FailureSequence.
Context `{Pillow}.

Lemma convert_loop_sublist (self : EmzConverter) (files errors_ : list path)
    (st st' : store) (errors' : list path) :
  convert_loop self files errors_ st = (st', Ok errors') →
  ∃ failed, errors' = errors_ ++ failed ∧ failed `sublist_of` files.
Proof.
  revert errors_ st. induction files as [|f files IH]; intros errors_ st Hrun.
  { injection Hrun as _ <-. exists []. by rewrite app_nil_r. }
  rewrite convert_loop_cons in Hrun.
  destruct (try_convert self f st) as [st1 [[]|e]].
  - destruct (IH _ _ Hrun) as (failed & -> & Hsub). exists failed.
    split; [done|]. by apply sublist_cons.
  - destruct (IH _ _ Hrun) as (failed & -> & Hsub). exists (f :: failed).
    split; [by rewrite <- app_assoc|]. by apply sublist_skip.
Qed.

(** X12 ([convert_wmf_to_specified_output_type], lines 81-90).  The loop of
    stage 2 always gets to its end, and its failure sequence is a
    sub-sequence of the listing of the staging directory: the failed files
    in the order of the listing, none of them twice. *)
Theorem X12_failures_follow_the_listing (self : EmzConverter) (st : store) :
  ∃ st1 errors_,
    convert_loop self (glob st (wmf_folder self) "wmf") [] st = (st1, Ok errors_)
    ∧ errors_ `sublist_of` glob st (wmf_folder self) "wmf"
    ∧ NoDup errors_.
Proof.
  destruct (convert_loop_total self (glob st (wmf_folder self) "wmf") [] st)
    as (st1 & errors_ & Hloop).
  exists st1, errors_. split; [done|].
  destruct (convert_loop_sublist _ _ _ _ _ _ Hloop) as (failed & -> & Hsub).
  simpl. split; [done|]. eapply sublist_NoDup; [apply NoDup_glob|exact Hsub].
Qed.

End FailureSequence.

(** ** The default output directory and the strings of the paths *)

Lemma startswith_sep_app (s t : string) :
  Str.startswith "/" t = false →
  Str.startswith "/" (s +:+ t) = Str.startswith "/" s.
Proof.
  intros Ht. destruct s as [|a s]; [|reflexivity].
  change ("" +:+ t) with t. by rewrite Ht.
Qed.

Lemma splitroot_app_eq (s t : string) :
  Str.startswith "/" t = false →
  splitroot (s +:+ t) = ((splitroot s).1, (splitroot s).2 +:+ t).
Proof.
  intros Ht. unfold splitroot. rewrite (startswith_sep_app s t Ht).
  destruct (Str.startswith "/" s) eqn:E1; cbn [negb]; [|done].
  assert (1 ≤ String.length s)%nat as Hl1 by (destruct s; [done|simpl; lia]).
  rewrite (drop_app 1 s t Hl1), (startswith_sep_app (Str.drop 1 s) t Ht).
  destruct (Str.startswith "/" (Str.drop 1 s)) eqn:E2; cbn [negb orb]; [|done].
  assert (2 ≤ String.length s)%nat as Hl2.
  { destruct s as [|a [|b s]]; simpl in *; try done; lia. }
  rewrite (drop_app 2 s t Hl2), (startswith_sep_app (Str.drop 2 s) t Ht).
  by destruct (Str.startswith "/" (Str.drop 2 s)).
Qed.

(** [Path (s + t)] against [Path s], for a [t] of two characters or more
    without separator: [t] is appended to the last name of the string. *)
Lemma Path_app_name (s t : string) :
  Str.contains sep t = false → (2 ≤ String.length t)%nat →
  ∃ l x, Path (s +:+ t) = l ++ [x +:+ t]
         ∧ (Path s = l ++ [x] ∨ (Path s = l ∧ (x = "" ∨ x = "."))).
Proof.
  intros Ht Hlen.
  assert (Str.startswith "/" t = false) as Hst
    by by apply (StrFacts.startswith_no_sep "/"%char).
  unfold Path. rewrite (splitroot_app_eq s t Hst).
  destruct (splitroot s) as [root rel]. cbn [fst snd].
  destruct (split_app_last sep rel t Ht) as (l & x & Hsplit & Hsplit').
  assert (parse_rel (rel +:+ t) = filter (λ x, x ≠ "" ∧ x ≠ ".") l ++ [x +:+ t]) as Hp'.
  { unfold parse_rel. rewrite Hsplit', filter_app. f_equal.
    rewrite filter_cons_True; [done|].
    split; intros Heq; apply (f_equal String.length) in Heq;
      rewrite StrFacts.length_app in Heq; simpl in Heq; lia. }
  assert (parse_rel rel = filter (λ x, x ≠ "" ∧ x ≠ ".") l ++ [x]
          ∨ (parse_rel rel = filter (λ x, x ≠ "" ∧ x ≠ ".") l ∧ (x = "" ∨ x = ".")))
    as Hp.
  { unfold parse_rel. rewrite Hsplit, filter_app.
    destruct (decide (x = "")) as [->|H1]; [right; by rewrite app_nil_r; auto|].
    destruct (decide (x = ".")) as [->|H2]; [right; by rewrite app_nil_r; auto|].
    left. by rewrite filter_cons_True. }
  rewrite Hp'. case_decide.
  - exists (filter (λ x, x ≠ "" ∧ x ≠ ".") l), x. split; [done|].
    destruct Hp as [->|[-> ?]]; by auto.
  - exists (root :: filter (λ x, x ≠ "" ∧ x ≠ ".") l), x. split; [done|].
    destruct Hp as [->|[-> ?]]; by auto.
Qed.

(** X13 ([check_paths], lines 47-52).  With POSIX paths the backslash of
    line 48 is part of a name: for every input string, the default output
    directory bears the last name [x] of the string followed by
    [\output_png_images].  It is a sibling of the input directory, in the
    same parent [l]; or, when the input string ends in a separator or in a
    [.] component, the child of the input directory whose name is
    [\output_png_images] or [.\output_png_images]. *)
Theorem X13_default_output_directory_with_posix_paths (inp : string) :
  ∃ l x,
    Path (output_string inp None) = l ++ [x +:+ "\output_png_images"]
    ∧ (Path inp = l ++ [x] ∨ (Path inp = l ∧ (x = "" ∨ x = "."))).
Proof. unfold output_string. apply Path_app_name; [done|simpl; lia]. Qed.

(** *** [Path] of [str] *)

Lemma split_elem_no_sep (s x : string) :
  x ∈ Str.split sep s → Str.contains sep x = false.
Proof.
  revert x. induction s as [|a s IH]; intros x; simpl.
  { by intros ->%list_elem_of_singleton. }
  destruct (Ascii.eqb a sep) eqn:Ea.
  - intros [->|Hx]%elem_of_cons; [done|by apply IH].
  - destruct (Str.split sep s) as [|y ys].
    + intros ->%list_elem_of_singleton. simpl. by rewrite Ea.
    + intros [->|Hx]%elem_of_cons.
      * simpl. rewrite Ea. apply IH. left.
      * apply IH. by right.
Qed.

Lemma parse_rel_kept (s : string) : Forall kept_name (parse_rel s).
Proof.
  apply Forall_forall. intros x [[H1 H2] Hx%split_elem_no_sep]%list_elem_of_filter.
  done.
Qed.

Lemma split_app_sep (x r : string) :
  Str.contains sep x = false →
  Str.split sep (x +:+ String sep r) = x :: Str.split sep r.
Proof.
  induction x as [|a x IH]; intros Hx; [done|].
  simpl in Hx. apply orb_false_iff in Hx as [Ha Hx]. simpl.
  rewrite Ha. by rewrite (IH Hx).
Qed.

Lemma split_join (l : list string) :
  l ≠ [] → Forall kept_name l → Str.split sep (Str.join "/" l) = l.
Proof.
  induction l as [|x l IH]; [done|]. intros _ Hl.
  apply Forall_cons in Hl as [(_ & _ & Hx) Hl].
  destruct l as [|y l]; [by apply StrFacts.split_no_sep|].
  change (Str.join "/" (x :: y :: l)) with (x +:+ String sep (Str.join "/" (y :: l))).
  rewrite (split_app_sep _ _ Hx). f_equal. by apply IH.
Qed.

Lemma parse_rel_join (l : list string) :
  Forall kept_name l → parse_rel (Str.join "/" l) = l.
Proof.
  intros Hl. destruct (decide (l = [])) as [->|Hne]; [done|].
  unfold parse_rel. rewrite (split_join l Hne Hl).
  induction Hl as [|x l (H1 & H2 & _) Hl IH]; [done|].
  rewrite filter_cons_True by done. f_equal.
  destruct (decide (l = [])) as [->|Hne']; [done|by apply IH].
Qed.

Lemma startswith_sep_join (l : list string) :
  Forall kept_name l → Str.startswith "/" (Str.join "/" l) = false.
Proof.
  intros Hl. destruct Hl as [|x l (H1 & _ & H3) Hl]; [done|].
  assert (∀ r, Str.startswith "/" (x +:+ r) = false) as Hx.
  { intros r. destruct x as [|a x]; [done|].
    change (Str.startswith "/" (String a x +:+ r)) with (Str.startswith "/" (String a x)).
    by apply (StrFacts.startswith_no_sep "/"%char). }
  destruct l as [|y l]; [|apply Hx].
  by apply (StrFacts.startswith_no_sep "/"%char).
Qed.

Lemma Path_str (p : path) : normal p → Path (str p) = p.
Proof.
  intros [Hrel|(root & names & -> & Hroot & Hnames)].
  - destruct p as [|a t]; [done|].
    pose proof (startswith_sep_join _ Hrel) as Hj.
    assert (has_anchor (a :: t) = false) as Ha.
    { apply Forall_cons in Hrel as [(_ & _ & Hs) _]. simpl.
      by apply (StrFacts.startswith_no_sep "/"%char). }
    unfold str. rewrite Ha. unfold Path, splitroot. rewrite Hj. cbn [negb].
    rewrite decide_True by done. by apply parse_rel_join.
  - pose proof (startswith_sep_join _ Hnames) as Hj.
    pose proof (parse_rel_join _ Hnames) as Hp.
    unfold str. destruct Hroot as [-> | ->].
    + change (has_anchor ("/" :: names)) with true. cbv iota.
      unfold Path, splitroot.
      change (Str.startswith "/" ("/" +:+ Str.join "/" names)) with true.
      change (Str.drop 1 ("/" +:+ Str.join "/" names)) with (Str.join "/" names).
      rewrite Hj. cbn [negb orb]. rewrite decide_False by done. by rewrite Hp.
    + change (has_anchor ("//" :: names)) with true. cbv iota.
      unfold Path, splitroot.
      change (Str.startswith "/" ("//" +:+ Str.join "/" names)) with true.
      change (Str.drop 1 ("//" +:+ Str.join "/" names)) with ("/" +:+ Str.join "/" names).
      change (Str.startswith "/" ("/" +:+ Str.join "/" names)) with true.
      change (Str.drop 2 ("//" +:+ Str.join "/" names)) with (Str.join "/" names).
      rewrite Hj. cbn [negb orb]. rewrite decide_False by done. by rewrite Hp.
Qed.

Lemma normal_Path (s : string) : normal (Path s).
Proof.
  unfold Path.
  assert ((splitroot s).1 = "" ∨ (splitroot s).1 = "/" ∨ (splitroot s).1 = "//") as Hroot.
  { unfold splitroot. repeat case_match; simpl; auto. }
  destruct (splitroot s) as [root rel]. simpl in Hroot. case_decide.
  - left. apply parse_rel_kept.
  - right. exists root, (parse_rel rel). split; [done|]. split; [|apply parse_rel_kept].
    by destruct Hroot as [?|[?|?]]; auto.
Qed.

Lemma normal_app (p : path) (names : list string) :
  normal p → Forall kept_name names → normal (p ++ names).
Proof.
  intros [Hrel|(root & l & -> & Hroot & Hl)] Hn.
  - left. by apply Forall_app.
  - right. exists root, (l ++ names). split; [done|]. split; [done|by apply Forall_app].
Qed.

Lemma valid_name_kept (n : string) : valid_name n = true → kept_name n.
Proof. intros (? & ? & _ & ?)%valid_name_spec. done. Qed.

(** X14 (lines 77 and 93-94, where paths go to [copyfile] and [to_csv] as
    strings).  The string of a path reads back as the same path: for the
    path of any string, followed by any entry names.  This holds for the
    input, output and staging directories and for every file the two
    stages list or write. *)
Theorem X14_a_path_reads_back_from_its_string (s : string) (names : list string) :
  Forall (λ n, valid_name n = true) names →
  Path (str (Path s ++ names)) = Path s ++ names.
Proof.
  intros Hn. apply Path_str, normal_app; [apply normal_Path|].
  eapply Forall_impl; [exact Hn|]. apply valid_name_kept.
Qed.

Lemma X14_a_path_reads_back_from_its_string_witness :
  Path (str (Path "/data//in/./" ++ ["wmf_files"; "a.wmf"]))
  = Path "/data//in/./" ++ ["wmf_files"; "a.wmf"].
Proof.
  apply (X14_a_path_reads_back_from_its_string "/data//in/./" ["wmf_files"; "a.wmf"]).
  repeat constructor.
Defined.

(** ** A run in which some inputs fail *)

Section PartialRun.
Context `{Pillow}.


End PartialRun.


(** ** The exceptions of a run *)

Lemma mkdir_depth_raise (depth : nat) (p : path) (parents exist_ok : bool)
    (st st' : store) (e : exn) :
  mkdir_depth depth p parents exist_ok st = (st', Raise e) →
  e = RecursionError ∨ e = FileExistsError ∨ e = NotADirectoryError
  ∨ e = FileNotFoundError.
Proof.
  revert p parents exist_ok st st'.
  induction depth as [|depth IH]; intros p parents exist_ok st st';
    [intros [= _ <-]; by auto|].
  cbn [mkdir_depth]. destruct (os_mkdir p st) as [st1 [[]|e1]] eqn:E; [done|].
  destruct (os_mkdir_raise _ _ _ _ E) as [->|[->| ->]].
  - destruct (negb exist_ok || negb (is_dir st1 p)); intros [= _ <-]; by auto.
  - destruct (negb exist_ok || negb (is_dir st1 p)); intros [= _ <-]; by auto.
  - destruct (negb parents || bool_decide (parent p = p)); [intros [= _ <-]; by auto|].
    unfold bind. destruct (mkdir_depth depth (parent p) true true st1) as [st2 [[]|e2]] eqn:E2.
    + apply IH.
    + intros [= _ <-]. by eapply IH.
Qed.

Lemma init_raise_kind (inp : string) (outp : option string) (ext : string)
    (st st' : store) (e : exn) :
  __init__ inp outp ext st = (st', Raise e) →
  e = IOError ("The path " +:+ inp +:+ " does not exist")
  ∨ e = FileExistsError ∨ e = NotADirectoryError ∨ e = FileNotFoundError.
Proof.
  intros Hi. pose proof (init_no_recursion_error inp outp ext st) as Hno.
  rewrite Hi in Hno. simpl in Hno.
  destruct (check_paths inp outp st) as [st1 [paths|e1]] eqn:Hc.
  - rewrite (init_unfold _ _ _ _ _ _ Hc) in Hi.
    destruct (mkdir _ true true st1) as [st2 [[]|e2]] eqn:E; simpl in Hi; [done|].
    injection Hi as _ ->.
    destruct (mkdir_depth_raise _ _ _ _ _ _ _ E) as [->|?]; [done|by auto].
  - rewrite (init_raise _ _ _ _ _ _ Hc) in Hi. injection Hi as _ ->.
    destruct (check_paths_cases inp outp st) as [[_ Hx]|[(_ & _ & Hx)|(_ & _ & Hx)]];
      rewrite Hx in Hc.
    + injection Hc as _ <-. by left.
    + done.
    + destruct (mkdir _ true false st) as [st2 [[]|e2]] eqn:E; simpl in Hc; [done|].
      injection Hc as _ ->.
      destruct (mkdir_depth_raise _ _ _ _ _ _ _ E) as [->|?]; [done|by auto].
Qed.

Lemma for_each_raise_in {A} (P : exn → Prop) (l : list A) (body : A → M unit)
    (st st' : store) (e : exn) :
  (∀ x s s' e, x ∈ l → body x s = (s', Raise e) → P e) →
  for_each l body st = (st', Raise e) → P e.
Proof.
  revert st. induction l as [|x l IH]; intros st Hbody; simpl; [done|].
  unfold bind. destruct (body x st) as [s1 [[]|e1]] eqn:E.
  - apply IH. intros y s s' e' Hy. apply Hbody. by right.
  - intros [= <- <-]. eapply Hbody; [left|done].
Qed.

Lemma copyfile_raise_kind (src dst : path) (st st' : store) (e : exn) :
  src ≠ dst →
  copyfile src dst st = (st', Raise e) →
  e = IsADirectoryError ∨ e = FileNotFoundError ∨ e = NotADirectoryError.
Proof.
  intros Hne. unfold copyfile. rewrite bool_decide_eq_false_2 by done. cbn [andb].
  unfold bind, read_bytes, write_bytes.
  destruct (st !! src) as [[]|]; try (intros [= _ <-]; by auto).
  destruct (st !! dst) as [[]|], (st !! parent dst) as [[]|]; intros [= _ <-]; by auto.
Qed.

Lemma stage1_raise_kind (self : EmzConverter) (st st' : store) (e : exn) :
  constructed self →
  convert_emz_files_to_wmf self st = (st', Raise e) →
  e = IOError "Provided path does not exist."
  ∨ e = IsADirectoryError ∨ e = FileNotFoundError ∨ e = NotADirectoryError.
Proof.
  intros Hc. destruct (st !! folder_input_path self) as [v|] eqn:Ein.
  - rewrite (stage1_unfold _ _ _ Ein). intros Hrun. right.
    eapply (for_each_raise_in
              (λ e, e = IsADirectoryError ∨ e = FileNotFoundError ∨ e = NotADirectoryError));
      [|exact Hrun].
    cbv beta. intros f s s' e' Hf. apply copyfile_raise_kind.
    by eapply staged_path_not_source.
  - unfold convert_emz_files_to_wmf.
    erewrite bind_raise; [|by apply find_files_missing]. intros [= _ <-]. by left.
Qed.

Section RunExceptions.
Context `{Pillow}.

Lemma stage2_raise_kind (self : EmzConverter) (st st' : store) (e : exn) :
  convert_wmf_to_specified_output_type self st = (st', Raise e) →
  e = IOError "Provided path does not exist."
  ∨ e = IsADirectoryError ∨ e = FileNotFoundError ∨ e = NotADirectoryError
  ∨ e = Exception batch_message.
Proof.
  unfold convert_wmf_to_specified_output_type.
  destruct (st !! wmf_folder self) as [v|] eqn:E; cycle 1.
  { erewrite bind_raise; [|by apply find_files_missing]. intros [= _ <-]. by auto. }
  erewrite bind_ok; [|by eapply find_files_exists].
  destruct (convert_loop_total self (glob st (wmf_folder self) "wmf") [] st)
    as (st2 & errors_ & Hloop).
  erewrite bind_ok; [|done].
  unfold bind at 1. unfold rmtree.
  destruct (st2 !! wmf_folder self) as [[]|]; [intros [= _ <-]; by auto| |intros [= _ <-]; by auto].
  destruct (0 <? length errors_)%nat; [|done].
  unfold pd.to_csv, bind, write_bytes, raise.
  set (st3 := filter _ st2).
  destruct (st3 !! Path csv_file) as [[]|], (st3 !! parent (Path csv_file)) as [[]|];
    intros [= _ <-]; by auto 6.
Qed.


End RunExceptions.

